(** * himcm.core: the sustainability scoring pipeline

    A shallow embedding of [src/himcm/core.py] (functions
    [_minmax_normalize], [compute_env_condition_metric], [_map_with_rubric]
    and [calculate_sustainability_scores]) together with the properties the
    specification states about them.

    Numbers.  A Python/NumPy float is embedded as an exact rational or NaN
    ([float]); the arithmetic is exact, so a property that the specification
    states "within floating tolerance" is proved with tolerance zero, up to
    [Qeq].  Infinities do not occur: every NumPy division of the pipeline is
    guarded by the source, and a division of Python floats by zero raises.
    The three library functions whose result is not a rational function of
    the input (the printing of a float, the parsing of a string as a float,
    and the square root) are taken from a [Runtime].

    Rounding.  Exact arithmetic agrees with the doubles of the code up to
    rounding errors, except where a comparison turns on such an error.  The
    pipeline has one comparison of that kind, the guard [std == 0] of the
    standardizer: on equal raw scores the exact deviation is 0, the deviation
    pandas computes need not be.  [z_scores] decides the guard exactly;
    [F64.z_scores] is the same code over binary64 and settles what the code
    does on such a column.

    Frames.  A pandas Series is a list of cells, a DataFrame a list of named
    columns in column order with a default positional index; column names
    are assumed distinct, as pandas indexing by name requires for the code
    to work at all.  Frames live in a store and are passed by reference. *)

From Stdlib Require Import QArith Qround Qabs ZArith List String Ascii Bool Lia Lqa.
From Stdlib Require Import DecimalString.
From Stdlib Require PrimFloat.
Import ListNotations.
Open Scope string_scope.
Open Scope list_scope.
Open Scope Q_scope.

(** ** Python: exceptions, strings, dictionaries *)

Module Py.

Inductive exn : Set := ZeroDivisionError | ValueError | KeyError.

(** The outcome of an expression: a value, or a raised exception. *)
Inductive res (A : Type) : Type :=
| Ok (a : A)
| Raise (e : exn).
Arguments Ok {A} a.
Arguments Raise {A} e.

Definition bind {A B} (m : res A) (k : A -> res B) : res B :=
  match m with
  | Ok a => k a
  | Raise e => Raise e
  end.

Fixpoint mapM {A B} (f : A -> res B) (l : list A) : res (list B) :=
  match l with
  | [] => Ok []
  | x :: t =>
      bind (f x) (fun y => bind (mapM f t) (fun ys => Ok (y :: ys)))
  end.

(** [str.lower], on ASCII letters. *)
Definition lower_ascii (c : ascii) : ascii :=
  let n := nat_of_ascii c in
  if ((65 <=? n) && (n <=? 90))%nat then ascii_of_nat (n + 32) else c.

Fixpoint lower (s : string) : string :=
  match s with
  | EmptyString => EmptyString
  | String c t => String (lower_ascii c) (lower t)
  end.

(** [s.startswith(p)]. *)
Definition startswith (s p : string) : bool := String.prefix p s.

(** [sub in s] for strings. *)
Fixpoint contains (sub s : string) : bool :=
  String.prefix sub s
  || match s with
     | EmptyString => false
     | String _ t => contains sub t
     end.

(** [s in l] for a list of strings. *)
Definition str_in (s : string) (l : list string) : bool :=
  existsb (String.eqb s) l.

(** A [dict] with string keys, in insertion order. *)
Definition dict (V : Type) : Type := list (string * V).

Definition keys {V} (d : dict V) : list string := map fst d.
Definition values {V} (d : dict V) : list V := map snd d.

Fixpoint get {V} (k : string) (d : dict V) : option V :=
  match d with
  | [] => None
  | (k', v) :: t => if String.eqb k k' then Some v else get k t
  end.

(** [k in d]. *)
Definition mem {V} (k : string) (d : dict V) : bool :=
  match get k d with Some _ => true | None => false end.

(** [d[k] = v]: an existing key keeps its position, a new key goes last. *)
Fixpoint set {V} (k : string) (v : V) (d : dict V) : dict V :=
  match d with
  | [] => [(k, v)]
  | (k', v') :: t =>
      if String.eqb k k' then (k', v) :: t else (k', v') :: set k v t
  end.

(** [d[k]], which raises [KeyError] on a missing key. *)
Definition item {V} (k : string) (d : dict V) : res V :=
  match get k d with Some v => Ok v | None => Raise KeyError end.

(** [d.get(k, default)]. *)
Definition get_default {V} (k : string) (default : V) (d : dict V) : V :=
  match get k d with Some v => v | None => default end.

(** [sum(xs)] over Python floats. *)
Definition sum (xs : list Q) : Q := fold_left Qplus xs 0.

(** [a / b] over Python floats. *)
Definition div (a b : Q) : res Q :=
  if Qeq_bool b 0 then Raise ZeroDivisionError else Ok (a / b).

End Py.

Notation "x <- e ;; k" := (Py.bind e (fun x => k))
  (at level 61, e at next level, right associativity).

(** ** NumPy: floats with NaN, rounding *)

Module Np.

Inductive float : Set :=
| Fin (q : Q)
| NaN.

Definition isnan (x : float) : bool :=
  match x with NaN => true | Fin _ => false end.

Definition lift2 (op : Q -> Q -> Q) (x y : float) : float :=
  match x, y with
  | Fin a, Fin b => Fin (op a b)
  | _, _ => NaN
  end.

Definition add := lift2 Qplus.
Definition sub := lift2 Qminus.
Definition mul := lift2 Qmult.
(** Every call site guards the divisor; NaN stands in for the unused
    quotient by zero. *)
Definition div (x y : float) : float :=
  match x, y with
  | Fin a, Fin b => if Qeq_bool b 0 then NaN else Fin (a / b)
  | _, _ => NaN
  end.

(** [x == y] on floats: false as soon as one side is NaN. *)
Definition eqb (x y : float) : bool :=
  match x, y with
  | Fin a, Fin b => Qeq_bool a b
  | _, _ => false
  end.

(** Round half to even, to the nearest integer. *)
Definition rint (x : Q) : Z :=
  let f := Qfloor x in
  match Qcompare (x - inject_Z f) (1 # 2) with
  | Lt => f
  | Gt => (f + 1)%Z
  | Eq => if Z.even f then f else (f + 1)%Z
  end.

Definition pow10 (d : nat) : Q := inject_Z (10 ^ Z.of_nat d).

(** [np.round(x, d)]. *)
Definition round (d : nat) (x : float) : float :=
  match x with
  | Fin q => Fin (inject_Z (rint (q * pow10 d)) / pow10 d)
  | NaN => NaN
  end.

End Np.

Import Np(float, Fin, NaN).
Import Py(res, Ok, Raise).

(** Equality of floats up to the representation of the rational. *)
Definition feq (x y : float) : Prop :=
  match x, y with
  | Fin a, Fin b => a == b
  | NaN, NaN => True
  | _, _ => False
  end.

(** What the pipeline takes from the Python runtime as it is. *)
Class Runtime : Type := {
  (** [str(x)] for a finite float [x] *)
  py_str_float : Q -> string;
  (** [float(s)] for a string [s]; [None] when it raises [ValueError] *)
  py_float_str : string -> option float;
  (** the square root behind [Series.std] *)
  np_sqrt : Q -> Q
}.

(** What the code relies on about the square root. *)
Class SqrtLaws (rt : Runtime) : Prop := {
  np_sqrt_0 : forall v, v == 0 -> np_sqrt v == 0;
  np_sqrt_pos : forall v, 0 < v -> 0 < np_sqrt v
}.

(** ** pandas: cells, series, frames *)

Module Pd.

(** One cell of a column. *)
Inductive cell : Type :=
| Num (x : float)
| Str (s : string)
| Null.

Definition Series : Type := list cell.

(** A frame: the length of its index [0 .. nrows-1] and its named columns. *)
Record DataFrame : Type := {
  nrows : nat;
  columns : Py.dict Series
}.

Definition index (df : DataFrame) : list nat := seq 0 (nrows df).

(** [pd.isna(x)], and [Series.isnull] cell by cell. *)
Definition isnull (c : cell) : bool :=
  match c with
  | Null => true
  | Num x => Np.isnan x
  | Str _ => false
  end.

(** [str(x)] *)
Definition str `{Runtime} (c : cell) : string :=
  match c with
  | Str s => s
  | Null => "None"
  | Num NaN => "nan"
  | Num (Fin q) => py_str_float q
  end.

Definition float_of_cell `{Runtime} (c : cell) : res float :=
  match c with
  | Num x => Ok x
  | Null => Ok NaN
  | Str s =>
      match py_float_str s with
      | Some x => Ok x
      | None => Raise Py.ValueError
      end
  end.

(** [series.astype(float)] *)
Definition astype_float `{Runtime} (s : Series) : res (list float) :=
  Py.mapM float_of_cell s.

(** [pd.Series(v, index=s.index)] *)
Definition full {A} (v : float) (s : list A) : list float :=
  repeat v (List.length s).

(** The values a reduction keeps: pandas reductions skip NaN. *)
Fixpoint valid (s : list float) : list Q :=
  match s with
  | [] => []
  | Fin q :: t => q :: valid t
  | NaN :: t => valid t
  end.

Definition Qlist_min (x : Q) (l : list Q) : Q :=
  fold_left (fun m y => if Qle_bool y m then y else m) l x.

Definition Qlist_max (x : Q) (l : list Q) : Q :=
  fold_left (fun m y => if Qle_bool m y then y else m) l x.

(** [s.min()] and [s.max()]: NaN when nothing is left after skipping NaN. *)
Definition min (s : list float) : float :=
  match valid s with
  | [] => NaN
  | x :: t => Fin (Qlist_min x t)
  end.

Definition max (s : list float) : float :=
  match valid s with
  | [] => NaN
  | x :: t => Fin (Qlist_max x t)
  end.

Definition count (s : list float) : Q :=
  inject_Z (Z.of_nat (List.length (valid s))).

(** [s.mean()] *)
Definition mean (s : list float) : float :=
  match valid s with
  | [] => NaN
  | v => Fin (Py.sum v / count s)
  end.

(** [s.var()], with the default [ddof=1]: undefined on fewer than two
    values. *)
Definition var (s : list float) : float :=
  let v := valid s in
  if (List.length v <=? 1)%nat then NaN
  else
    let avg := Py.sum v / count s in
    Fin (Py.sum (map (fun x => (avg - x) * (avg - x)) v) / (count s - 1)).

(** [s.std()] *)
Definition std `{Runtime} (s : list float) : float :=
  match var s with
  | Fin v => Fin (np_sqrt v)
  | NaN => NaN
  end.

(** [s.loc[i]] on the default index. *)
Definition loc {A} (s : list A) (i : nat) : res A :=
  match nth_error s i with
  | Some x => Ok x
  | None => Raise Py.KeyError
  end.

(** [name in df.columns] and [df[name]]. *)
Definition has_column (name : string) (df : DataFrame) : bool :=
  Py.mem name (columns df).

Definition getitem (df : DataFrame) (name : string) : res Series :=
  Py.item name (columns df).

(** [df[name] = values] *)
Definition setitem (df : DataFrame) (name : string) (values : list float)
  : DataFrame :=
  {| nrows := nrows df; columns := Py.set name (map Num values) (columns df) |}.

End Pd.

Import Pd(cell, Num, Str, Null, Series, DataFrame).

(** ** The store: frames are objects, passed by reference *)

Module Store.

Definition ref : Type := nat.
Definition store : Type := list DataFrame.

(** A computation on the store; the store survives a raised exception. *)
Definition M (A : Type) : Type := store -> res A * store.

Definition ret {A} (a : A) : M A := fun h => (Ok a, h).

Definition bind {A B} (m : M A) (k : A -> M B) : M B :=
  fun h =>
    match m h with
    | (Ok a, h') => k a h'
    | (Raise e, h') => (Raise e, h')
    end.

Definition lift {A} (r : res A) : M A := fun h => (r, h).

(** Dereference. *)
Definition read (r : ref) : M DataFrame :=
  fun h =>
    match nth_error h r with
    | Some df => (Ok df, h)
    | None => (Raise Py.KeyError, h)
    end.

(** [df.copy()]: a new object with the same contents. *)
Definition copy (r : ref) : M ref :=
  fun h =>
    match nth_error h r with
    | Some df => (Ok (List.length h), h ++ [df])
    | None => (Raise Py.KeyError, h)
    end.

Fixpoint update (h : store) (r : ref) (df : DataFrame) : store :=
  match h, r with
  | [], _ => []
  | _ :: t, O => df :: t
  | x :: t, S r' => x :: update t r' df
  end.

(** [df[name] = values], in place. *)
Definition setitem (r : ref) (name : string) (values : list float) : M unit :=
  fun h =>
    match nth_error h r with
    | Some df => (Ok tt, update h r (Pd.setitem df name values))
    | None => (Raise Py.KeyError, h)
    end.

End Store.

Import Store(ref, store, M).

Notation "x <~ e ;; k" := (Store.bind e (fun x => k))
  (at level 61, e at next level, right associativity).

(** ** himcm/core.py *)

Module Core.

Section WithRuntime.
Context {rt : Runtime}.

(** [_minmax_normalize(series, higher_is_better)] *)
Definition _minmax_normalize (series : Series) (higher_is_better : bool)
  : res (list float) :=
  if forallb Pd.isnull series then Ok (Pd.full (Fin 50) series)
  else
    s <- Pd.astype_float series ;;
    let mn := Pd.min s in
    let mx := Pd.max s in
    if Np.isnan mn || Np.isnan mx || Np.eqb mx mn then Ok (Pd.full (Fin 50) s)
    else
      let norm :=
        map (fun v => Np.mul (Np.div (Np.sub v mn) (Np.sub mx mn)) (Fin 100)) s
      in
      Ok (if higher_is_better then norm else map (Np.sub (Fin 100)) norm).

(** The [default_weights] of [compute_env_condition_metric]. *)
Definition env_default_weights : Py.dict Q :=
  [("energy", 4 # 10); ("water", 2 # 10); ("air", 2 # 10); ("carbon", 2 # 10)].

(** The column lists of [compute_env_condition_metric]. *)
Definition water_cols (df : DataFrame) : list string :=
  filter (fun c => Py.startswith (Py.lower c) "water") (Py.keys (Pd.columns df)).

Definition air_cols (df : DataFrame) : list string :=
  filter (fun c => Py.contains "air" (Py.lower c)
                   || Py.contains "pm2" (Py.lower c)
                   || Py.contains "pm10" (Py.lower c))
         (Py.keys (Pd.columns df)).

Definition carbon_cols (df : DataFrame) : list string :=
  filter (fun c => Py.contains "carbon" (Py.lower c)
                   || Py.contains "emissions" (Py.lower c))
         (Py.keys (Pd.columns df)).

(** [_minmax_normalize(df[name], higher_is_better=hib).loc[row]] *)
Definition normalized_at (df : DataFrame) (name : string) (hib : bool)
  (row : nat) : res float :=
  col <- Pd.getitem df name ;;
  norm <- _minmax_normalize col hib ;;
  Pd.loc norm row.

(** The [components] dictionary that [compute_env_condition_metric]
    collects for the row named [row]. *)
Definition env_components (df : DataFrame) (row : nat)
  : res (Py.dict float) :=
  let components := [] in
  components <-
    (if Pd.has_column "Renewable_Energy_Pct" df then
       v <- normalized_at df "Renewable_Energy_Pct" true row ;;
       Ok (Py.set "energy" v components)
     else Ok components) ;;
  components <-
    (match water_cols df with
     | wc :: _ =>
         v <- normalized_at df wc true row ;;
         Ok (Py.set "water" v components)
     | [] => Ok components
     end) ;;
  components <-
    (match air_cols df with
     | ac :: _ =>
         v <- normalized_at df ac false row ;;
         Ok (Py.set "air" v components)
     | [] => Ok components
     end) ;;
  components <-
    (match carbon_cols df with
     | cc :: _ =>
         v <- normalized_at df cc false row ;;
         Ok (Py.set "carbon" v components)
     | [] => Ok components
     end) ;;
  Ok components.

(** The loop [for k in present: w = weights[k] / total_w; score += ...]. *)
Fixpoint env_score_loop (weights : Py.dict Q) (components : Py.dict float)
  (total_w : Q) (present : list string) (score : float) : res float :=
  match present with
  | [] => Ok score
  | k :: rest =>
      wk <- Py.item k weights ;;
      w <- Py.div wk total_w ;;
      c <- Py.item k components ;;
      env_score_loop weights components total_w rest
        (Np.add score (Np.mul c (Fin w)))
  end.

(** The second half of [compute_env_condition_metric]: from the collected
    components to the returned score. *)
Definition env_score (weights : Py.dict Q) (components : Py.dict float)
  : res float :=
  let present := filter (fun k => Py.mem k components) (Py.keys weights) in
  match present with
  | [] => Ok (Fin 50)
  | _ :: _ =>
      ws <- Py.mapM (fun k => Py.item k weights) present ;;
      let total_w := Py.sum ws in
      score <- env_score_loop weights components total_w present (Fin 0) ;;
      Ok (Np.round 2 score)
  end.

(** [compute_env_condition_metric(df, row, env_component_weights)]; [row]
    is the index label [row.name], the only part of the row the code
    reads. *)
Definition compute_env_condition_metric (df : DataFrame) (row : nat)
  (env_component_weights : option (Py.dict Q)) : res float :=
  let weights :=
    match env_component_weights with
    | None => env_default_weights
    | Some w => w
    end in
  components <- env_components df row ;;
  env_score weights components.

(** The two loops of [_map_with_rubric]. *)
Fixpoint exact_match (s : string) (items : Py.dict Q) : option Q :=
  match items with
  | [] => None
  | (k, v) :: rest =>
      if String.eqb k "default" then exact_match s rest
      else if String.eqb k s then Some v
      else exact_match s rest
  end.

Fixpoint substring_match (s : string) (items : Py.dict Q) : option Q :=
  match items with
  | [] => None
  | (k, v) :: rest =>
      if String.eqb k "default" then substring_match s rest
      else if Py.contains k s then Some v
      else substring_match s rest
  end.

(** [_map_with_rubric(value, rubric_map)]; the result [None] is Python's
    [None]. *)
Definition _map_with_rubric (value : cell) (rubric_map : Py.dict Q)
  : option Q :=
  match rubric_map, value with
  | [], _ => None
  | _, Null => None
  | _, Num NaN => None
  | _, _ =>
      let s := Py.lower (Pd.str value) in
      match exact_match s rubric_map with
      | Some v => Some v
      | None =>
          match substring_match s rubric_map with
          | Some v => Some v
          | None =>
              if Py.mem "default" rubric_map
              then Py.get "default" rubric_map
              else None
          end
      end
  end.

(** The built-in [default_weights] of [calculate_sustainability_scores]. *)
Definition builtin_weights : Py.dict Q :=
  [("Times_Hosted", 5 # 100);
   ("Last_Hosted_Year", 2 # 100);
   ("Stadium_Type", 8 # 100);
   ("Stadium_leed_cert", 5 # 100);
   ("Waste_Management", 3 # 100);
   ("Future_Developments", 3 # 100);
   ("Avg_Feb_Temp_F", 5 # 100);
   ("Alltransit_Score", 15 # 100);
   ("Renewable_Energy_Pct", 10 # 100);
   ("Waste_Diversion_Pct", 10 # 100);
   ("Green_Legacy_Projects", 10 # 100);
   ("Carbon_Offset_Programs", 5 # 100);
   ("Env_Conditions", 25 # 100)].

(** [if user_weights: for k, v in user_weights.items(): default_weights[k] = v] *)
Definition apply_user_weights (user_weights : option (Py.dict Q))
  (default_weights : Py.dict Q) : Py.dict Q :=
  match user_weights with
  | None => default_weights
  | Some items =>
      fold_left (fun d kv => Py.set (fst kv) (snd kv) d) items default_weights
  end.

(** The weights before normalization: user override, then the forced
    environment entry. *)
Definition overridden_weights (user_weights : option (Py.dict Q))
  (env_overall_weight : Q) : Py.dict Q :=
  let default_weights := builtin_weights in
  let default_weights := apply_user_weights user_weights default_weights in
  Py.set "Env_Conditions" env_overall_weight default_weights.

(** [for k in default_weights: default_weights[k] = default_weights[k] / total] *)
Fixpoint normalize_loop (total : Q) (ks : list string)
  (default_weights : Py.dict Q) : res (Py.dict Q) :=
  match ks with
  | [] => Ok default_weights
  | k :: rest =>
      v <- Py.item k default_weights ;;
      q <- Py.div v total ;;
      normalize_loop total rest (Py.set k q default_weights)
  end.

(** Lines 150-179 of [calculate_sustainability_scores]: the weight vector
    the scores are assembled with. *)
Definition scoring_weights (user_weights : option (Py.dict Q))
  (env_overall_weight : Q) : res (Py.dict Q) :=
  let default_weights := overridden_weights user_weights env_overall_weight in
  let total := Py.sum (Py.values default_weights) in
  normalize_loop total (Py.keys default_weights) default_weights.

Definition col_map : list (string * (string * bool)) :=
  [("Times_Hosted", ("Times_Hosted", true));
   ("Last_Hosted_Year", ("Last_Hosted_Year", true));
   ("Avg_Feb_Temp_F", ("Avg_Feb_Temp_F", false));
   ("Alltransit_Score", ("Alltransit_Score", true));
   ("Renewable_Energy_Pct", ("Renewable_Energy_Pct", true));
   ("Waste_Diversion_Pct", ("Waste_Diversion_Pct", true));
   ("Green_Legacy_Projects", ("Green_Legacy_Projects", true));
   ("Carbon_Offset_Programs", ("Carbon_Offset_Programs", true))].

(** The loop that fills [norm_cols]. *)
Fixpoint normalize_columns (df : DataFrame)
  (items : list (string * (string * bool)))
  (norm_cols : Py.dict (list float)) : res (Py.dict (list float)) :=
  match items with
  | [] => Ok norm_cols
  | (key, (col, hi_better)) :: rest =>
      n <- (if Pd.has_column col df then
              c <- Pd.getitem df col ;;
              _minmax_normalize c hi_better
            else Ok (Pd.full (Fin 50) (Pd.index df))) ;;
      normalize_columns df rest (Py.set key n norm_cols)
  end.

(** [{k.lower(): v for k, v in rubric.get(field, {}).items()} if rubric else {}];
    [rubric] is what [_load_rubric] returned. *)
Definition field_rubric (rubric : Py.dict (Py.dict Q)) (field : string)
  : Py.dict Q :=
  match rubric with
  | [] => []
  | _ :: _ =>
      fold_left (fun d kv => Py.set (Py.lower (fst kv)) (snd kv) d)
                (Py.get_default field [] rubric) []
  end.

Definition _stad_map (stadium_rub : Py.dict Q) (v : cell) : float :=
  match _map_with_rubric v stadium_rub with
  | Some m => Fin m
  | None =>
      let s := Py.lower (Pd.str v) in
      if Py.str_in s ["dome"; "retractable roof"; "retractable"]
      then Fin 100 else Fin 50
  end.

Definition _map_leed (leed_rub : Py.dict Q) (x : cell) : float :=
  match _map_with_rubric x leed_rub with
  | Some m => Fin m
  | None =>
      if Pd.isnull x then Fin 0
      else
        let s := Py.lower (Pd.str x) in
        if Py.contains "platinum" s then Fin 100
        else if Py.contains "gold" s then Fin 80
        else if Py.contains "silver" s then Fin 60
        else if Py.contains "certified" s then Fin 50
        else Fin 30
  end.

Definition _map_waste (waste_rub : Py.dict Q) (x : cell) : float :=
  match _map_with_rubric x waste_rub with
  | Some m => Fin m
  | None => Fin 50
  end.

Definition _map_future (future_rub : Py.dict Q) (x : cell) : float :=
  match _map_with_rubric x future_rub with
  | Some m => Fin m
  | None => Fin 50
  end.

(** [df[field].apply(f)] if the column is there, else
    [pd.Series(50, index=df.index)]. *)
Definition categorical_scores (df : DataFrame) (field : string)
  (f : cell -> float) : res (list float) :=
  if Pd.has_column field df then
    c <- Pd.getitem df field ;;
    Ok (map f c)
  else Ok (Pd.full (Fin 50) (Pd.index df)).

(** [s += default_weights.get(key, 0) * scores.loc[idx]] *)
Definition weighted_add (default_weights : Py.dict Q) (key : string)
  (scores : list float) (idx : nat) (s : float) : res float :=
  x <- Pd.loc scores idx ;;
  Ok (Np.add s (Np.mul (Fin (Py.get_default key 0 default_weights)) x)).

Definition numeric_keys : list string :=
  ["Times_Hosted"; "Last_Hosted_Year"; "Avg_Feb_Temp_F"; "Alltransit_Score";
   "Renewable_Energy_Pct"; "Waste_Diversion_Pct"; "Green_Legacy_Projects";
   "Carbon_Offset_Programs"].

Fixpoint numeric_loop (default_weights : Py.dict Q)
  (norm_cols : Py.dict (list float)) (ks : list string) (idx : nat)
  (s : float) : res float :=
  match ks with
  | [] => Ok s
  | key :: rest =>
      col <- Py.item key norm_cols ;;
      s <- weighted_add default_weights key col idx s ;;
      numeric_loop default_weights norm_cols rest idx s
  end.

(** The body of [for idx in df.index], up to [raw_scores.append(s)]. *)
Definition raw_score (default_weights : Py.dict Q)
  (stadium_scores leed_scores waste_scores future_scores : list float)
  (norm_cols : Py.dict (list float)) (env_conditions : list float)
  (idx : nat) : res float :=
  let s := Fin 0 in
  s <- weighted_add default_weights "Stadium_Type" stadium_scores idx s ;;
  s <- weighted_add default_weights "Stadium_leed_cert" leed_scores idx s ;;
  s <- weighted_add default_weights "Waste_Management" waste_scores idx s ;;
  s <- weighted_add default_weights "Future_Developments" future_scores idx s ;;
  s <- numeric_loop default_weights norm_cols numeric_keys idx s ;;
  s <- weighted_add default_weights "Env_Conditions" env_conditions idx s ;;
  Ok s.

(** Lines 184-288: from the frame that holds [Env_Conditions] to the list
    [raw_scores].  Nothing is assigned to the frame on the way. *)
Definition assemble_raw_scores (df : DataFrame) (default_weights : Py.dict Q)
  (rubric : Py.dict (Py.dict Q)) (env_conditions : list float)
  : res (list float) :=
  norm_cols <- normalize_columns df col_map [] ;;
  stadium_scores <-
    categorical_scores df "Stadium_Type"
      (_stad_map (field_rubric rubric "Stadium_Type")) ;;
  leed_scores <-
    categorical_scores df "Stadium_leed_cert"
      (_map_leed (field_rubric rubric "Stadium_leed_cert")) ;;
  waste_scores <-
    categorical_scores df "Waste_Management"
      (_map_waste (field_rubric rubric "Waste_Management")) ;;
  future_scores <-
    categorical_scores df "Future_Developments"
      (_map_future (field_rubric rubric "Future_Developments")) ;;
  Py.mapM (raw_score default_weights stadium_scores leed_scores
             waste_scores future_scores norm_cols env_conditions)
          (Pd.index df).

(** Lines 292-298: the z-scores of the [Raw_Score] column.  Mean and
    deviation are exact here, so the guard holds on every column of equal
    scores; [F64.z_scores] below decides it as the doubles do. *)
Definition z_scores (raw : list float) : list float :=
  let mean := Pd.mean raw in
  let std := Pd.std raw in
  if Np.eqb std (Fin 0) || Np.isnan std then Pd.full (Fin 0) raw
  else map (fun x => Np.div (Np.sub x mean) std) raw.

(** Line 301. *)
Definition z_scaled (z : list float) : list float :=
  map (fun x => Np.add (Np.mul x (Fin 10)) (Fin 50)) z.

(** [calculate_sustainability_scores(df, user_weights, env_component_weights,
    env_overall_weight, rubric_path)].  The argument [df] is a reference;
    [rubric] stands for [_load_rubric(rubric_path)].  Columns the function
    has just assigned are read from the value assigned. *)
Definition calculate_sustainability_scores (df : ref)
  (user_weights : option (Py.dict Q))
  (env_component_weights : option (Py.dict Q))
  (env_overall_weight : Q) (rubric : Py.dict (Py.dict Q)) : M ref :=
  df <~ Store.copy df ;;
  default_weights <~
    Store.lift (scoring_weights user_weights env_overall_weight) ;;
  fr <~ Store.read df ;;
  env_conditions <~
    Store.lift
      (Py.mapM (fun r => compute_env_condition_metric fr r env_component_weights)
               (Pd.index fr)) ;;
  _ <~ Store.setitem df "Env_Conditions" env_conditions ;;
  fr <~ Store.read df ;;
  raw_scores <~
    Store.lift (assemble_raw_scores fr default_weights rubric env_conditions) ;;
  let raw := map (Np.round 3) raw_scores in
  _ <~ Store.setitem df "Raw_Score" raw ;;
  let z := z_scores raw in
  _ <~ Store.setitem df "Sustainability_Z" z ;;
  _ <~ Store.setitem df "Sustainability_Z_Scaled" (z_scaled z) ;;
  Store.ret df.

(** [base_override] of [expand_model_for_multisport]. *)
Definition base_override : Py.dict Q :=
  [("Green_Legacy_Projects", 20 # 100);
   ("Alltransit_Score", 25 # 100);
   ("Renewable_Energy_Pct", 25 # 100);
   ("Env_Conditions", 20 # 100)].

(** [if extra_weights: base_override.update(extra_weights)] *)
Definition multisport_override (extra_weights : option (Py.dict Q))
  : Py.dict Q :=
  match extra_weights with
  | None => base_override
  | Some extra =>
      fold_left (fun d kv => Py.set (fst kv) (snd kv) d) extra base_override
  end.

(** Lines 423-432 of [expand_model_for_multisport]: the frame
    [multisport_df].  The function goes on to sort and print it, which is
    not embedded. *)
Definition multisport_scores (df : ref) (extra_weights : option (Py.dict Q))
  (rubric : Py.dict (Py.dict Q)) : M ref :=
  calculate_sustainability_scores df
    (Some (multisport_override extra_weights)) None (25 # 100) rubric.

End WithRuntime.

(** [Series.isin(values)] for a list of strings. *)
Definition isin (s : Series) (values : list string) : list bool :=
  map (fun c => match c with
                | Str x => Py.str_in x values
                | _ => false
                end) s.

(** The city lists of [analyze_previous_hosts] and [analyze_new_hosts]. *)
Definition previous_hosts : list string :=
  ["Inglewood"; "Glendale"; "Las Vegas"; "New Orleans"; "Santa Clara";
   "Atlanta"].

Definition previous_host_cities : list string :=
  ["New Orleans"; "Miami"; "Los Angeles"; "Tampa"; "Phoenix"; "Glendale";
   "Atlanta"; "Houston"; "San Diego"; "Santa Clara"; "Inglewood";
   "Las Vegas"].

(** [df['City'].isin(previous_hosts)], the row selection of
    [analyze_previous_hosts]. *)
Definition previous_hosts_mask (df : DataFrame) : res (list bool) :=
  city <- Pd.getitem df "City" ;;
  Ok (isin city previous_hosts).

(** [~df['City'].isin(previous_host_cities)], the row selection of
    [analyze_new_hosts]. *)
Definition new_hosts_mask (df : DataFrame) : res (list bool) :=
  city <- Pd.getitem df "City" ;;
  Ok (map negb (isin city previous_host_cities)).

End Core.

(** ** A runtime to evaluate with *)

Module EvalRuntime.

(** [float(s)] on integer literals and ["nan"]. *)
Definition float_of_str (s : string) : option float :=
  if String.eqb (Py.lower s) "nan" then Some NaN
  else if String.eqb s "" then None
  else
    match NilZero.int_of_string s with
    | Some i => Some (Fin (inject_Z (Z.of_int i)))
    | None => None
    end.

(** The digits of [r * 10^-1, r * 10^-2, ...] for [0 <= r < 1], at most
    [n] of them, without trailing zeros. *)
Fixpoint frac_digits (n : nat) (r : Q) : string :=
  match n with
  | O => ""
  | S n' =>
      if Qeq_bool r 0 then ""
      else
        let d := Qfloor (r * 10) in
        NilZero.string_of_uint (N.to_uint (Z.to_N d))
        ++ frac_digits n' (r * 10 - inject_Z d)
  end.

(** [str(x)] in positional notation, to 16 fractional digits. *)
Definition str_of_float (q : Q) : string :=
  let a := Qabs q in
  let i := Qfloor a in
  let f := frac_digits 16 (a - inject_Z i) in
  ((if Qle_bool 0 q then "" else "-")
   ++ NilZero.string_of_uint (N.to_uint (Z.to_N i)) ++ "."
   ++ (if String.eqb f "" then "0" else f))%string.

(** The square root to 52 binary digits, exact on squares of such
    numbers. *)
Definition sqrt (v : Q) : Q :=
  let d := Zpos (Qden v) in
  inject_Z (Z.sqrt (Qnum v * d * 4 ^ 52)) / inject_Z (d * 2 ^ 52).

#[export] Instance runtime : Runtime := {|
  py_str_float := str_of_float;
  py_float_str := float_of_str;
  np_sqrt := sqrt
|}.

End EvalRuntime.

(** ** Frames and weights to evaluate at *)

Module Examples.

(** [make_sample_df()] of [tests/test_core.py]. *)
Definition make_sample_df : DataFrame := {|
  Pd.nrows := 3;
  Pd.columns :=
    [("City", [Str "A"; Str "B"; Str "C"]);
     ("Times_Hosted", [Num (Fin 1); Num (Fin 0); Num (Fin 2)]);
     ("Last_Hosted_Year", [Num (Fin 2010); Num (Fin 0); Num (Fin 2022)]);
     ("Stadium_Type", [Str "Dome"; Str "Open"; Str "Retractable"]);
     ("Avg_Feb_Temp_F", [Num (Fin 40); Num (Fin 55); Num (Fin 35)]);
     ("Alltransit_Score", [Num (Fin 80); Num (Fin 60); Num (Fin 90)]);
     ("Renewable_Energy_Pct", [Num (Fin 60); Num (Fin 20); Num (Fin 80)]);
     ("Waste_Diversion_Pct", [Num (Fin 50); Num (Fin 30); Num (Fin 70)]);
     ("Green_Legacy_Projects", [Num (Fin 2); Num (Fin 0); Num (Fin 5)]);
     ("Carbon_Offset_Programs", [Num (Fin 1); Num (Fin 0); Num (Fin 3)]);
     ("Stadium_leed_cert", [Str "Gold"; Str "Certified"; Str "Platinum"]);
     ("Water_Score", [Num (Fin 70); Num (Fin 50); Num (Fin 80)]);
     ("Air_ug_m3", [Num (Fin 12); Num (Fin 25); Num (Fin 8)]);
     ("Carbon_Emissions",
      [Num (Fin (25 # 10)); Num (Fin 5); Num (Fin (12 # 10))])]
|}.

(** [pd.DataFrame([{'City': 'X'}])] of [test_missing_columns_behavior]. *)
Definition one_city_df : DataFrame := {|
  Pd.nrows := 1;
  Pd.columns := [("City", [Str "X"])]
|}.

(** The renewable share under a lowercase column name. *)
Definition lowercase_energy_df : DataFrame := {|
  Pd.nrows := 2;
  Pd.columns :=
    [("City", [Str "A"; Str "B"]);
     ("renewable_energy_pct", [Num (Fin 10); Num (Fin 20)])]
|}.

(** Three cities, the hosting count of the second one unknown. *)
Definition partly_missing_df : DataFrame := {|
  Pd.nrows := 3;
  Pd.columns :=
    [("City", [Str "A"; Str "B"; Str "C"]);
     ("Times_Hosted", [Num (Fin 1); Num NaN; Num (Fin 3)])]
|}.

(** A user map that sets every built-in weight to zero. *)
Definition zero_weights : Py.dict Q :=
  [("Times_Hosted", 0); ("Last_Hosted_Year", 0); ("Stadium_Type", 0);
   ("Stadium_leed_cert", 0); ("Waste_Management", 0);
   ("Future_Developments", 0); ("Avg_Feb_Temp_F", 0);
   ("Alltransit_Score", 0); ("Renewable_Energy_Pct", 0);
   ("Waste_Diversion_Pct", 0); ("Green_Legacy_Projects", 0);
   ("Carbon_Offset_Programs", 0)].

(** Subweights for two of the four components. *)
Definition energy_water_weights : Py.dict Q :=
  [("energy", 1 # 2); ("water", 1 # 2)].

(** Three cities whose only scored column, the stadium type, has the same
    value in every row. *)
Definition equal_domes_df : DataFrame := {|
  Pd.nrows := 3;
  Pd.columns :=
    [("City", [Str "A"; Str "B"; Str "C"]);
     ("Stadium_Type", [Str "Dome"; Str "Dome"; Str "Dome"])]
|}.

End Examples.

(** ** The wording of the specification, for comparison with the code *)

Module Spec.

Section WithRuntime.
Context {rt : Runtime}.

(** The resolution order of the rubric mapper as the specification words
    it; [default] is the reserved key and no label. *)
Definition rubric_resolution (value : cell) (rubric_map : Py.dict Q)
  : option Q :=
  match rubric_map with
  | [] => None
  | _ :: _ =>
      if Pd.isnull value then None
      else
        let s := Py.lower (Pd.str value) in
        let label kv := negb (String.eqb (fst kv) "default") in
        match find (fun kv => label kv && String.eqb (fst kv) s) rubric_map with
        | Some kv => Some (snd kv)
        | None =>
            match
              find (fun kv => label kv && Py.contains (fst kv) s) rubric_map
            with
            | Some kv => Some (snd kv)
            | None => Py.get "default" rubric_map
            end
        end
  end.

End WithRuntime.

(** Detection of the energy component as the specification words it: some
    column name contains the renewable-energy-percentage name, whatever the
    case. *)
Definition energy_detected (df : DataFrame) : bool :=
  existsb (fun c => Py.contains "renewable_energy_pct" (Py.lower c))
          (Py.keys (Pd.columns df)).

(** The columns a call adds to the frame. *)
Definition added_columns : list string :=
  ["Env_Conditions"; "Raw_Score"; "Sustainability_Z";
   "Sustainability_Z_Scaled"].

(** A weight vector with every entry divided by [total]. *)
Definition scaled (total : Q) (d : Py.dict Q) : Py.dict Q :=
  map (fun kv => (fst kv, snd kv / total)) d.

End Spec.

(** ** Notions the further properties are stated with *)

Module Notions.

Import Core.

(** The image of a non-missing value under min-max scaling. *)
Definition scaled_value (mn mx : Q) (higher_is_better : bool) (v : float)
  : float :=
  let n := Np.mul (Np.div (Np.sub v (Fin mn)) (Np.sub (Fin mx) (Fin mn)))
                  (Fin 100) in
  if higher_is_better then n else Np.sub (Fin 100) n.

(** [a * x + b] on a column of floats. *)
Definition affine (a b : Q) (x : float) : float :=
  match x with
  | Fin q => Fin (a * q + b)
  | NaN => NaN
  end.

(** The last value bound to [k] in a list of items. *)
Definition last_binding {V} (k : string) (items : Py.dict V) : option V :=
  Py.get k (rev items).

(** A user map without its entries for [k]. *)
Definition without {V} (k : string) (items : Py.dict V) : Py.dict V :=
  filter (fun kv => negb (String.eqb (fst kv) k)) items.

(** Two frames that differ at most in the columns a call adds: the same
    rows, the same lookups of every other name, and the same selection of
    column names by any test that rejects the added names. *)
Definition agree (a b : DataFrame) : Prop :=
  Pd.nrows a = Pd.nrows b
  /\ (forall name, ~ In name Spec.added_columns ->
        Py.get name (Pd.columns a) = Py.get name (Pd.columns b))
  /\ (forall p : string -> bool,
        (forall name, In name Spec.added_columns -> p name = false) ->
        filter p (Py.keys (Pd.columns a)) = filter p (Py.keys (Pd.columns b))).

(** The column names the scores are read from by name. *)
Definition scored_names : list string :=
  numeric_keys
  ++ ["Stadium_Type"; "Stadium_leed_cert"; "Waste_Management";
      "Future_Developments"].

(** A frame none of whose columns the pipeline recognizes. *)
Definition unrecognized (df : DataFrame) : Prop :=
  (forall name, In name scored_names -> Pd.has_column name df = false)
  /\ water_cols df = [] /\ air_cols df = [] /\ carbon_cols df = [].

(** Every number of a column or of a dictionary of columns lies in
    [0,100]. *)
Definition in_range (col : list float) : Prop :=
  forall i o, nth_error col i = Some (Fin o) -> 0 <= o <= 100.

(** The thirteen keys [raw_score] reads weights for. *)
Definition weighted_keys : list string :=
  ["Stadium_Type"; "Stadium_leed_cert"; "Waste_Management";
   "Future_Developments"]
  ++ numeric_keys ++ ["Env_Conditions"].

(** Every score of a rubric lies in [0,100]. *)
Definition rubric_in_range (rubric : Py.dict (Py.dict Q)) : Prop :=
  forall field table k q,
    In (field, table) rubric -> In (k, q) table -> 0 <= q <= 100.

(** A column without NaN. *)
Definition no_nan (col : list float) : Prop :=
  forall x, In x col -> exists q, x = Fin q.

Section WithRuntime.
Context {rt : Runtime}.

(** The three ways a call of [_minmax_normalize] ends. *)
Inductive normalize_outcome (series : Series) (hib : bool)
  : res (list float) -> Prop :=
| Flat :
    normalize_outcome series hib (Ok (repeat (Fin 50) (List.length series)))
| Spread s mn mx :
    Pd.astype_float series = Ok s ->
    Pd.min s = Fin mn -> Pd.max s = Fin mx -> mn < mx ->
    (forall v, In v (Pd.valid s) -> mn <= v <= mx) ->
    normalize_outcome series hib (Ok (map (scaled_value mn mx hib) s))
| Rejected :
    forallb Pd.isnull series = false ->
    Pd.astype_float series = Raise Py.ValueError ->
    normalize_outcome series hib (Raise Py.ValueError).

(** A column every cell of which reads as a number. *)
Definition complete (col : Series) : Prop :=
  forall c, In c col -> exists q, Pd.float_of_cell c = Ok (Fin q).

(** The columns the pipeline normalizes: the eight numeric attributes and
    the first column found for water, air and carbon. *)
Definition numeric_input (df : DataFrame) (name : string) : Prop :=
  In name numeric_keys
  \/ hd_error (water_cols df) = Some name
  \/ hd_error (air_cols df) = Some name
  \/ hd_error (carbon_cols df) = Some name.

End WithRuntime.

End Notions.

(** ** The standardizer in binary64

    Lines 290-301 once more, over IEEE-754 doubles instead of exact
    rationals: the one place of the pipeline where a comparison, the guard
    [std == 0], is decided by rounding.  [Series.mean] and [Series.std] are
    pandas' [nanmean] and [nanvar] with [ddof=1]: missing values count as 0
    in the sums and are left out of the count, the mean is the sum over the
    count, the variance is the sum of the squares of [avg - x] over the
    count less one, and both are undefined when the count does not exceed
    [ddof].  A sum is the running sum NumPy takes over a short array (arrays
    of more than eight elements are added in blocks, which [sum] does not
    follow). *)

Module F64.

Definition float64 : Set := PrimFloat.float.

(** The double of an integer; exact below [2^53]. *)
Fixpoint of_pos (p : positive) : float64 :=
  match p with
  | xH => PrimFloat.one
  | xO p' => PrimFloat.mul PrimFloat.two (of_pos p')
  | xI p' => PrimFloat.add (PrimFloat.mul PrimFloat.two (of_pos p'))
                           PrimFloat.one
  end.

Definition of_Z (z : Z) : float64 :=
  match z with
  | Z0 => PrimFloat.zero
  | Zpos p => of_pos p
  | Zneg p => PrimFloat.opp (of_pos p)
  end.

Definition of_nat (n : nat) : float64 := of_Z (Z.of_nat n).

(** The double of a quotient of two integers below [2^53]: the division is
    rounded once.  For [n # 1000] this is what [np.round(x, 3)] stores,
    [np.rint(x * 1000) / 1000]. *)
Definition of_Q (q : Q) : float64 :=
  PrimFloat.div (of_Z (Qnum q)) (of_pos (Qden q)).

Definition of_float (x : float) : float64 :=
  match x with
  | Fin q => of_Q q
  | NaN => PrimFloat.nan
  end.

(** [s.count()] *)
Definition count (s : list float64) : nat :=
  List.length (filter (fun x => negb (PrimFloat.is_nan x)) s).

Definition sum (a : list float64) : float64 :=
  fold_left PrimFloat.add a PrimFloat.zero.

(** The values with 0 for the missing ones, as [nanmean] and [nanvar] sum
    them. *)
Definition fill_zero (s : list float64) : list float64 :=
  map (fun x => if PrimFloat.is_nan x then PrimFloat.zero else x) s.

(** [s.mean()] *)
Definition mean (s : list float64) : float64 :=
  if (count s =? 0)%nat then PrimFloat.nan
  else PrimFloat.div (sum (fill_zero s)) (of_nat (count s)).

(** [s.var()], [ddof=1] *)
Definition var (s : list float64) : float64 :=
  let n := count s in
  if (n <=? 1)%nat then PrimFloat.nan
  else
    let avg := PrimFloat.div (sum (fill_zero s)) (of_nat n) in
    let sqr :=
      map (fun x => if PrimFloat.is_nan x then PrimFloat.zero
                    else PrimFloat.mul (PrimFloat.sub avg x)
                                       (PrimFloat.sub avg x)) s in
    PrimFloat.div (sum sqr) (of_nat (n - 1)).

(** [s.std()] *)
Definition std (s : list float64) : float64 := PrimFloat.sqrt (var s).

(** Lines 292-298. *)
Definition z_scores (raw : list float64) : list float64 :=
  let mean := mean raw in
  let std := std raw in
  if PrimFloat.eqb std PrimFloat.zero || PrimFloat.is_nan std
  then map (fun _ => PrimFloat.zero) raw
  else map (fun x => PrimFloat.div (PrimFloat.sub x mean) std) raw.

(** Line 301. *)
Definition z_scaled (z : list float64) : list float64 :=
  map (fun x => PrimFloat.add (PrimFloat.mul x (of_Z 10)) (of_Z 50)) z.

End F64.

(** * Properties *)

Import Core.

(** ** Strings *)

Lemma lower_ascii_idem (c : ascii) :
  Py.lower_ascii (Py.lower_ascii c) = Py.lower_ascii c.
Proof.
  destruct c as [[] [] [] [] [] [] [] []]; reflexivity.
Qed.

Lemma lower_idem (s : string) : Py.lower (Py.lower s) = Py.lower s.
Proof.
  induction s as [|c s IH]; simpl; [reflexivity|].
  now rewrite lower_ascii_idem, IH.
Qed.

(** ** The rubric mapper *)

Section Rubric.
Context {rt : Runtime}.

Lemma exact_match_find (s : string) (items : Py.dict Q) :
  exact_match s items =
  option_map snd
    (find (fun kv => negb (String.eqb (fst kv) "default")
                     && String.eqb (fst kv) s) items).
Proof.
  induction items as [|[k v] rest IH]; simpl; [reflexivity|].
  destruct (String.eqb k "default"); simpl; [exact IH|].
  destruct (String.eqb k s); simpl; [reflexivity|exact IH].
Qed.

Lemma substring_match_find (s : string) (items : Py.dict Q) :
  substring_match s items =
  option_map snd
    (find (fun kv => negb (String.eqb (fst kv) "default")
                     && Py.contains (fst kv) s) items).
Proof.
  induction items as [|[k v] rest IH]; simpl; [reflexivity|].
  destruct (String.eqb k "default"); simpl; [exact IH|].
  destruct (Py.contains k s); simpl; [reflexivity|exact IH].
Qed.

Lemma mem_get {V} (k : string) (d : Py.dict V) :
  (if Py.mem k d then Py.get k d else None) = Py.get k d.
Proof.
  unfold Py.mem. now destruct (Py.get k d).
Qed.

(** C6.  [_map_with_rubric] resolves a value in the order the specification
    gives: no match on an empty rubric or a null/NaN value; else the first
    label equal to the lowercased text of the value; else the first label
    contained in it; else the rubric's [default] entry if there is one; else
    no match.  The reserved key [default] is no label in either search.  The
    case of the value does not matter, and the two examples of the
    specification evaluate to 80 and to 10. *)
Theorem map_with_rubric_resolution_order :
  (forall value rubric_map,
      _map_with_rubric value rubric_map
      = Spec.rubric_resolution value rubric_map)
  /\ (forall s rubric_map,
         _map_with_rubric (Str s) rubric_map
         = _map_with_rubric (Str (Py.lower s)) rubric_map)
  /\ _map_with_rubric (Str "Gold Certified") [("gold", 80); ("default", 10)]
     = Some 80
  /\ _map_with_rubric (Str "Unknown Tier") [("gold", 80); ("default", 10)]
     = Some 10.
Proof.
  split; [|split; [|split; reflexivity]].
  - intros value [|kv rest]; [now destruct value|].
    unfold _map_with_rubric, Spec.rubric_resolution.
    cbv beta iota zeta. generalize (kv :: rest) as d. intro d.
    rewrite exact_match_find, substring_match_find, mem_get.
    destruct value as [[q|]|s|]; cbn [Pd.isnull Np.isnan];
      try reflexivity;
      repeat match goal with
             | |- context [find ?f d] => destruct (find f d); cbn [option_map]
             end; reflexivity.
  - intros s [|kv rest]; [reflexivity|].
    unfold _map_with_rubric. simpl Pd.str. now rewrite lower_idem.
Qed.

End Rubric.

(** ** Series reductions *)

Lemma mapM_length {A B} (f : A -> res B) (l : list A) (l' : list B) :
  Py.mapM f l = Ok l' -> List.length l' = List.length l.
Proof.
  revert l'. induction l as [|x t IH]; simpl; intros l' E.
  - now inversion E.
  - destruct (f x); simpl in E; [|discriminate].
    destruct (Py.mapM f t); simpl in E; [|discriminate].
    inversion E; subst. simpl. now rewrite (IH _ eq_refl).
Qed.

Lemma Qlist_min_spec (l : list Q) (x : Q) :
  In (Pd.Qlist_min x l) (x :: l)
  /\ forall y, In y (x :: l) -> Pd.Qlist_min x l <= y.
Proof.
  unfold Pd.Qlist_min. revert x.
  induction l as [|a t IH]; intros x; simpl.
  - split; [now left|]. intros y [<-|[]]. apply Qle_refl.
  - destruct (Qle_bool a x) eqn:E.
    + apply Qle_bool_iff in E. destruct (IH a) as [Hin Hle]. split.
      * simpl in Hin. tauto.
      * intros y [<-|Hy]; [|now apply Hle].
        eapply Qle_trans; [apply Hle; now left|exact E].
    + assert (x < a) as Hlt.
      { apply Qnot_le_lt. intro H. apply Qle_bool_iff in H. congruence. }
      destruct (IH x) as [Hin Hle]. split.
      * simpl in Hin. tauto.
      * intros y [<-|[<-|Hy]].
        -- apply Hle. now left.
        -- eapply Qle_trans; [apply Hle; now left|now apply Qlt_le_weak].
        -- apply Hle. now right.
Qed.

Lemma Qlist_max_spec (l : list Q) (x : Q) :
  In (Pd.Qlist_max x l) (x :: l)
  /\ forall y, In y (x :: l) -> y <= Pd.Qlist_max x l.
Proof.
  unfold Pd.Qlist_max. revert x.
  induction l as [|a t IH]; intros x; simpl.
  - split; [now left|]. intros y [<-|[]]. apply Qle_refl.
  - destruct (Qle_bool x a) eqn:E.
    + apply Qle_bool_iff in E. destruct (IH a) as [Hin Hle]. split.
      * simpl in Hin. tauto.
      * intros y [<-|Hy]; [|now apply Hle].
        eapply Qle_trans; [exact E|apply Hle; now left].
    + assert (a < x) as Hlt.
      { apply Qnot_le_lt. intro H. apply Qle_bool_iff in H. congruence. }
      destruct (IH x) as [Hin Hle]. split.
      * simpl in Hin. tauto.
      * intros y [<-|[<-|Hy]].
        -- apply Hle. now left.
        -- apply Qle_trans with x; [now apply Qlt_le_weak|apply Hle; now left].
        -- apply Hle. now right.
Qed.

Lemma valid_nth_error (s : list float) i v :
  nth_error s i = Some (Fin v) -> In v (Pd.valid s).
Proof.
  revert i. induction s as [|[q|] t IH]; intros [|i] H; simpl in *;
    try discriminate.
  - inversion H. now left.
  - right. eauto.
  - eauto.
Qed.

(** What [min] and [max] return on a series with a valid value. *)
Lemma min_max_valid (s : list float) (x : Q) :
  In x (Pd.valid s) ->
  exists mn mx,
    Pd.min s = Fin mn /\ Pd.max s = Fin mx
    /\ In mn (Pd.valid s) /\ In mx (Pd.valid s)
    /\ forall v, In v (Pd.valid s) -> mn <= v <= mx.
Proof.
  unfold Pd.min, Pd.max. destruct (Pd.valid s) as [|a t]; [intros []|].
  intros _. destruct (Qlist_min_spec t a) as [Hmi Hml].
  destruct (Qlist_max_spec t a) as [Hxi Hxl].
  exists (Pd.Qlist_min a t), (Pd.Qlist_max a t).
  repeat split; auto.
Qed.

Section Normalizer.
Context {rt : Runtime}.

Lemma allnull_valid (series : Series) (s : list float) :
  forallb Pd.isnull series = true -> Pd.astype_float series = Ok s ->
  Pd.valid s = [].
Proof.
  unfold Pd.astype_float. revert s.
  induction series as [|c t IH]; simpl; intros s Hn E.
  - now inversion E.
  - apply andb_true_iff in Hn as [Hc Ht].
    destruct (Pd.float_of_cell c) as [x|] eqn:Fc; simpl in E; [|discriminate].
    destruct (Py.mapM Pd.float_of_cell t) as [s'|]; simpl in E; [|discriminate].
    inversion E; subst.
    destruct c as [[q|]|str|]; simpl in Hc, Fc; try discriminate;
      inversion Fc; subst; simpl; now apply IH.
Qed.

Lemma full_length {A} (v : float) (l : list A) :
  Pd.full v l = repeat v (List.length l).
Proof. reflexivity. Qed.

(** C7.  On a column that is entirely missing, or whose non-missing values
    are all equal, [_minmax_normalize] returns 50 at every position, for
    either direction; in particular it returns and does not fault on
    [max - min = 0]. *)
Theorem minmax_normalize_constant (series : Series) (higher_is_better : bool) :
  (forallb Pd.isnull series = true
   \/ exists s, Pd.astype_float series = Ok s
                /\ forall x y, In x (Pd.valid s) -> In y (Pd.valid s) -> x == y) ->
  _minmax_normalize series higher_is_better
  = Ok (repeat (Fin 50) (List.length series)).
Proof.
  unfold _minmax_normalize. intros [Hn|(s & Hs & Hc)].
  - now rewrite Hn.
  - destruct (forallb Pd.isnull series); [reflexivity|].
    rewrite Hs. simpl Py.bind.
    rewrite !full_length, (mapM_length _ _ _ Hs).
    destruct (Pd.valid s) as [|a t] eqn:Ev.
    + unfold Pd.min. now rewrite Ev.
    + destruct (min_max_valid s a) as (mn & mx & -> & -> & Hmn & Hmx & _).
      { rewrite Ev. now left. }
      assert (Np.eqb (Fin mx) (Fin mn) = true) as ->.
      { apply Qeq_bool_iff. apply Hc; now rewrite <- Ev. }
      now rewrite orb_true_r.
Qed.

(** C4.  On a numeric column with two distinct non-missing values, the
    minimum [mn] and the maximum [mx] of the non-missing values exist with
    [mn < mx], and [_minmax_normalize] returns a column of the same length
    in which every non-missing value [v] is mapped to
    [(v - mn) / (mx - mn) * 100], or to 100 minus that when lower is better.
    The image lies in [0,100]; the minimum goes to 0 and the maximum to 100,
    or to 100 and 0 when lower is better.  A missing value stays missing. *)
Theorem minmax_normalize_range (series : Series) (s : list float)
  (higher_is_better : bool) :
  Pd.astype_float series = Ok s ->
  (exists x y, In x (Pd.valid s) /\ In y (Pd.valid s) /\ ~ x == y) ->
  exists mn mx out,
    Pd.min s = Fin mn /\ Pd.max s = Fin mx /\ mn < mx
    /\ In mn (Pd.valid s) /\ In mx (Pd.valid s)
    /\ _minmax_normalize series higher_is_better = Ok out
    /\ List.length out = List.length series
    /\ (forall i, nth_error s i = Some NaN -> nth_error out i = Some NaN)
    /\ forall i v, nth_error s i = Some (Fin v) ->
         exists o, nth_error out i = Some (Fin o)
           /\ o == (if higher_is_better then (v - mn) / (mx - mn) * 100
                    else 100 - (v - mn) / (mx - mn) * 100)
           /\ 0 <= o <= 100
           /\ (v == mn -> o == if higher_is_better then 0 else 100)
           /\ (v == mx -> o == if higher_is_better then 100 else 0).
Proof.
  intros Hs (x & y & Hx & Hy & Hxy).
  destruct (min_max_valid s x Hx) as (mn & mx & Emn & Emx & Hmn & Hmx & Hb).
  assert (mn < mx) as Hlt.
  { destruct (Hb x Hx) as [H1 H2], (Hb y Hy) as [H3 H4].
    destruct (Qlt_le_dec mn mx) as [|Hge]; [assumption|].
    exfalso. apply Hxy. lra. }
  set (f := fun v => Np.mul (Np.div (Np.sub v (Fin mn)) (Np.sub (Fin mx) (Fin mn)))
                            (Fin 100)).
  exists mn, mx, (if higher_is_better then map f s
                  else map (Np.sub (Fin 100)) (map f s)).
  assert (Qeq_bool (mx - mn) 0 = false) as Hd.
  { apply not_true_iff_false. intro H. apply Qeq_bool_iff in H. lra. }
  repeat (split; [assumption|]).
  split; [|split; [|split]].
  - unfold _minmax_normalize.
    destruct (forallb Pd.isnull series) eqn:Hn.
    { rewrite (allnull_valid _ _ Hn Hs) in Hx. destruct Hx. }
    rewrite Hs. simpl Py.bind. rewrite Emn, Emx. simpl.
    assert (Qeq_bool mx mn = false) as ->.
    { apply not_true_iff_false. intro H. apply Qeq_bool_iff in H. lra. }
    reflexivity.
  - rewrite <- (mapM_length _ _ _ Hs).
    destruct higher_is_better; now rewrite ?length_map.
  - intros i Hi.
    destruct higher_is_better; rewrite ?nth_error_map, Hi; reflexivity.
  - intros i v Hi. destruct (Hb v (valid_nth_error _ _ _ Hi)) as [Hlo Hhi].
    assert (f (Fin v) = Fin ((v - mn) / (mx - mn) * 100)) as Ef.
    { unfold f. simpl. now rewrite Hd. }
    set (t := (v - mn) / (mx - mn)) in *.
    assert (t * (mx - mn) == v - mn) as Ht.
    { unfold t. field. lra. }
    assert (0 <= t <= 1) as [Ht0 Ht1].
    { split.
      - apply Qle_shift_div_l; lra.
      - apply Qle_shift_div_r; lra. }
    assert (v == mn -> t == 0) as Hz.
    { intro E. unfold t. rewrite E. field. lra. }
    assert (v == mx -> t == 1) as Ho.
    { intro E. unfold t. rewrite E. field. lra. }
    destruct higher_is_better.
    + exists (t * 100). rewrite nth_error_map, Hi. simpl. rewrite Ef.
      repeat split; try reflexivity; lra.
    + exists (100 - t * 100). rewrite !nth_error_map, Hi. simpl. rewrite Ef.
      repeat split; try reflexivity; lra.
Qed.

End Normalizer.

(** ** Dictionaries *)

Lemma get_set_same {V} (k : string) (v : V) (d : Py.dict V) :
  Py.get k (Py.set k v d) = Some v.
Proof.
  induction d as [|[k' v'] t IH]; simpl.
  - now rewrite String.eqb_refl.
  - destruct (String.eqb k k') eqn:E; simpl; rewrite E; [reflexivity|exact IH].
Qed.

Lemma keys_set_in {V} (k k0 : string) (v : V) (d : Py.dict V) :
  In k0 (Py.keys (Py.set k v d)) -> k0 = k \/ In k0 (Py.keys d).
Proof.
  induction d as [|[k' v'] t IH]; simpl.
  - intros [<-|[]]. now left.
  - destruct (String.eqb k k') eqn:E; simpl; [tauto|].
    intros [<-|H]; [tauto|]. destruct (IH H); tauto.
Qed.

Lemma keys_set_nodup {V} (k : string) (v : V) (d : Py.dict V) :
  NoDup (Py.keys d) -> NoDup (Py.keys (Py.set k v d)).
Proof.
  induction d as [|[k' v'] t IH]; simpl; intros H.
  - constructor; [intros []|constructor].
  - inversion H as [|? ? Hn Ht]; subst.
    destruct (String.eqb k k') eqn:E; simpl.
    + now constructor.
    + constructor; [|now apply IH].
      intro Hin. apply keys_set_in in Hin as [->|Hin]; [|contradiction].
      now rewrite String.eqb_refl in E.
Qed.

Lemma get_app_fresh {V} (k : string) (pre post : Py.dict V) :
  ~ In k (Py.keys pre) -> Py.get k (pre ++ post) = Py.get k post.
Proof.
  induction pre as [|[k' v'] t IH]; simpl; intros H; [reflexivity|].
  destruct (String.eqb k k') eqn:E.
  - apply String.eqb_eq in E. subst. tauto.
  - apply IH. tauto.
Qed.

Lemma set_app_fresh {V} (k : string) (v : V) (pre post : Py.dict V) :
  ~ In k (Py.keys pre) -> Py.set k v (pre ++ post) = pre ++ Py.set k v post.
Proof.
  induction pre as [|[k' v'] t IH]; simpl; intros H; [reflexivity|].
  destruct (String.eqb k k') eqn:E.
  - apply String.eqb_eq in E. subst. tauto.
  - rewrite IH; tauto.
Qed.

Lemma get_map_values {V W} (f : V -> W) (k : string) (d : Py.dict V) :
  Py.get k (map (fun kv => (fst kv, f (snd kv))) d)
  = option_map f (Py.get k d).
Proof.
  induction d as [|[k' v'] t IH]; simpl; [reflexivity|].
  now destruct (String.eqb k k').
Qed.

Lemma sum_acc (l : list Q) (a : Q) :
  fold_left Qplus l a == a + Py.sum l.
Proof.
  unfold Py.sum. revert a. induction l as [|x t IH]; intros a; simpl.
  - lra.
  - rewrite (IH (a + x)), (IH (0 + x)). lra.
Qed.

Lemma sum_cons (x : Q) (l : list Q) : Py.sum (x :: l) == x + Py.sum l.
Proof.
  unfold Py.sum at 1. simpl. rewrite sum_acc. lra.
Qed.

Lemma sum_map_div (l : list Q) (total : Q) :
  Py.sum (map (fun v => v / total) l) == Py.sum l / total.
Proof.
  induction l as [|x t IH]; simpl map.
  - unfold Py.sum. simpl. unfold Qdiv. lra.
  - rewrite !sum_cons, IH. unfold Qdiv. lra.
Qed.

(** ** The weight vector *)

Lemma normalize_loop_scaled (total : Q) (post pre : Py.dict Q) :
  ~ total == 0 -> NoDup (Py.keys (pre ++ post)) ->
  normalize_loop total (Py.keys post) (pre ++ post)
  = Ok (pre ++ Spec.scaled total post).
Proof.
  intros Ht. revert pre.
  induction post as [|[k v] t IH]; intros pre Hnd; simpl; [reflexivity|].
  assert (~ In k (Py.keys pre)) as Hk.
  { unfold Py.keys in *. rewrite map_app in Hnd. simpl in Hnd.
    apply NoDup_remove_2 in Hnd. intro H. apply Hnd.
    apply in_or_app. now left. }
  unfold Py.item. rewrite (get_app_fresh _ _ _ Hk). simpl.
  rewrite String.eqb_refl. simpl. unfold Py.div.
  assert (Qeq_bool total 0 = false) as ->.
  { apply not_true_iff_false. intro H. now apply Qeq_bool_iff in H. }
  simpl. rewrite (set_app_fresh _ _ _ _ Hk). simpl.
  rewrite String.eqb_refl.
  change (pre ++ (k, v / total) :: t) with (pre ++ [(k, v / total)] ++ t).
  rewrite app_assoc, IH.
  - now rewrite <- app_assoc.
  - rewrite <- app_assoc. simpl.
    unfold Py.keys in *. rewrite map_app in *. exact Hnd.
Qed.

Lemma builtin_weights_nodup : NoDup (Py.keys builtin_weights).
Proof.
  assert (nodup string_dec (Py.keys builtin_weights)
          = Py.keys builtin_weights) as <- by reflexivity.
  apply NoDup_nodup.
Qed.

Lemma overridden_weights_nodup (user_weights : option (Py.dict Q)) (e : Q) :
  NoDup (Py.keys (overridden_weights user_weights e)).
Proof.
  unfold overridden_weights. apply keys_set_nodup.
  unfold apply_user_weights. destruct user_weights as [items|];
    [|apply builtin_weights_nodup].
  generalize builtin_weights builtin_weights_nodup.
  induction items as [|[k v] t IH]; intros d Hd; simpl; [exact Hd|].
  apply IH. now apply keys_set_nodup.
Qed.

(** C1, as the code has it.  Whatever the user map holds, the entry
    [Env_Conditions] of the weights is [env_overall_weight] before
    normalization.  When the overridden weights do not sum to zero, the
    function goes on with the vector in which every overridden weight is
    divided by their total [total]: the environment weight is
    [env_overall_weight / total], the keys are unchanged and the whole vector,
    forced entry included, sums to 1. *)
Theorem scoring_weights_normalized (user_weights : option (Py.dict Q))
  (env_overall_weight : Q) :
  let pre := overridden_weights user_weights env_overall_weight in
  let total := Py.sum (Py.values pre) in
  Py.get "Env_Conditions" pre = Some env_overall_weight
  /\ (~ total == 0 ->
      exists w,
        scoring_weights user_weights env_overall_weight = Ok w
        /\ w = Spec.scaled total pre
        /\ Py.keys w = Py.keys pre
        /\ Py.get "Env_Conditions" w = Some (env_overall_weight / total)
        /\ Py.sum (Py.values w) == 1).
Proof.
  intros pre total. split; [apply get_set_same|].
  intros Ht. exists (Spec.scaled total pre).
  split; [|split; [reflexivity|split; [|split]]].
  - unfold scoring_weights. fold pre. fold total.
    apply (normalize_loop_scaled total pre [] Ht).
    apply overridden_weights_nodup.
  - unfold Spec.scaled, Py.keys. rewrite map_map. reflexivity.
  - unfold Spec.scaled. rewrite (get_map_values (fun v => v / total)).
    unfold pre, overridden_weights. now rewrite get_set_same.
  - unfold Spec.scaled, Py.values. rewrite map_map. simpl.
    rewrite <- (map_map snd (fun v => v / total)), sum_map_div.
    fold (Py.values pre). fold total. now field.
Qed.

(** ** The environment composite *)

Lemma get_set {V} (k k0 : string) (v : V) (d : Py.dict V) :
  Py.get k0 (Py.set k v d) = if String.eqb k0 k then Some v else Py.get k0 d.
Proof.
  induction d as [|[k' v'] t IH]; simpl; [reflexivity|].
  destruct (String.eqb k k') eqn:E; simpl.
  - apply String.eqb_eq in E. subst k'. now destruct (String.eqb k0 k).
  - rewrite IH. destruct (String.eqb k0 k') eqn:E'; [|reflexivity].
    apply String.eqb_eq in E'. subst k'.
    now rewrite String.eqb_sym, E.
Qed.

Lemma mem_set {V} (k k0 : string) (v : V) (d : Py.dict V) :
  Py.mem k0 (Py.set k v d) = String.eqb k0 k || Py.mem k0 d.
Proof.
  unfold Py.mem. rewrite get_set. now destruct (String.eqb k0 k).
Qed.

Lemma mem_keys {V} (k : string) (d : Py.dict V) :
  Py.mem k d = true <-> In k (Py.keys d).
Proof.
  unfold Py.mem. induction d as [|[k' v'] t IH]; simpl.
  - split; [discriminate|intros []].
  - destruct (String.eqb k k') eqn:E.
    + apply String.eqb_eq in E. subst. tauto.
    + apply String.eqb_neq in E. rewrite IH. split; [tauto|].
      intros [H|H]; [congruence|exact H].
Qed.

Lemma existsb_filter {A} (p : A -> bool) (l : list A) :
  existsb p l = match filter p l with [] => false | _ :: _ => true end.
Proof.
  induction l as [|x t IH]; simpl; [reflexivity|].
  now destruct (p x).
Qed.

Section EnvComposite.
Context {rt : Runtime}.

(** C5, as the code has it.  The energy component is collected exactly when
    the frame has a column whose name is [Renewable_Energy_Pct], letter for
    letter.  Water is found by a case-insensitive prefix test, air and
    carbon by case-insensitive substring tests on the column names. *)
Theorem env_components_detection (df : DataFrame) (row : nat)
  (components : Py.dict float) :
  env_components df row = Ok components ->
  let names := Py.keys (Pd.columns df) in
  (Py.mem "energy" components = true <-> In "Renewable_Energy_Pct" names)
  /\ Py.mem "water" components
     = existsb (fun c => Py.startswith (Py.lower c) "water") names
  /\ Py.mem "air" components
     = existsb (fun c => Py.contains "air" (Py.lower c)
                         || Py.contains "pm2" (Py.lower c)
                         || Py.contains "pm10" (Py.lower c)) names
  /\ Py.mem "carbon" components
     = existsb (fun c => Py.contains "carbon" (Py.lower c)
                         || Py.contains "emissions" (Py.lower c)) names.
Proof.
  intros H names. subst names. rewrite <- (mem_keys "Renewable_Energy_Pct").
  fold (Pd.has_column "Renewable_Energy_Pct" df).
  rewrite !existsb_filter.
  fold (water_cols df) (air_cols df) (carbon_cols df).
  unfold env_components in H.
  destruct (Pd.has_column "Renewable_Energy_Pct" df);
    [destruct (normalized_at df "Renewable_Energy_Pct" true row);
       [|discriminate]|];
    (destruct (water_cols df) as [|wc ?];
       [|destruct (normalized_at df wc true row); [|discriminate]]);
    (destruct (air_cols df) as [|ac ?];
       [|destruct (normalized_at df ac false row); [|discriminate]]);
    (destruct (carbon_cols df) as [|cc ?];
       [|destruct (normalized_at df cc false row); [|discriminate]]);
    simpl in H; inversion H; subst; clear H;
    repeat split; try reflexivity; try discriminate.
Qed.

Lemma get_restrict {V W} (k : string) (weights : Py.dict W)
  (components : Py.dict V) :
  Py.mem k weights = true ->
  Py.get k (filter (fun kc => Py.mem (fst kc) weights) components)
  = Py.get k components.
Proof.
  intros Hk. induction components as [|[k' v'] t IH]; simpl; [reflexivity|].
  destruct (Py.mem k' weights) eqn:E; simpl.
  - now rewrite IH.
  - destruct (String.eqb k k') eqn:E'; [|exact IH].
    apply String.eqb_eq in E'. congruence.
Qed.

Lemma env_score_loop_restrict (weights : Py.dict Q)
  (components : Py.dict float) (total_w : Q) (ks : list string)
  (score : float) :
  (forall k, In k ks -> Py.mem k weights = true) ->
  env_score_loop weights
    (filter (fun kc => Py.mem (fst kc) weights) components) total_w ks score
  = env_score_loop weights components total_w ks score.
Proof.
  revert score. induction ks as [|k t IH]; intros score Hks; simpl;
    [reflexivity|].
  unfold Py.item at 2 4. rewrite get_restrict by (apply Hks; now left).
  destruct (Py.item k weights); simpl; [|reflexivity].
  destruct (Py.div a total_w); simpl; [|reflexivity].
  destruct (Py.get k components); simpl; [|reflexivity].
  apply IH. intros k' Hk'. apply Hks. now right.
Qed.

Lemma present_restrict (weights : Py.dict Q) (components : Py.dict float) :
  filter (fun k => Py.mem k (filter (fun kc => Py.mem (fst kc) weights)
                                    components))
         (Py.keys weights)
  = filter (fun k => Py.mem k components) (Py.keys weights).
Proof.
  apply filter_ext_in. intros k Hk. unfold Py.mem at 1 3.
  rewrite get_restrict; [reflexivity|]. now apply mem_keys.
Qed.

Lemma env_score_restrict (weights : Py.dict Q) (components : Py.dict float) :
  env_score weights (filter (fun kc => Py.mem (fst kc) weights) components)
  = env_score weights components.
Proof.
  unfold env_score. rewrite present_restrict.
  destruct (filter (fun k => Py.mem k components) (Py.keys weights))
    as [|k t] eqn:E; [reflexivity|].
  destruct (Py.mapM (fun k0 => Py.item k0 weights) (k :: t)); cbn [Py.bind];
    [|reflexivity].
  rewrite env_score_loop_restrict; [reflexivity|].
  intros k' Hk'. apply mem_keys. rewrite <- E in Hk'.
  now apply filter_In in Hk' as [Hk' _].
Qed.

Lemma env_weights_mapM (weights : Py.dict Q) (ks : list string) :
  (forall k, In k ks -> Py.mem k weights = true) ->
  Py.mapM (fun k => Py.item k weights) ks
  = Ok (map (fun k => Py.get_default k 0 weights) ks).
Proof.
  induction ks as [|k t IH]; intros H; simpl; [reflexivity|].
  rewrite IH by (intros; apply H; now right).
  assert (Py.mem k weights = true) as Hk by (apply H; now left).
  unfold Py.item, Py.get_default, Py.mem in *.
  now destruct (Py.get k weights).
Qed.

Lemma env_score_loop_sum (weights : Py.dict Q) (components : Py.dict float)
  (total_w : Q) (ks : list string) (score : float) :
  ~ total_w == 0 ->
  (forall k, In k ks -> Py.mem k weights = true /\ Py.mem k components = true) ->
  env_score_loop weights components total_w ks score
  = Ok (fold_left
          (fun s k => Np.add s (Np.mul (Py.get_default k NaN components)
                                  (Fin (Py.get_default k 0 weights / total_w))))
          ks score).
Proof.
  intros Ht. revert score. induction ks as [|k t IH]; intros score H; simpl;
    [reflexivity|].
  destruct (H k (or_introl eq_refl)) as [Hw Hc].
  unfold Py.item, Py.get_default, Py.mem, Py.div in *.
  destruct (Py.get k weights); [|discriminate].
  destruct (Py.get k components); [|discriminate]. simpl.
  assert (Qeq_bool total_w 0 = false) as ->.
  { apply not_true_iff_false. intro E. now apply Qeq_bool_iff in E. }
  simpl. apply IH. intros k' Hk'. apply H. now right.
Qed.

(** C10.  With a caller-supplied subweight map [weights], the components
    that count are those whose key is in the map: [present] lists the keys
    of the map that were detected, a detected component outside the map
    changes nothing (the score is the score of the components restricted
    to the keys of the map), no such component gives 50.0, and otherwise,
    when the subweights of the present keys do not sum to zero, each
    present component is weighted by its subweight over that sum; these
    weights sum to 1 and the result is rounded to two decimals. *)
Theorem env_metric_supplied_weights (df : DataFrame) (row : nat)
  (weights : Py.dict Q) (components : Py.dict float) :
  env_components df row = Ok components ->
  let present := filter (fun k => Py.mem k components) (Py.keys weights) in
  let total_w := Py.sum (map (fun k => Py.get_default k 0 weights) present) in
  compute_env_condition_metric df row (Some weights)
  = env_score weights
      (filter (fun kc => Py.mem (fst kc) weights) components)
  /\ (forall k, Py.mem k components = true -> Py.mem k weights = false ->
                ~ In k present)
  /\ (present = [] ->
      compute_env_condition_metric df row (Some weights) = Ok (Fin 50))
  /\ (present <> [] -> ~ total_w == 0 ->
      compute_env_condition_metric df row (Some weights)
      = Ok (Np.round 2
              (fold_left
                 (fun s k =>
                    Np.add s (Np.mul (Py.get_default k NaN components)
                                (Fin (Py.get_default k 0 weights / total_w))))
                 present (Fin 0)))
      /\ Py.sum (map (fun k => Py.get_default k 0 weights / total_w) present)
         == 1).
Proof.
  intros Hc present total_w.
  assert (forall k, In k present ->
                    Py.mem k weights = true /\ Py.mem k components = true)
    as Hp.
  { intros k Hk. apply filter_In in Hk as [Hk ->]. split; [|reflexivity].
    now apply mem_keys. }
  unfold compute_env_condition_metric. rewrite Hc. simpl Py.bind.
  split; [now rewrite env_score_restrict|].
  split.
  { intros k _ Hw Hin. apply Hp in Hin as [Hin _]. congruence. }
  unfold env_score. fold present. clearbody present. split.
  - now intros ->.
  - intros Hne Ht. destruct present as [|k t]; [congruence|].
    remember (k :: t) as ks eqn:E. subst total_w.
    rewrite env_weights_mapM by (intros; now apply Hp). cbn [Py.bind].
    rewrite env_score_loop_sum by assumption.
    split; [reflexivity|].
    rewrite <- (map_map (fun k0 => Py.get_default k0 0 weights)
                        (fun v => v / _)).
    rewrite sum_map_div. now field.
Qed.

End EnvComposite.

(** ** The store *)

Lemma nth_error_app_last {A} (h : list A) (x : A) :
  nth_error (h ++ [x]) (List.length h) = Some x.
Proof.
  rewrite nth_error_app2 by lia. now rewrite Nat.sub_diag.
Qed.

Lemma update_app_last (h : store) (x y : DataFrame) :
  Store.update (h ++ [x]) (List.length h) y = h ++ [y].
Proof.
  induction h as [|a t IH]; simpl; [reflexivity|]. now rewrite IH.
Qed.

Section Pipeline.
Context {rt : Runtime}.

(** One call, step by step: the copy is the only object the call writes
    to, and it is written three more times once the raw scores are there. *)
Lemma calculate_run (h : store) (df : ref) (fr0 : DataFrame)
  (user_weights env_component_weights : option (Py.dict Q))
  (env_overall_weight : Q) (rubric : Py.dict (Py.dict Q)) :
  nth_error h df = Some fr0 ->
  calculate_sustainability_scores df user_weights env_component_weights
    env_overall_weight rubric h
  = match scoring_weights user_weights env_overall_weight with
    | Raise ex => (Raise ex, h ++ [fr0])
    | Ok w =>
        match Py.mapM (fun r => compute_env_condition_metric fr0 r
                                  env_component_weights) (Pd.index fr0) with
        | Raise ex => (Raise ex, h ++ [fr0])
        | Ok env =>
            let fr1 := Pd.setitem fr0 "Env_Conditions" env in
            match assemble_raw_scores fr1 w rubric env with
            | Raise ex => (Raise ex, h ++ [fr1])
            | Ok raw_scores =>
                let raw := map (Np.round 3) raw_scores in
                let z := z_scores raw in
                (Ok (List.length h),
                 h ++ [Pd.setitem
                         (Pd.setitem (Pd.setitem fr1 "Raw_Score" raw)
                            "Sustainability_Z" z)
                         "Sustainability_Z_Scaled" (z_scaled z)])
            end
        end
    end.
Proof.
  intros H.
  unfold calculate_sustainability_scores, Store.bind, Store.copy, Store.lift,
    Store.read, Store.setitem, Store.ret.
  rewrite H.
  destruct (scoring_weights user_weights env_overall_weight) as [w|ex];
    [|reflexivity].
  rewrite nth_error_app_last.
  destruct (Py.mapM _ (Pd.index fr0)) as [env|ex]; [|reflexivity].
  rewrite nth_error_app_last, update_app_last, nth_error_app_last.
  destruct (assemble_raw_scores _ w rubric env) as [rs|ex]; [|reflexivity].
  cbv zeta.
  repeat first [rewrite nth_error_app_last | rewrite update_app_last].
  reflexivity.
Qed.

(** A call that returns has written the four columns to a new object. *)
Lemma calculate_returns (h h' : store) (df out : ref)
  (user_weights env_component_weights : option (Py.dict Q))
  (env_overall_weight : Q) (rubric : Py.dict (Py.dict Q)) :
  calculate_sustainability_scores df user_weights env_component_weights
    env_overall_weight rubric h = (Ok out, h') ->
  exists fr0 env raw,
    nth_error h df = Some fr0
    /\ out = List.length h
    /\ h' = h ++ [Pd.setitem
                    (Pd.setitem
                       (Pd.setitem (Pd.setitem fr0 "Env_Conditions" env)
                          "Raw_Score" raw)
                       "Sustainability_Z" (z_scores raw))
                    "Sustainability_Z_Scaled" (z_scaled (z_scores raw))].
Proof.
  intros H. destruct (nth_error h df) as [fr0|] eqn:E.
  - rewrite (calculate_run _ _ _ _ _ _ _ E) in H.
    destruct (scoring_weights _ _); [|discriminate].
    destruct (Py.mapM _ _) as [env|]; [|discriminate].
    cbv zeta in H.
    destruct (assemble_raw_scores _ _ _ _) as [rs|]; [|discriminate].
    inversion H; subst. now exists fr0, env, (map (Np.round 3) rs).
  - unfold calculate_sustainability_scores, Store.bind, Store.copy in H.
    rewrite E in H. discriminate.
Qed.

(** The store after a call, whatever the outcome: the old objects, and at
    most one new one. *)
Lemma calculate_store (h : store) (df : ref)
  (user_weights env_component_weights : option (Py.dict Q))
  (env_overall_weight : Q) (rubric : Py.dict (Py.dict Q)) :
  exists new,
    snd (calculate_sustainability_scores df user_weights
           env_component_weights env_overall_weight rubric h) = h ++ new.
Proof.
  destruct (nth_error h df) as [fr0|] eqn:E.
  - rewrite (calculate_run _ _ _ _ _ _ _ E).
    destruct (scoring_weights _ _); [|now eexists].
    destruct (Py.mapM _ _) as [env|]; [|now eexists].
    cbv zeta.
    destruct (assemble_raw_scores _ _ _ _) as [rs|]; now eexists.
  - unfold calculate_sustainability_scores, Store.bind, Store.copy.
    rewrite E. exists []. simpl. now rewrite app_nil_r.
Qed.

(** C9.  A call never writes to the caller's frame.  Whatever the call
    does, return or raise, every object of the store before the call is
    the same object after it, the argument among them.  When the call
    returns, the result is a reference that did not exist before, so it is
    not the argument; the frame behind it has the rows of the argument,
    the four added columns, and every other column as the argument has
    it. *)
Theorem calculate_leaves_argument (h : store) (df : ref)
  (user_weights env_component_weights : option (Py.dict Q))
  (env_overall_weight : Q) (rubric : Py.dict (Py.dict Q)) :
  let run := calculate_sustainability_scores df user_weights
               env_component_weights env_overall_weight rubric h in
  (forall r, (r < List.length h)%nat -> nth_error (snd run) r = nth_error h r)
  /\ nth_error (snd run) df = nth_error h df
  /\ forall out, fst run = Ok out ->
       out <> df /\ nth_error h out = None
       /\ exists fr0 fr',
            nth_error h df = Some fr0 /\ nth_error (snd run) out = Some fr'
            /\ Pd.nrows fr' = Pd.nrows fr0
            /\ (forall name, In name Spec.added_columns ->
                             Pd.has_column name fr' = true)
            /\ (forall name, ~ In name Spec.added_columns ->
                             Py.get name (Pd.columns fr')
                             = Py.get name (Pd.columns fr0)).
Proof.
  intros run.
  destruct (calculate_store h df user_weights env_component_weights
              env_overall_weight rubric) as [new Hnew].
  fold run in Hnew.
  assert (forall r, (r < List.length h)%nat ->
                    nth_error (snd run) r = nth_error h r) as Hold.
  { intros r Hr. rewrite Hnew. now apply nth_error_app1. }
  split; [exact Hold|]. split.
  - destruct (Nat.lt_ge_cases df (List.length h)) as [Hlt|Hge];
      [now apply Hold|].
    apply nth_error_None in Hge as Hnone. rewrite Hnone.
    unfold run, calculate_sustainability_scores, Store.bind, Store.copy.
    now rewrite Hnone.
  - intros out Hout.
    destruct run as [res h'] eqn:Erun. simpl in Hout. subst res.
    apply calculate_returns in Erun
      as (fr0 & env & raw & Hdf & -> & ->).
    assert (df < List.length h)%nat as Hlt.
    { apply nth_error_Some. congruence. }
    split; [lia|]. split; [now apply nth_error_None|].
    eexists fr0, _. split; [exact Hdf|].
    split; [apply nth_error_app_last|].
    split; [reflexivity|]. split.
    + intros name Hin. unfold Pd.has_column. simpl Pd.columns.
      rewrite !mem_set.
      repeat destruct Hin as [<-|Hin]; try reflexivity. destruct Hin.
    + intros name Hn. simpl Pd.columns. rewrite !get_set.
      repeat match goal with
             | |- context [String.eqb name ?k] =>
                 destruct (String.eqb_spec name k) as [->|_];
                 [exfalso; apply Hn; simpl; tauto|]
             end.
      reflexivity.
Qed.

End Pipeline.

(** ** The standardizer *)

Lemma sum_nonneg (l : list Q) :
  (forall x, In x l -> 0 <= x) -> 0 <= Py.sum l.
Proof.
  induction l as [|a t IH]; intros H.
  - unfold Py.sum. simpl. lra.
  - rewrite sum_cons.
    assert (0 <= a) by (apply H; now left).
    assert (0 <= Py.sum t) by (apply IH; intros; apply H; now right).
    lra.
Qed.

Lemma sum_all_zero (l : list Q) :
  (forall x, In x l -> x == 0) -> Py.sum l == 0.
Proof.
  induction l as [|a t IH]; intros H.
  - reflexivity.
  - rewrite sum_cons, (H a (or_introl eq_refl)), IH; [lra|].
    intros; apply H; now right.
Qed.

Lemma sum_const (l : list Q) (c : Q) :
  (forall x, In x l -> x == c) ->
  Py.sum l == inject_Z (Z.of_nat (List.length l)) * c.
Proof.
  induction l as [|a t IH]; intros H.
  - change (0 == 0 * c). ring.
  - assert (a == c) as Ha by (apply H; now left).
    assert (Py.sum t == inject_Z (Z.of_nat (List.length t)) * c) as Ht
      by (apply IH; intros; apply H; now right).
    cbn [List.length]. rewrite sum_cons, Ha, Ht. rewrite Nat2Z.inj_succ, <- Z.add_1_r, inject_Z_plus.
    change (inject_Z 1) with 1. ring.
Qed.

Lemma Qsquare_nonneg (a : Q) : 0 <= a * a.
Proof.
  unfold Qle, Qmult. simpl. nia.
Qed.

Lemma count_gt_1 (s : list float) :
  (List.length (Pd.valid s) <=? 1)%nat = false -> 1 < Pd.count s.
Proof.
  intros H. apply Nat.leb_gt in H. unfold Pd.count.
  change 1 with (inject_Z 1). rewrite <- Zlt_Qlt. lia.
Qed.

Lemma var_nonneg (raw : list float) (v : Q) :
  Pd.var raw = Fin v -> 0 <= v.
Proof.
  unfold Pd.var.
  destruct (List.length (Pd.valid raw) <=? 1)%nat eqn:E; [discriminate|].
  intros H. inversion H; subst. apply count_gt_1 in E.
  apply Qle_shift_div_l; [lra|]. rewrite Qmult_0_l.
  apply sum_nonneg. intros x Hx. apply in_map_iff in Hx as (y & <- & _).
  apply Qsquare_nonneg.
Qed.

Lemma var_constant (raw : list float) (v : Q) :
  (forall x y, In x (Pd.valid raw) -> In y (Pd.valid raw) -> x == y) ->
  Pd.var raw = Fin v -> v == 0.
Proof.
  intros Hc. unfold Pd.var.
  destruct (List.length (Pd.valid raw) <=? 1)%nat eqn:E; [discriminate|].
  intros H. inversion H; subst. clear H. apply count_gt_1 in E.
  destruct (Pd.valid raw) as [|c t] eqn:Ev.
  { unfold Pd.count in E. rewrite Ev in E. vm_compute in E. discriminate. }
  assert (Py.sum (c :: t) / Pd.count raw == c) as Havg.
  { rewrite (sum_const (c :: t) c) by (intros; apply Hc; simpl; tauto).
    unfold Pd.count in *. rewrite Ev in *. field. lra. }
  rewrite sum_all_zero; [field; lra|].
  intros x Hx. apply in_map_iff in Hx as (y & <- & Hy).
  rewrite Havg, (Hc y c Hy (or_introl eq_refl)). ring.
Qed.

Section Standardizer.
Context {rt : Runtime} {laws : SqrtLaws rt}.

Lemma z_scores_nondegenerate (raw : list float) (v : Q) :
  Pd.var raw = Fin v -> ~ v == 0 ->
  exists m sd,
    Pd.mean raw = Fin m /\ Pd.std raw = Fin sd /\ 0 < sd
    /\ m = Py.sum (Pd.valid raw) / Pd.count raw
    /\ v = Py.sum (map (fun x => (m - x) * (m - x)) (Pd.valid raw))
           / (Pd.count raw - 1)
    /\ sd = np_sqrt v
    /\ z_scores raw = map (fun x => Np.div (Np.sub x (Fin m)) (Fin sd)) raw.
Proof.
  intros Hv Hnz.
  assert (0 < np_sqrt v) as Hsd.
  { apply np_sqrt_pos. pose proof (var_nonneg _ _ Hv). lra. }
  exists (Py.sum (Pd.valid raw) / Pd.count raw), (np_sqrt v).
  unfold z_scores, Pd.std. rewrite Hv. unfold Pd.mean.
  unfold Pd.var in Hv.
  destruct (Pd.valid raw) as [|c t] eqn:Ev; [discriminate|].
  destruct (List.length (c :: t) <=? 1)%nat; [discriminate|].
  inversion Hv; subst v. repeat (split; [first [reflexivity|assumption]|]).
  cbn [Np.eqb Np.isnan].
  assert (Qeq_bool (np_sqrt _) 0 = false) as ->; [|reflexivity].
  apply not_true_iff_false. intro E. apply Qeq_bool_iff in E. lra.
Qed.

Lemma z_scores_degenerate (raw : list float) :
  (forall x y, In x (Pd.valid raw) -> In y (Pd.valid raw) -> x == y) ->
  z_scores raw = repeat (Fin 0) (List.length raw).
Proof.
  intros Hc. unfold z_scores, Pd.std.
  destruct (Pd.var raw) as [v|] eqn:Hv; [|reflexivity].
  cbn [Np.eqb].
  assert (Qeq_bool (np_sqrt v) 0 = true) as ->; [|reflexivity].
  apply Qeq_bool_iff, np_sqrt_0. eapply var_constant; eauto.
Qed.

End Standardizer.

Lemma map_Num_inj (l l' : list float) : map Num l = map Num l' -> l = l'.
Proof.
  revert l'. induction l as [|x t IH]; intros [|y u] H; simpl in H;
    try discriminate; [reflexivity|].
  inversion H. f_equal. now apply IH.
Qed.

Lemma valid_In (s : list float) (x : Q) : In x (Pd.valid s) -> In (Fin x) s.
Proof.
  induction s as [|[q|] t IH]; simpl; [tauto| |tauto].
  intros [->|H]; tauto.
Qed.

Section Scores.
Context {rt : Runtime} {laws : SqrtLaws rt}.

(** The three score columns of the frame a call returns. *)
Lemma scored_columns (h h' : store) (df out : ref)
  (user_weights env_component_weights : option (Py.dict Q))
  (env_overall_weight : Q) (rubric : Py.dict (Py.dict Q))
  (fr' : DataFrame) (raw : list float) :
  calculate_sustainability_scores df user_weights env_component_weights
    env_overall_weight rubric h = (Ok out, h') ->
  nth_error h' out = Some fr' ->
  Pd.getitem fr' "Raw_Score" = Ok (map Num raw) ->
  Pd.getitem fr' "Sustainability_Z" = Ok (map Num (z_scores raw))
  /\ Pd.getitem fr' "Sustainability_Z_Scaled"
     = Ok (map Num (z_scaled (z_scores raw))).
Proof.
  intros Hrun Hout Hraw.
  apply calculate_returns in Hrun as (fr0 & env & raw0 & _ & -> & ->).
  rewrite nth_error_app_last in Hout. inversion Hout; subst fr'. clear Hout.
  unfold Pd.getitem, Py.item in *. simpl Pd.columns in *.
  rewrite !get_set in *. simpl in Hraw. inversion Hraw as [E].
  apply map_Num_inj in E. subst raw0. split; reflexivity.
Qed.

(** C3.  When the [Raw_Score] column of the returned frame has at least
    two rows and a variance that is defined and not zero, [Sustainability_Z]
    is, row by row, the raw score minus the mean of the column, divided by
    the standard deviation of the column, both taken over all rows that
    hold a number, the deviation with the divisor [n - 1] of
    [Series.std]; [Sustainability_Z_Scaled] is that times 10 plus 50.  A
    row without a raw score has neither. *)
Theorem z_score_formula (h h' : store) (df out : ref)
  (user_weights env_component_weights : option (Py.dict Q))
  (env_overall_weight : Q) (rubric : Py.dict (Py.dict Q))
  (fr' : DataFrame) (raw : list float) (v : Q) :
  calculate_sustainability_scores df user_weights env_component_weights
    env_overall_weight rubric h = (Ok out, h') ->
  nth_error h' out = Some fr' ->
  Pd.getitem fr' "Raw_Score" = Ok (map Num raw) ->
  (2 <= List.length raw)%nat -> Pd.var raw = Fin v -> ~ v == 0 ->
  exists m sd z zs,
    Pd.mean raw = Fin m /\ Pd.std raw = Fin sd /\ 0 < sd
    /\ m = Py.sum (Pd.valid raw) / Pd.count raw
    /\ v = Py.sum (map (fun x => (m - x) * (m - x)) (Pd.valid raw))
           / (Pd.count raw - 1)
    /\ sd = np_sqrt v
    /\ Pd.getitem fr' "Sustainability_Z" = Ok (map Num z)
    /\ Pd.getitem fr' "Sustainability_Z_Scaled" = Ok (map Num zs)
    /\ z = map (fun x => Np.div (Np.sub x (Fin m)) (Fin sd)) raw
    /\ zs = map (fun x => Np.add (Np.mul x (Fin 10)) (Fin 50)) z
    /\ (forall i x, nth_error raw i = Some (Fin x) ->
          nth_error z i = Some (Fin ((x - m) / sd))
          /\ nth_error zs i = Some (Fin ((x - m) / sd * 10 + 50)))
    /\ (forall i, nth_error raw i = Some NaN ->
          nth_error z i = Some NaN /\ nth_error zs i = Some NaN).
Proof.
  intros Hrun Hout Hraw _ Hv Hnz.
  destruct (scored_columns _ _ _ _ _ _ _ _ _ _ Hrun Hout Hraw) as [Hz Hzs].
  destruct (z_scores_nondegenerate raw v Hv Hnz)
    as (m & sd & Hm & Hsd & Hpos & Em & Ev & Esd & Ez).
  exists m, sd, (z_scores raw), (z_scaled (z_scores raw)).
  repeat (split; [assumption|]).
  split; [reflexivity|].
  assert (Qeq_bool sd 0 = false) as Hd.
  { apply not_true_iff_false. intro E. apply Qeq_bool_iff in E. lra. }
  unfold z_scaled. rewrite Ez. split.
  - intros i x Hi. rewrite !nth_error_map, Hi.
    cbn [option_map Np.div Np.sub Np.add Np.mul Np.lift2]. rewrite Hd.
    split; reflexivity.
  - intros i Hi. now rewrite !nth_error_map, Hi.
Qed.

End Scores.

(** * Evaluations *)

Lemma eval_runtime_laws : SqrtLaws EvalRuntime.runtime.
Proof.
  split; intros v Hv; cbn [np_sqrt EvalRuntime.runtime];
    unfold EvalRuntime.sqrt.
  - assert (Qnum v = 0%Z) as ->.
    { unfold Qeq in Hv. simpl in Hv. lia. }
    rewrite !Z.mul_0_l. change (Z.sqrt 0) with 0%Z.
    unfold Qdiv. apply Qmult_0_l.
  - assert (0 < Qnum v)%Z as Hn.
    { unfold Qlt in Hv. simpl in Hv. lia. }
    assert (0 < 4 ^ 52)%Z as H4 by reflexivity.
    assert (0 < 2 ^ 52)%Z as H2 by reflexivity.
    assert (0 < Z.sqrt (Qnum v * Z.pos (Qden v) * 4 ^ 52))%Z as Hs.
    { apply Z.sqrt_pos. generalize (4 ^ 52)%Z H4. intros; nia. }
    apply Qlt_shift_div_l.
    + change 0 with (inject_Z 0). rewrite <- Zlt_Qlt.
      generalize (2 ^ 52)%Z H2. intros; nia.
    + rewrite Qmult_0_l. change 0 with (inject_Z 0). now rewrite <- Zlt_Qlt.
Qed.

Section Evaluations.
Import EvalRuntime.
#[local] Existing Instance eval_runtime_laws.

(** The weights of a call without overrides are normalized. *)
Lemma scoring_weights_normalized_witness :
  exists w,
    scoring_weights None (4 # 10) = Ok w /\ Py.sum (Py.values w) == 1.
Proof.
  destruct (scoring_weights_normalized None (4 # 10)) as [_ H].
  destruct H as (w & Hw & _ & _ & _ & Hs).
  - vm_compute. discriminate.
  - exists w. split; assumption.
Defined.

(** Against C1 as stated: with every weight overridden to zero the
    normalization divides by zero, and no weight vector comes out. *)
Lemma zero_weights_raise :
  scoring_weights (Some Examples.zero_weights) 0
  = Raise Py.ZeroDivisionError
  /\ fst (calculate_sustainability_scores 0%nat (Some Examples.zero_weights)
            None 0 [] [Examples.one_city_df])
     = Raise Py.ZeroDivisionError
  /\ ~ exists w,
         scoring_weights (Some Examples.zero_weights) 0 = Ok w
         /\ Py.sum (Py.values w) == 1.
Proof.
  assert (scoring_weights (Some Examples.zero_weights) 0
          = Raise Py.ZeroDivisionError) as E by reflexivity.
  split; [exact E|]. split; [reflexivity|].
  intros (w & Hw & _). rewrite E in Hw. discriminate.
Qed.

(** C2 fails on the code.  With the hosting count of one city out of
    three unknown, the normalized count of that city is NaN, and so are
    its raw score and both standardized scores. *)
Theorem partly_missing_scores_nan :
  let run := calculate_sustainability_scores 0%nat None None (4 # 10) []
               [Examples.partly_missing_df] in
  exists norm fr',
    _minmax_normalize [Num (Fin 1); Num NaN; Num (Fin 3)] true = Ok norm
    /\ nth_error norm 1 = Some NaN
    /\ fst run = Ok 1%nat /\ nth_error (snd run) 1 = Some fr'
    /\ (c <- Pd.getitem fr' "Raw_Score" ;; Pd.loc c 1) = Ok (Num NaN)
    /\ (c <- Pd.getitem fr' "Sustainability_Z" ;; Pd.loc c 1) = Ok (Num NaN)
    /\ (c <- Pd.getitem fr' "Sustainability_Z_Scaled" ;; Pd.loc c 1)
       = Ok (Num NaN).
Proof.
  vm_compute. do 2 eexists. repeat split; reflexivity.
Qed.

Lemma minmax_normalize_range_witness :
  exists out,
    _minmax_normalize [Num (Fin 60); Num (Fin 20); Null; Num (Fin 80)] false
    = Ok out
    /\ nth_error out 2 = Some NaN
    /\ exists o, nth_error out 1 = Some (Fin o) /\ o == 100.
Proof.
  destruct (minmax_normalize_range
              [Num (Fin 60); Num (Fin 20); Null; Num (Fin 80)]
              [Fin 60; Fin 20; NaN; Fin 80] false)
    as (mn & mx & out & Hmn & Hmx & _ & _ & _ & Hout & _ & Hnan & Hval).
  - reflexivity.
  - exists 60, 20. simpl. split; [tauto|]. split; [tauto|]. discriminate.
  - exists out. split; [exact Hout|]. split; [now apply Hnan|].
    destruct (Hval 1%nat 20 eq_refl) as (o & Ho & _ & _ & Hz & _).
    exists o. split; [exact Ho|]. apply Hz.
    vm_compute in Hmn. now inversion Hmn.
Defined.

Lemma minmax_normalize_constant_witness :
  _minmax_normalize [Num (Fin 5); Null; Num (Fin 5)] true
  = Ok [Fin 50; Fin 50; Fin 50]
  /\ _minmax_normalize [Null; Num NaN] false = Ok [Fin 50; Fin 50].
Proof.
  split.
  - apply (minmax_normalize_constant [Num (Fin 5); Null; Num (Fin 5)] true).
    right. exists [Fin 5; NaN; Fin 5]. split; [reflexivity|].
    simpl. intros x y [<-|[<-|[]]] [<-|[<-|[]]]; reflexivity.
  - apply (minmax_normalize_constant [Null; Num NaN] false).
    left. reflexivity.
Defined.

(** Against C5 as stated: a column that holds the renewable share under a
    lowercase name matches case-insensitively, and no energy component is
    collected. *)
Lemma lowercase_energy_not_detected :
  Spec.energy_detected Examples.lowercase_energy_df = true
  /\ env_components Examples.lowercase_energy_df 0 = Ok []
  /\ Py.mem "energy" ([] : Py.dict float) = false
  /\ compute_env_condition_metric Examples.lowercase_energy_df 0 None
     = Ok (Fin 50).
Proof.
  repeat split; reflexivity.
Qed.

Lemma env_components_detection_witness :
  exists components,
    env_components Examples.make_sample_df 0 = Ok components
    /\ Py.mem "energy" components = true
    /\ Py.mem "water" components = true.
Proof.
  destruct (env_components Examples.make_sample_df 0) as [c|] eqn:E;
    [|vm_compute in E; discriminate].
  destruct (env_components_detection Examples.make_sample_df 0 c E)
    as (He & Hw & _).
  exists c. split; [reflexivity|]. split.
  - apply He. vm_compute. tauto.
  - rewrite Hw. reflexivity.
Defined.

Lemma env_metric_supplied_weights_witness :
  exists components,
    env_components Examples.make_sample_df 0 = Ok components
    /\ Py.mem "air" components = true
    /\ compute_env_condition_metric Examples.make_sample_df 0
         (Some Examples.energy_water_weights)
       = env_score Examples.energy_water_weights
           (filter (fun kc => Py.mem (fst kc) Examples.energy_water_weights)
                   components).
Proof.
  destruct (env_components Examples.make_sample_df 0) as [c|] eqn:E;
    [|vm_compute in E; discriminate].
  destruct (env_metric_supplied_weights Examples.make_sample_df 0
              Examples.energy_water_weights c E) as (H & _).
  exists c. split; [reflexivity|]. split; [|exact H].
  vm_compute in E. inversion E. reflexivity.
Defined.

Lemma calculate_leaves_argument_witness :
  let run := calculate_sustainability_scores 0%nat None None (4 # 10) []
               [Examples.make_sample_df] in
  fst run = Ok 1%nat
  /\ nth_error (snd run) 0 = Some Examples.make_sample_df.
Proof.
  intros run. split; [vm_compute; reflexivity|].
  apply (calculate_leaves_argument [Examples.make_sample_df] 0%nat None None
           (4 # 10) []).
Defined.

Lemma z_score_formula_witness :
  let run := calculate_sustainability_scores 0%nat None None (4 # 10) []
               [Examples.make_sample_df] in
  exists fr' raw m sd,
    nth_error (snd run) 1 = Some fr'
    /\ Pd.getitem fr' "Raw_Score" = Ok (map Num raw)
    /\ Pd.mean raw = Fin m /\ Pd.std raw = Fin sd /\ 0 < sd
    /\ Pd.getitem fr' "Sustainability_Z"
       = Ok (map Num (map (fun x => Np.div (Np.sub x (Fin m)) (Fin sd)) raw)).
Proof.
  intros run.
  destruct (nth_error (snd run) 1) as [fr'|] eqn:Hfr;
    [|vm_compute in Hfr; discriminate].
  set (raw := map (Np.round 3)
                  [Fin (64482 # 1000); Fin (14463 # 1000); Fin (90909 # 1000)]).
  destruct (Pd.var raw) as [v|] eqn:Hv; [|vm_compute in Hv; discriminate].
  assert (Pd.getitem fr' "Raw_Score" = Ok (map Num raw)) as Hraw.
  { vm_compute in Hfr. inversion Hfr. vm_compute. reflexivity. }
  destruct (z_score_formula [Examples.make_sample_df] (snd run) 0%nat 1%nat
              None None (4 # 10) [] fr' raw v)
    as (m & sd & z & zs & Hm & Hsd & Hpos & _ & _ & _ & Hz & _ & Ez & _).
  - vm_compute. reflexivity.
  - exact Hfr.
  - exact Hraw.
  - simpl. lia.
  - exact Hv.
  - vm_compute in Hv. inversion Hv. vm_compute. discriminate.
  - exists fr', raw, m, sd. rewrite <- Ez. repeat split; assumption.
Defined.

(** C8 fails on the code.  Three cities with the same stadium type and no
    other scored column get the same raw score, 53.306, in every row.  In
    binary64 the mean of the three is the next double above 53.306, the
    standard deviation comes out as 8.7e-15 and not as 0, the guard
    [std == 0] is not taken, and every row gets a [Sustainability_Z] below
    -0.8 and a [Sustainability_Z_Scaled] below 42, where the specification
    asks for 0 and 50.  The other half of the claim holds: a single row is
    given 0 and 50. *)
Theorem equal_scores_not_centered :
  let run := calculate_sustainability_scores 0%nat None None (4 # 10) []
               [Examples.equal_domes_df] in
  let raw := repeat (Fin (53306 # 1000)) 3 in
  exists fr' z zs,
    fst run = Ok 1%nat /\ nth_error (snd run) 1 = Some fr'
    /\ Pd.getitem fr' "Raw_Score" = Ok (map Num raw)
    /\ PrimFloat.eqb (F64.std (map F64.of_float raw)) PrimFloat.zero = false
    /\ F64.z_scores (map F64.of_float raw) = [z; z; z]
    /\ F64.z_scaled [z; z; z] = [zs; zs; zs]
    /\ PrimFloat.ltb z (F64.of_Q (- (8 # 10))) = true
    /\ PrimFloat.ltb zs (F64.of_Z 42) = true
    /\ forall x, F64.z_scores [x] = [PrimFloat.zero]
                 /\ F64.z_scaled [PrimFloat.zero] = [F64.of_Z 50].
Proof.
  vm_compute calculate_sustainability_scores.
  cbv zeta. do 3 eexists.
  repeat (split; [vm_compute; reflexivity|]).
  intros x. split; [|vm_compute; reflexivity].
  unfold F64.z_scores, F64.std, F64.var, F64.count. cbn [filter].
  destruct (PrimFloat.is_nan x); reflexivity.
Qed.

End Evaluations.

(** * Further properties *)

Import Notions.

(** ** More on the normalizer *)

Lemma mapM_raise {A B} (f : A -> res B) (l : list A) (e : Py.exn) :
  Py.mapM f l = Raise e -> exists x, In x l /\ f x = Raise e.
Proof.
  induction l as [|a t IH]; simpl; [discriminate|].
  destruct (f a) eqn:Fa; simpl.
  - destruct (Py.mapM f t); simpl; [discriminate|].
    intros H. inversion H; subst. destruct (IH eq_refl) as (x & Hx & Hfx).
    exists x. tauto.
  - intros H. inversion H; subst. exists a. tauto.
Qed.

Lemma mapM_ok {A B} (f : A -> res B) (l : list A) :
  (forall x, In x l -> exists y, f x = Ok y) -> exists l', Py.mapM f l = Ok l'.
Proof.
  induction l as [|a t IH]; intros H; simpl; [now eexists|].
  destruct (H a (or_introl eq_refl)) as [y ->]. simpl.
  destruct IH as [l' ->]; [intros; apply H; now right|]. simpl. now eexists.
Qed.

Lemma scaled_value_range (mn mx v : Q) (hib : bool) :
  mn < mx -> mn <= v <= mx ->
  exists o, scaled_value mn mx hib (Fin v) = Fin o /\ 0 <= o <= 100.
Proof.
  intros Hlt [Hlo Hhi]. unfold scaled_value. simpl.
  assert (Qeq_bool (mx - mn) 0 = false) as ->.
  { apply not_true_iff_false. intro H. apply Qeq_bool_iff in H. lra. }
  set (t := (v - mn) / (mx - mn)).
  assert (0 <= t <= 1) as [Ht0 Ht1].
  { split.
    - apply Qle_shift_div_l; lra.
    - apply Qle_shift_div_r; lra. }
  destruct hib; eexists; (split; [reflexivity|lra]).
Qed.

Section NormalizerCases.
Context {rt : Runtime}.

Lemma float_of_cell_raise (c : cell) (e : Py.exn) :
  Pd.float_of_cell c = Raise e ->
  e = Py.ValueError /\ exists s, c = Str s /\ py_float_str s = None.
Proof.
  destruct c as [x|s|]; simpl; try discriminate.
  destruct (py_float_str s) eqn:E; [discriminate|].
  intros H. inversion H. split; [reflexivity|]. now exists s.
Qed.

Lemma minmax_normalize_outcome (series : Series) (hib : bool) :
  normalize_outcome series hib (_minmax_normalize series hib).
Proof.
  unfold _minmax_normalize.
  destruct (forallb Pd.isnull series) eqn:Hn; [apply Flat|].
  destruct (Pd.astype_float series) as [s|e] eqn:Hs; simpl Py.bind.
  - rewrite full_length, (mapM_length _ _ _ Hs).
    destruct (Pd.valid s) as [|a t] eqn:Ev.
    { unfold Pd.min. rewrite Ev. apply Flat. }
    destruct (min_max_valid s a) as (mn & mx & Emn & Emx & Hmn & Hmx & Hb).
    { rewrite Ev. now left. }
    rewrite Emn, Emx. cbn [Np.isnan Np.eqb orb].
    destruct (Qeq_bool mx mn) eqn:E; [apply Flat|].
    assert (mn < mx) as Hlt.
    { destruct (Hb mn Hmn) as [_ H].
      destruct (Qlt_le_dec mn mx) as [|Hge]; [assumption|].
      exfalso. apply not_true_iff_false in E. apply E.
      apply Qeq_bool_iff. lra. }
    replace (if hib then _ else _) with (map (scaled_value mn mx hib) s).
    + now apply Spread.
    + unfold scaled_value. destruct hib; [reflexivity|].
      now rewrite map_map.
  - pose proof Hs as Hs'. unfold Pd.astype_float in Hs'.
    apply mapM_raise in Hs' as (c & _ & Hc).
    apply float_of_cell_raise in Hc as [-> _]. now apply Rejected.
Qed.

Lemma minmax_entry_range (series : Series) (hib : bool) (out : list float)
  (i : nat) (o : Q) :
  _minmax_normalize series hib = Ok out ->
  nth_error out i = Some (Fin o) -> 0 <= o <= 100.
Proof.
  intros H Hi. pose proof (minmax_normalize_outcome series hib) as Hc.
  rewrite H in Hc. inversion Hc as [E|s mn mx Hs Hmn Hmx Hlt Hb E|]; subst.
  - apply nth_error_In, repeat_spec in Hi. inversion Hi. lra.
  - rewrite nth_error_map in Hi.
    destruct (nth_error s i) as [[v|]|] eqn:Ei; simpl in Hi;
      try discriminate.
    + destruct (scaled_value_range mn mx v hib Hlt) as (o' & Ho & Hr).
      { apply Hb. eapply valid_nth_error; eauto. }
      rewrite Ho in Hi. inversion Hi; subst. exact Hr.
    + inversion Hi as [E]. unfold scaled_value in E. simpl in E.
      destruct hib; discriminate.
Qed.

End NormalizerCases.

Section NormalizerMore.
Context {rt : Runtime}.

(** X1.  Whenever [_minmax_normalize] returns, the result has one entry
    per cell of the column and every entry is NaN or a number in
    [0,100]. *)
Theorem minmax_normalize_shape (series : Series) (hib : bool)
  (out : list float) :
  _minmax_normalize series hib = Ok out ->
  List.length out = List.length series
  /\ forall i o, nth_error out i = Some (Fin o) -> 0 <= o <= 100.
Proof.
  intros H. split; [|intros i o; now apply minmax_entry_range with (1 := H)].
  pose proof (minmax_normalize_outcome series hib) as Hc.
  rewrite H in Hc. inversion Hc as [E|s mn mx Hs Hmn Hmx Hlt Hb E|]; subst.
  - apply repeat_length.
  - now rewrite length_map, (mapM_length _ _ _ Hs).
Qed.

(** X2.  Lower-is-better normalization is the mirror image of
    higher-is-better normalization in every case: it raises when the other
    raises, and otherwise is 100 minus the other, entry by entry (50 for 50
    on a flat column, NaN for NaN). *)
Theorem minmax_normalize_mirror (series : Series) :
  _minmax_normalize series false
  = (out <- _minmax_normalize series true ;;
     Ok (map (Np.sub (Fin 100)) out)).
Proof.
  unfold _minmax_normalize.
  destruct (forallb Pd.isnull series).
  { simpl Py.bind. unfold Pd.full. now rewrite map_repeat. }
  destruct (Pd.astype_float series) as [s|e]; simpl Py.bind; [|reflexivity].
  destruct (Np.isnan (Pd.min s) || Np.isnan (Pd.max s)
            || Np.eqb (Pd.max s) (Pd.min s)); simpl Py.bind.
  - unfold Pd.full. now rewrite map_repeat.
  - reflexivity.
Qed.

(** X3.  [_minmax_normalize] raises exactly when the column is not entirely
    missing and holds a string that [float] rejects; the exception is then
    [ValueError].  In particular it never raises on a column of numbers and
    missing values. *)
Theorem minmax_normalize_raises (series : Series) (hib : bool) :
  (forall e, _minmax_normalize series hib = Raise e -> e = Py.ValueError)
  /\ ((exists e, _minmax_normalize series hib = Raise e)
      <-> forallb Pd.isnull series = false
          /\ exists s, In (Str s) series /\ py_float_str s = None).
Proof.
  split.
  - intros e H. pose proof (minmax_normalize_outcome series hib) as Hc.
    rewrite H in Hc. now inversion Hc.
  - unfold _minmax_normalize. split.
    + intros [e H]. destruct (forallb Pd.isnull series); [discriminate|].
      split; [reflexivity|].
      destruct (Pd.astype_float series) as [s|e'] eqn:Hs; simpl in H.
      { destruct (_ || _); discriminate. }
      unfold Pd.astype_float in Hs. apply mapM_raise in Hs as (c & Hin & Hc).
      apply float_of_cell_raise in Hc as (_ & s & -> & Hs). eauto.
    + intros [-> (s & Hin & Hs)].
      destruct (Pd.astype_float series) as [l|e] eqn:Hl; simpl; [|eauto].
      exfalso. unfold Pd.astype_float in Hl. clear -Hin Hs Hl.
      revert l Hl. induction series as [|c t IH]; intros l Hl; [destruct Hin|].
      simpl in Hl. destruct Hin as [->|Hin].
      * simpl in Hl. rewrite Hs in Hl. discriminate.
      * destruct (Pd.float_of_cell c); simpl in Hl; [|discriminate].
        destruct (Py.mapM Pd.float_of_cell t) eqn:Et; simpl in Hl;
          [|discriminate].
        eapply IH; eauto.
Qed.

Lemma astype_float_numbers (fs : list float) :
  Pd.astype_float (map Num fs) = Ok fs.
Proof.
  unfold Pd.astype_float. induction fs as [|x t IH]; simpl; [reflexivity|].
  now rewrite IH.
Qed.

End NormalizerMore.

Lemma valid_affine (a b : Q) (fs : list float) :
  Pd.valid (map (affine a b) fs) = map (fun q => a * q + b) (Pd.valid fs).
Proof.
  induction fs as [|[q|] t IH]; simpl; [reflexivity| |exact IH].
  now rewrite IH.
Qed.

Lemma Qlist_min_affine (a b : Q) (l : list Q) (x : Q) :
  0 < a ->
  Pd.Qlist_min (a * x + b) (map (fun q => a * q + b) l)
  = a * Pd.Qlist_min x l + b.
Proof.
  intros Ha. unfold Pd.Qlist_min. revert x.
  induction l as [|y t IH]; intros x; simpl; [reflexivity|].
  assert (Qle_bool (a * y + b) (a * x + b) = Qle_bool y x) as ->.
  { apply eq_true_iff_eq. rewrite !Qle_bool_iff. split; intros H; nra. }
  destruct (Qle_bool y x); apply IH.
Qed.

Lemma Qlist_max_affine (a b : Q) (l : list Q) (x : Q) :
  0 < a ->
  Pd.Qlist_max (a * x + b) (map (fun q => a * q + b) l)
  = a * Pd.Qlist_max x l + b.
Proof.
  intros Ha. unfold Pd.Qlist_max. revert x.
  induction l as [|y t IH]; intros x; simpl; [reflexivity|].
  assert (Qle_bool (a * x + b) (a * y + b) = Qle_bool x y) as ->.
  { apply eq_true_iff_eq. rewrite !Qle_bool_iff. split; intros H; nra. }
  destruct (Qle_bool x y); apply IH.
Qed.

Lemma Forall2_feq_mirror (l l' : list float) :
  Forall2 feq l l' ->
  Forall2 feq (map (Np.sub (Fin 100)) l) (map (Np.sub (Fin 100)) l').
Proof.
  induction 1 as [|u v l l' Huv _ IH]; simpl; constructor; [|exact IH].
  destruct u, v; simpl in *; try tauto. now rewrite Huv.
Qed.

Section NormalizerUnits.
Context {rt : Runtime}.

(** X4.  Normalization does not depend on the unit of the column: a column
    of numbers and the same column under [x |-> a * x + b] with [a > 0]
    normalize to the same values, entry by entry. *)
Theorem minmax_normalize_affine (a b : Q) (fs : list float) (hib : bool) :
  0 < a ->
  exists out out',
    _minmax_normalize (map Num fs) hib = Ok out
    /\ _minmax_normalize (map Num (map (affine a b) fs)) hib = Ok out'
    /\ Forall2 feq out out'.
Proof.
  intros Ha. unfold _minmax_normalize.
  rewrite !astype_float_numbers. simpl Py.bind.
  assert (forallb Pd.isnull (map Num (map (affine a b) fs))
          = forallb Pd.isnull (map Num fs)) as ->.
  { clear. induction fs as [|[q|] t IH]; simpl; [reflexivity|reflexivity|].
    exact IH. }
  unfold Pd.full. rewrite !length_map.
  assert (Forall2 feq (repeat (Fin 50) (List.length fs))
                      (repeat (Fin 50) (List.length fs))) as Hflat.
  { induction (List.length fs); simpl; constructor; [reflexivity|assumption]. }
  destruct (forallb Pd.isnull (map Num fs)); [eauto|].
  unfold Pd.min, Pd.max. rewrite valid_affine.
  destruct (Pd.valid fs) as [|x t]; simpl map; [simpl; eauto|].
  rewrite !Qlist_min_affine, !Qlist_max_affine by assumption.
  set (mn := Pd.Qlist_min x t). set (mx := Pd.Qlist_max x t).
  cbn [Np.isnan Np.eqb orb].
  assert (Qeq_bool (a * mx + b) (a * mn + b) = Qeq_bool mx mn) as ->.
  { apply eq_true_iff_eq. rewrite !Qeq_bool_iff. split; intros H; nra. }
  destruct (Qeq_bool mx mn) eqn:E; [eauto|].
  assert (~ mx == mn) as Hne.
  { intro H. apply Qeq_bool_iff in H. congruence. }
  assert (Forall2 feq
            (map (fun v => Np.mul (Np.div (Np.sub v (Fin mn))
                                     (Np.sub (Fin mx) (Fin mn))) (Fin 100)) fs)
            (map (fun v => Np.mul (Np.div (Np.sub v (Fin (a * mn + b)))
                                     (Np.sub (Fin (a * mx + b))
                                             (Fin (a * mn + b)))) (Fin 100))
                 (map (affine a b) fs))) as Hn.
  { clear Hflat. induction fs as [|[q|] u IH]; simpl; constructor;
      try assumption; [|exact I].
    assert (Qeq_bool (mx - mn) 0 = false) as ->.
    { apply not_true_iff_false. intro H. apply Qeq_bool_iff in H. lra. }
    assert (Qeq_bool (a * mx + b - (a * mn + b)) 0 = false) as ->.
    { apply not_true_iff_false. intro H. apply Qeq_bool_iff in H. nra. }
    simpl. field. split; [nra|lra]. }
  destruct hib; do 2 eexists; (split; [reflexivity|split; [reflexivity|]]);
    [exact Hn|].
  now apply Forall2_feq_mirror.
Qed.

End NormalizerUnits.

(** ** More on the weight vector *)

Lemma get_app {V} (k : string) (a b : Py.dict V) :
  Py.get k (a ++ b)
  = match Py.get k a with Some v => Some v | None => Py.get k b end.
Proof.
  induction a as [|[k' v'] t IH]; simpl; [reflexivity|].
  now destruct (String.eqb k k').
Qed.

Lemma get_fold_set {V} (k : string) (items d : Py.dict V) :
  Py.get k (fold_left (fun d kv => Py.set (fst kv) (snd kv) d) items d)
  = match last_binding k items with
    | Some v => Some v
    | None => Py.get k d
    end.
Proof.
  unfold last_binding. revert d.
  induction items as [|[k' v'] r IH]; intros d; simpl; [reflexivity|].
  rewrite IH, get_app, get_set. simpl.
  destruct (Py.get k (rev r)); [reflexivity|].
  now destruct (String.eqb k k').
Qed.

Lemma set_set {V} (k : string) (v e : V) (d : Py.dict V) :
  Py.set k e (Py.set k v d) = Py.set k e d.
Proof.
  induction d as [|[k' v'] t IH]; simpl.
  - now rewrite String.eqb_refl.
  - destruct (String.eqb k k') eqn:E; simpl; rewrite E; [reflexivity|].
    now rewrite IH.
Qed.

Lemma set_comm_present {V} (k k' : string) (v v' : V) (d : Py.dict V) :
  k <> k' -> Py.mem k d = true ->
  Py.set k v (Py.set k' v' d) = Py.set k' v' (Py.set k v d).
Proof.
  intros Hne. unfold Py.mem.
  induction d as [|[k0 v0] t IH]; simpl; [discriminate|].
  destruct (String.eqb k k0) eqn:E; destruct (String.eqb k' k0) eqn:E'; simpl;
    rewrite ?E, ?E'; try reflexivity.
  - apply String.eqb_eq in E, E'. congruence.
  - intros H. now rewrite IH.
Qed.

Lemma fold_set_comm {V} (k : string) (v : V) (items d : Py.dict V) :
  Py.mem k d = true -> (forall kv, In kv items -> fst kv <> k) ->
  fold_left (fun d kv => Py.set (fst kv) (snd kv) d) items (Py.set k v d)
  = Py.set k v (fold_left (fun d kv => Py.set (fst kv) (snd kv) d) items d).
Proof.
  revert d. induction items as [|[k' v'] r IH]; intros d Hm Hk; simpl;
    [reflexivity|].
  assert (k' <> k) as Hne by (apply (Hk (k', v')); now left).
  rewrite <- set_comm_present by (auto; congruence).
  apply IH; [|intros; apply Hk; now right].
  rewrite mem_set, Hm. apply orb_true_r.
Qed.

Lemma set_fold_without {V} (k : string) (e : V) (items d : Py.dict V) :
  Py.mem k d = true ->
  Py.set k e (fold_left (fun d kv => Py.set (fst kv) (snd kv) d) items d)
  = Py.set k e (fold_left (fun d kv => Py.set (fst kv) (snd kv) d)
                          (without k items) d).
Proof.
  revert d. induction items as [|[k' v'] r IH]; intros d Hm; simpl;
    [reflexivity|].
  destruct (String.eqb k' k) eqn:E; simpl.
  - apply String.eqb_eq in E. subst k'.
    rewrite IH by (rewrite mem_set, String.eqb_refl; reflexivity).
    rewrite fold_set_comm, set_set; [reflexivity|assumption|].
    intros kv Hin. apply filter_In in Hin as [_ Hin].
    apply negb_true_iff, String.eqb_neq in Hin. exact Hin.
  - apply IH. rewrite mem_set, Hm. apply orb_true_r.
Qed.

Lemma overridden_weights_without (uw : Py.dict Q) (e : Q) :
  overridden_weights (Some uw) e
  = overridden_weights (Some (without "Env_Conditions" uw)) e.
Proof.
  unfold overridden_weights, apply_user_weights.
  now apply set_fold_without.
Qed.

(** X5.  The weights before normalization are, key by key: the forced
    value for [Env_Conditions]; else the last value the user map binds to
    the key; else the built-in default; a key in neither map has no
    weight. *)
Theorem overridden_weights_lookup (uw : Py.dict Q) (e : Q) (k : string) :
  Py.get k (overridden_weights (Some uw) e)
  = if String.eqb k "Env_Conditions" then Some e
    else match last_binding k uw with
         | Some v => Some v
         | None => Py.get k builtin_weights
         end.
Proof.
  unfold overridden_weights, apply_user_weights.
  rewrite get_set. destruct (String.eqb k "Env_Conditions"); [reflexivity|].
  apply get_fold_set.
Qed.

Lemma normalize_loop_zero (total : Q) (d : Py.dict Q) :
  d <> [] -> total == 0 ->
  normalize_loop total (Py.keys d) d = Raise Py.ZeroDivisionError.
Proof.
  intros Hd Ht. destruct d as [|[k v] t]; [congruence|].
  cbn [Py.keys map fst normalize_loop]. unfold Py.item.
  cbn [Py.get]. rewrite String.eqb_refl. cbn [Py.bind]. unfold Py.div.
  apply Qeq_bool_iff in Ht. now rewrite Ht.
Qed.

(** X6.  [scoring_weights] raises exactly when the overridden weights sum
    to zero, and the exception is then [ZeroDivisionError]. *)
Theorem scoring_weights_raises (user_weights : option (Py.dict Q)) (e : Q) :
  let total := Py.sum (Py.values (overridden_weights user_weights e)) in
  (total == 0 ->
   scoring_weights user_weights e = Raise Py.ZeroDivisionError)
  /\ (forall ex, scoring_weights user_weights e = Raise ex ->
                 ex = Py.ZeroDivisionError /\ total == 0).
Proof.
  intros total.
  assert (total == 0 ->
          scoring_weights user_weights e = Raise Py.ZeroDivisionError) as H0.
  { intros Ht. unfold scoring_weights. apply normalize_loop_zero; [|exact Ht].
    intro E. apply (f_equal (Py.get "Env_Conditions")) in E.
    unfold overridden_weights in E. rewrite get_set_same in E.
    discriminate. }
  split; [exact H0|]. intros ex H.
  destruct (Qeq_dec total 0) as [Ht|Ht].
  - rewrite (H0 Ht) in H. inversion H. now split.
  - assert (scoring_weights user_weights e
            = Ok (Spec.scaled total (overridden_weights user_weights e)))
      as Hok.
    { apply (normalize_loop_scaled total _ [] Ht).
      apply overridden_weights_nodup. }
    congruence.
Qed.

Lemma get_fresh {V} (k : string) (d : Py.dict V) :
  ~ In k (Py.keys d) -> Py.get k d = None.
Proof.
  intros H. destruct (Py.get k d) eqn:E; [|reflexivity].
  exfalso. apply H, mem_keys. unfold Py.mem. now rewrite E.
Qed.

Lemma last_binding_dict {V} (k : string) (d : Py.dict V) :
  NoDup (Py.keys d) -> last_binding k d = Py.get k d.
Proof.
  unfold last_binding. induction d as [|[k' v'] t IH]; intros Hd;
    [reflexivity|].
  inversion Hd as [|? ? Hn Ht]; subst. simpl. rewrite get_app, IH by assumption.
  simpl. destruct (String.eqb k k') eqn:E.
  - apply String.eqb_eq in E. subst. now rewrite get_fresh.
  - now destruct (Py.get k t).
Qed.

Lemma base_override_nodup : NoDup (Py.keys base_override).
Proof.
  assert (nodup string_dec (Py.keys base_override) = Py.keys base_override)
    as <- by reflexivity.
  apply NoDup_nodup.
Qed.

Section WeightsInCall.
Context {rt : Runtime}.

(** X7.  A call does not depend on what the user map says about
    [Env_Conditions]: with those entries removed from the map, the call
    does the same to the same store. *)
Theorem calculate_ignores_user_env_weight (h : store) (df : ref)
  (uw : Py.dict Q) (env_component_weights : option (Py.dict Q)) (e : Q)
  (rubric : Py.dict (Py.dict Q)) :
  calculate_sustainability_scores df (Some uw) env_component_weights e
    rubric h
  = calculate_sustainability_scores df
      (Some (without "Env_Conditions" uw)) env_component_weights e rubric h.
Proof.
  unfold calculate_sustainability_scores, scoring_weights.
  now rewrite overridden_weights_without.
Qed.

(** X8.  In [expand_model_for_multisport] the weights before normalization
    are: 0.25 for [Env_Conditions], whatever [base_override] and the extra
    weights say; else the last value the extra weights bind to the key;
    else the value of [base_override]; else the built-in default. *)
Theorem multisport_weights_lookup (extra : Py.dict Q) (k : string) :
  Py.get k (overridden_weights (Some (multisport_override (Some extra)))
                               (25 # 100))
  = if String.eqb k "Env_Conditions" then Some (25 # 100)
    else match last_binding k extra with
         | Some v => Some v
         | None =>
             match Py.get k base_override with
             | Some v => Some v
             | None => Py.get k builtin_weights
             end
         end.
Proof.
  unfold overridden_weights, apply_user_weights. rewrite get_set.
  destruct (String.eqb k "Env_Conditions") eqn:E; [reflexivity|].
  rewrite get_fold_set, last_binding_dict.
  - unfold multisport_override. rewrite get_fold_set.
    destruct (last_binding k extra); [reflexivity|].
    now destruct (Py.get k base_override).
  - unfold multisport_override. generalize base_override base_override_nodup.
    induction extra as [|[k' v'] r IH]; intros d Hd; simpl; [exact Hd|].
    apply IH. now apply keys_set_nodup.
Qed.

End WeightsInCall.

(** ** More on the standardizer *)

Lemma valid_map_fin (f : float -> float) (g : Q -> Q) (s : list float) :
  (forall q, f (Fin q) = Fin (g q)) -> f NaN = NaN ->
  Pd.valid (map f s) = map g (Pd.valid s).
Proof.
  intros Hf Hn. induction s as [|[q|] t IH]; simpl; [reflexivity| |].
  - now rewrite Hf, IH.
  - now rewrite Hn, IH.
Qed.

Lemma sum_map_linear (c d : Q) (l : list Q) :
  Py.sum (map (fun x => c * x + d) l)
  == c * Py.sum l + inject_Z (Z.of_nat (List.length l)) * d.
Proof.
  induction l as [|a t IH].
  - change (0 == c * 0 + 0 * d). ring.
  - cbn [map List.length]. rewrite !sum_cons, IH.
    rewrite Nat2Z.inj_succ, <- Z.add_1_r, inject_Z_plus.
    change (inject_Z 1) with 1. ring.
Qed.

Lemma valid_repeat (q : Q) (n : nat) :
  Pd.valid (repeat (Fin q) n) = repeat q n.
Proof.
  induction n as [|n IH]; simpl; [reflexivity|]. now rewrite IH.
Qed.

Lemma count_pos (n : nat) : (0 < n)%nat -> 0 < inject_Z (Z.of_nat n).
Proof.
  intros H. change 0 with (inject_Z 0). rewrite <- Zlt_Qlt. lia.
Qed.

Lemma mean_valid (s : list float) :
  Pd.valid s <> [] -> Pd.mean s = Fin (Py.sum (Pd.valid s) / Pd.count s).
Proof.
  unfold Pd.mean. destruct (Pd.valid s); [congruence|reflexivity].
Qed.

Section StandardizerMore.
Context {rt : Runtime}.

Lemma z_scaled_mean (raw : list float) :
  raw <> [] ->
  exists m, Pd.mean (z_scaled (z_scores raw)) = Fin m /\ m == 50.
Proof.
  intros Hne.
  assert (forall n, (0 < n)%nat ->
            exists m, Pd.mean (repeat (Fin 50) n) = Fin m /\ m == 50) as Hflat.
  { intros n Hn. unfold Pd.mean, Pd.count. rewrite valid_repeat.
    destruct n as [|n]; [lia|]. cbn [repeat]. eexists. split; [reflexivity|].
    change (50 :: repeat 50 n) with (repeat 50 (S n)).
    rewrite (sum_const (repeat 50 (S n)) 50)
      by (intros x Hx; apply repeat_spec in Hx; now subst).
    rewrite repeat_length. field.
    pose proof (count_pos (S n) Hn). lra. }
  assert (z_scaled (Pd.full (Fin 0) raw) = repeat (Fin 50) (List.length raw))
    as Efull.
  { unfold z_scaled, Pd.full. now rewrite map_repeat. }
  assert (0 < List.length raw)%nat as Hlen.
  { destruct raw; [congruence|simpl; lia]. }
  unfold z_scores, Pd.std.
  destruct (Pd.var raw) as [v|] eqn:Hv;
    [|cbn [Np.eqb Np.isnan orb]; rewrite Efull; now apply Hflat].
  cbn [Np.eqb Np.isnan]. rewrite orb_false_r.
  destruct (Qeq_bool (np_sqrt v) 0) eqn:Esd; [rewrite Efull; now apply Hflat|].
  set (sd := np_sqrt v) in *.
  assert (~ sd == 0) as Hsd.
  { intro H. apply Qeq_bool_iff in H. congruence. }
  unfold Pd.var in Hv.
  destruct (List.length (Pd.valid raw) <=? 1)%nat eqn:Ec; [discriminate|].
  apply count_gt_1 in Ec. clear Hv.
  unfold Pd.mean at 2.
  destruct (Pd.valid raw) as [|x t] eqn:Ev.
  { unfold Pd.count in Ec. rewrite Ev in Ec. vm_compute in Ec. discriminate. }
  rewrite <- Ev. set (m := Py.sum (Pd.valid raw) / Pd.count raw).
  unfold z_scaled. rewrite map_map.
  set (g := fun q => (10 / sd) * q + (50 - 10 * m / sd)).
  assert (Pd.valid
            (map (fun x0 => Np.add (Np.mul (Np.div (Np.sub x0 (Fin m)) (Fin sd))
                                      (Fin 10)) (Fin 50)) raw)
          = map (fun q => (q - m) / sd * 10 + 50) (Pd.valid raw)) as Evalid.
  { apply valid_map_fin; [|reflexivity].
    intros q. cbn [Np.sub Np.div Np.mul Np.add Np.lift2].
    now rewrite Esd. }
  assert (m * Pd.count raw == Py.sum (Pd.valid raw)) as Hm.
  { unfold m. field. lra. }
  rewrite mean_valid by (rewrite Evalid, Ev; discriminate).
  rewrite Evalid. eexists. split; [reflexivity|].
  assert (Pd.count (map (fun x0 => Np.add (Np.mul (Np.div (Np.sub x0 (Fin m))
                                                     (Fin sd))
                                             (Fin 10)) (Fin 50)) raw)
          = Pd.count raw) as ->.
  { unfold Pd.count. now rewrite Evalid, length_map. }
  assert (Py.sum (map (fun q => (q - m) / sd * 10 + 50) (Pd.valid raw))
          == Py.sum (map g (Pd.valid raw))) as ->.
  { generalize (Pd.valid raw) as l. intros l.
    induction l as [|a u IH]; [reflexivity|].
    cbn [map]. rewrite !sum_cons, IH. unfold g. field. exact Hsd. }
  unfold g. rewrite sum_map_linear. fold (Pd.count raw). rewrite <- Hm.
  field. split; [exact Hsd|lra].
Qed.

(** X9.  In the frame a call returns, [Sustainability_Z_Scaled] has mean
    50 over the rows that hold a score, for every non-empty column of raw
    scores that is not degenerate through equal scores: the variance of the
    raw scores is not zero, or is undefined because fewer than two rows
    hold a score. *)
Theorem scaled_scores_mean (h h' : store) (df out : ref)
  (user_weights env_component_weights : option (Py.dict Q))
  (env_overall_weight : Q) (rubric : Py.dict (Py.dict Q))
  (fr' : DataFrame) (raw : list float) :
  calculate_sustainability_scores df user_weights env_component_weights
    env_overall_weight rubric h = (Ok out, h') ->
  nth_error h' out = Some fr' ->
  Pd.getitem fr' "Raw_Score" = Ok (map Num raw) ->
  raw <> [] ->
  (forall v, Pd.var raw = Fin v -> ~ v == 0) ->
  exists zs m,
    Pd.getitem fr' "Sustainability_Z_Scaled" = Ok (map Num zs)
    /\ Pd.mean zs = Fin m /\ m == 50.
Proof.
  intros Hrun Hout Hraw Hne _.
  destruct (scored_columns _ _ _ _ _ _ _ _ _ _ Hrun Hout Hraw) as [_ Hzs].
  destruct (z_scaled_mean raw Hne) as (m & Hm & H50).
  exists (z_scaled (z_scores raw)), m. auto.
Qed.

End StandardizerMore.

Section Ranking.
Context {rt : Runtime} {laws : SqrtLaws rt}.

Lemma z_scores_cases (raw : list float) :
  (z_scores raw = repeat (Fin 0) (List.length raw)
   /\ forall v, Pd.var raw = Fin v -> v == 0)
  \/ exists m sd,
       0 < sd
       /\ z_scores raw = map (fun x => Np.div (Np.sub x (Fin m)) (Fin sd)) raw.
Proof.
  destruct (Pd.var raw) as [v|] eqn:Hv.
  - destruct (Qeq_dec v 0) as [Hz|Hnz].
    + left. split; [|intros v' E; inversion E; now subst].
      unfold z_scores, Pd.std. rewrite Hv. cbn [Np.eqb].
      assert (Qeq_bool (np_sqrt v) 0 = true) as ->; [|reflexivity].
      now apply Qeq_bool_iff, np_sqrt_0.
    + right. destruct (z_scores_nondegenerate raw v Hv Hnz)
        as (m & sd & _ & _ & Hpos & _ & _ & _ & Ez).
      now exists m, sd.
  - left. split; [|discriminate].
    unfold z_scores, Pd.std. now rewrite Hv.
Qed.

(** X10.  Standardization keeps the ranking.  In the frame a call returns,
    a row with the lower raw score has the lower or equal
    [Sustainability_Z_Scaled], and the strictly lower one when the raw
    scores have a non-zero variance. *)
Theorem scaled_scores_monotone (h h' : store) (df out : ref)
  (user_weights env_component_weights : option (Py.dict Q))
  (env_overall_weight : Q) (rubric : Py.dict (Py.dict Q))
  (fr' : DataFrame) (raw : list float) (i j : nat) (a b : Q) :
  calculate_sustainability_scores df user_weights env_component_weights
    env_overall_weight rubric h = (Ok out, h') ->
  nth_error h' out = Some fr' ->
  Pd.getitem fr' "Raw_Score" = Ok (map Num raw) ->
  nth_error raw i = Some (Fin a) -> nth_error raw j = Some (Fin b) ->
  a <= b ->
  exists zs,
    Pd.getitem fr' "Sustainability_Z_Scaled" = Ok (map Num zs)
    /\ exists za zb,
         nth_error zs i = Some (Fin za) /\ nth_error zs j = Some (Fin zb)
         /\ za <= zb
         /\ (forall v, Pd.var raw = Fin v -> ~ v == 0 -> a < b -> za < zb).
Proof.
  intros Hrun Hout Hraw Hi Hj Hab.
  destruct (scored_columns _ _ _ _ _ _ _ _ _ _ Hrun Hout Hraw) as [_ Hzs].
  exists (z_scaled (z_scores raw)). split; [exact Hzs|]. unfold z_scaled.
  destruct (z_scores_cases raw) as [[Ez Hdeg]|(m & sd & Hpos & Ez)];
    rewrite Ez.
  - exists 50, 50. rewrite map_repeat.
    assert (forall k x, nth_error raw k = Some x ->
              nth_error (repeat (Fin (0 * 10 + 50)) (List.length raw)) k
              = Some (Fin 50)) as Hrep.
    { intros k x Hk. rewrite nth_error_repeat; [reflexivity|].
      apply nth_error_Some. congruence. }
    split; [eapply Hrep; eauto|]. split; [eapply Hrep; eauto|].
    split; [lra|]. intros v Hv Hnz. now apply Hdeg in Hv.
  - assert (Qeq_bool sd 0 = false) as Hd.
    { apply not_true_iff_false. intro E. apply Qeq_bool_iff in E. lra. }
    exists ((a - m) / sd * 10 + 50), ((b - m) / sd * 10 + 50).
    rewrite !nth_error_map, Hi, Hj.
    cbn [option_map Np.div Np.sub Np.add Np.mul Np.lift2]. rewrite Hd.
    split; [reflexivity|]. split; [reflexivity|].
    assert ((a - m) / sd <= (b - m) / sd) as Hle.
    { apply Qle_shift_div_l; [exact Hpos|].
      assert ((a - m) / sd * sd == a - m) as -> by (field; lra). lra. }
    split; [lra|]. intros _ _ _ Hlt.
    assert ((a - m) / sd < (b - m) / sd) as Hlt'.
    { apply Qlt_shift_div_l; [exact Hpos|].
      assert ((a - m) / sd * sd == a - m) as -> by (field; lra). lra. }
    lra.
Qed.

End Ranking.

(** ** More on the rubric *)

Lemma get_In {V} (k : string) (v : V) (d : Py.dict V) :
  Py.get k d = Some v -> In (k, v) d.
Proof.
  induction d as [|[k' v'] t IH]; simpl; [discriminate|].
  destruct (String.eqb_spec k k') as [->|_].
  - intros H. inversion H. now left.
  - intros H. right. now apply IH.
Qed.

Lemma exact_match_In (s : string) (items : Py.dict Q) (q : Q) :
  exact_match s items = Some q -> exists k, In (k, q) items.
Proof.
  induction items as [|[k v] r IH]; simpl; [discriminate|].
  destruct (String.eqb k "default").
  - intros H. destruct (IH H) as [k' Hk]. eauto.
  - destruct (String.eqb k s).
    + intros H. inversion H; subst. eauto.
    + intros H. destruct (IH H) as [k' Hk]. eauto.
Qed.

Lemma substring_match_In (s : string) (items : Py.dict Q) (q : Q) :
  substring_match s items = Some q -> exists k, In (k, q) items.
Proof.
  induction items as [|[k v] r IH]; simpl; [discriminate|].
  destruct (String.eqb k "default").
  - intros H. destruct (IH H) as [k' Hk]. eauto.
  - destruct (Py.contains k s).
    + intros H. inversion H; subst. eauto.
    + intros H. destruct (IH H) as [k' Hk]. eauto.
Qed.

Lemma keys_fold_set_lower (items d : Py.dict Q) :
  (forall k, In k (Py.keys d) -> Py.lower k = k) ->
  forall k,
    In k (Py.keys (fold_left
                     (fun d kv => Py.set (Py.lower (fst kv)) (snd kv) d)
                     items d)) ->
    Py.lower k = k.
Proof.
  revert d. induction items as [|[k' v'] r IH]; intros d Hd k; simpl;
    [apply Hd|].
  apply IH. intros k0 Hk0. apply keys_set_in in Hk0 as [->|Hk0].
  - apply lower_idem.
  - now apply Hd.
Qed.

Lemma fold_set_lower_map (items d : Py.dict Q) :
  fold_left (fun d kv => Py.set (Py.lower (fst kv)) (snd kv) d) items d
  = fold_left (fun d kv => Py.set (fst kv) (snd kv) d)
              (map (fun kv => (Py.lower (fst kv), snd kv)) items) d.
Proof.
  revert d. induction items as [|kv r IH]; intros d; simpl; [reflexivity|].
  apply IH.
Qed.

Section RubricMore.
Context {rt : Runtime}.

Lemma map_with_rubric_entry (value : cell) (rubric_map : Py.dict Q) (q : Q) :
  _map_with_rubric value rubric_map = Some q ->
  exists k, In (k, q) rubric_map.
Proof.
  unfold _map_with_rubric.
  destruct rubric_map as [|kv r]; [discriminate|].
  set (d := kv :: r).
  assert (forall s,
            match exact_match s d with
            | Some v => Some v
            | None =>
                match substring_match s d with
                | Some v => Some v
                | None => if Py.mem "default" d then Py.get "default" d
                          else None
                end
            end = Some q -> exists k, In (k, q) d) as Hs.
  { intros s. destruct (exact_match s d) eqn:E1.
    - intros H. inversion H; subst. eapply exact_match_In; eauto.
    - destruct (substring_match s d) eqn:E2.
      + intros H. inversion H; subst. eapply substring_match_In; eauto.
      + rewrite mem_get. intros H. apply get_In in H. eauto. }
  destruct value as [[x|]|s|]; try discriminate; apply Hs.
Qed.

(** X11.  [_map_with_rubric] never invents a score: what it returns is
    the value of some key of the rubric.  With a [default] entry in the
    rubric it maps every value that is not null or NaN. *)
Theorem map_with_rubric_scores (value : cell) (rubric_map : Py.dict Q) :
  (forall q, _map_with_rubric value rubric_map = Some q ->
             exists k, In (k, q) rubric_map)
  /\ (Py.mem "default" rubric_map = true -> Pd.isnull value = false ->
      exists q, _map_with_rubric value rubric_map = Some q).
Proof.
  split; [intros q; apply map_with_rubric_entry|].
  intros Hd Hv. unfold _map_with_rubric.
  destruct rubric_map as [|kv r]; [discriminate|].
  set (d := kv :: r) in *. rewrite Hd.
  assert (exists q, Py.get "default" d = Some q) as [q0 Hq0].
  { unfold Py.mem in Hd. destruct (Py.get "default" d); [eauto|discriminate]. }
  rewrite Hq0.
  destruct value as [[x|]|s|]; try discriminate;
    match goal with
    | |- context [exact_match ?s d] =>
        destruct (exact_match s d); [eauto|];
        destruct (substring_match s d); eauto
    end.
Qed.

(** X12.  The table [field_rubric] hands to the mapper has lowercase keys
    only, and a key maps to the value of the last label of the file that
    equals it up to case. *)
Theorem field_rubric_keys (rubric : Py.dict (Py.dict Q)) (field k : string) :
  (In k (Py.keys (field_rubric rubric field)) -> Py.lower k = k)
  /\ (rubric <> [] ->
      Py.get k (field_rubric rubric field)
      = last_binding k (map (fun kv => (Py.lower (fst kv), snd kv))
                            (Py.get_default field [] rubric))).
Proof.
  unfold field_rubric. split.
  - destruct rubric as [|x r]; [intros []|].
    apply keys_fold_set_lower. intros k0 [].
  - intros Hne. destruct rubric as [|x r]; [congruence|].
    rewrite fold_set_lower_map, get_fold_set.
    now destruct (last_binding k _).
Qed.

End RubricMore.

(** ** Rounding *)

Lemma rint_range (lo hi : Z) (x : Q) :
  inject_Z lo <= x <= inject_Z hi -> (lo <= Np.rint x <= hi)%Z.
Proof.
  intros [Hlo Hhi]. unfold Np.rint.
  pose proof (Qfloor_le x) as Hf. pose proof (Qlt_floor x) as Hc.
  set (f := Qfloor x) in *.
  assert (lo <= f)%Z as H1.
  { assert (inject_Z lo < inject_Z (f + 1)) as H by lra.
    rewrite <- Zlt_Qlt in H. lia. }
  assert (f <= hi)%Z as H2.
  { assert (inject_Z f <= inject_Z hi) as H by lra.
    now rewrite <- Zle_Qle in H. }
  assert (inject_Z f < x -> (f + 1 <= hi)%Z) as H3.
  { intros H. assert (inject_Z f < inject_Z hi) as H' by lra.
    rewrite <- Zlt_Qlt in H'. lia. }
  destruct (Qcompare (x - inject_Z f) (1 # 2)) eqn:E.
  - apply Qeq_alt in E. destruct (Z.even f); [lia|].
    split; [lia|]. apply H3. lra.
  - lia.
  - apply Qgt_alt in E. split; [lia|]. apply H3. lra.
Qed.

Lemma pow10_pos (d : nat) : 0 < Np.pow10 d.
Proof.
  unfold Np.pow10. change 0 with (inject_Z 0). rewrite <- Zlt_Qlt.
  apply Z.pow_pos_nonneg; lia.
Qed.

Lemma round_range (lo hi : Z) (d : nat) (q r : Q) :
  inject_Z lo <= q <= inject_Z hi ->
  Np.round d (Fin q) = Fin r -> inject_Z lo <= r <= inject_Z hi.
Proof.
  intros [Hlo Hhi] H. simpl in H. inversion H; subst. clear H.
  pose proof (pow10_pos d) as Hp.
  set (P := (10 ^ Z.of_nat d)%Z).
  assert (Np.pow10 d = inject_Z P) as EP by reflexivity.
  destruct (rint_range (lo * P) (hi * P) (q * Np.pow10 d)) as [H1 H2].
  { rewrite !inject_Z_mult, <- EP. split; nra. }
  rewrite Zle_Qle, inject_Z_mult, <- EP in H1.
  rewrite Zle_Qle, inject_Z_mult, <- EP in H2.
  split.
  - apply Qle_shift_div_l; assumption.
  - apply Qle_shift_div_r; assumption.
Qed.

(** ** The range of the environment composite *)

Lemma fold_nan {A} (f : float -> A -> float) (l : list A) :
  (forall a, f NaN a = NaN) -> fold_left f l NaN = NaN.
Proof.
  intros Hf. induction l as [|a t IH]; simpl; [reflexivity|].
  now rewrite Hf.
Qed.

Lemma env_fold_range (weights : Py.dict Q) (components : Py.dict float)
  (total : Q) (ks : list string) :
  0 < total ->
  (forall k, 0 <= Py.get_default k 0 weights) ->
  (forall k c, Py.get k components = Some (Fin c) -> 0 <= c <= 100) ->
  forall acc r,
    fold_left
      (fun s k => Np.add s (Np.mul (Py.get_default k NaN components)
                              (Fin (Py.get_default k 0 weights / total))))
      ks (Fin acc) = Fin r ->
    acc <= r
    /\ r <= acc + 100 * (Py.sum (map (fun k => Py.get_default k 0 weights) ks)
                         / total).
Proof.
  intros Ht Hw Hc. induction ks as [|k t IH]; intros acc r H.
  - simpl in H. inversion H; subst. unfold Py.sum. simpl.
    unfold Qdiv. rewrite Qmult_0_l. lra.
  - cbn [fold_left map] in H. cbn [map]. rewrite sum_cons.
    destruct (Py.get_default k NaN components) as [c|] eqn:Ec;
      cbn [Np.mul Np.add Np.lift2] in H;
      [|rewrite fold_nan in H by reflexivity; discriminate].
    assert (Py.get k components = Some (Fin c)) as Ec'.
    { unfold Py.get_default in Ec.
      destruct (Py.get k components); [now subst|discriminate]. }
    apply IH in H. destruct (Hc k c Ec') as [Hc0 Hc1].
    set (w := Py.get_default k 0 weights) in *.
    set (S := Py.sum (map (fun k0 => Py.get_default k0 0 weights) t)) in *.
    assert (0 <= w) as Hw0 by apply Hw.
    assert (0 <= w / total) as Hu by (apply Qle_shift_div_l; lra).
    assert ((w + S) / total == w / total + S / total) as -> by (field; lra).
    destruct H as [H1 H2]. split; nra.
Qed.

Lemma env_score_loop_zero (weights : Py.dict Q) (components : Py.dict float)
  (total : Q) (k : string) (t : list string) (score : float) :
  total == 0 -> Py.mem k weights = true ->
  env_score_loop weights components total (k :: t) score
  = Raise Py.ZeroDivisionError.
Proof.
  intros Ht Hk. cbn [env_score_loop]. unfold Py.item, Py.mem in *.
  destruct (Py.get k weights); [|discriminate]. cbn [Py.bind].
  unfold Py.div. apply Qeq_bool_iff in Ht. now rewrite Ht.
Qed.

Section EnvRange.
Context {rt : Runtime}.

Lemma normalized_at_range (df : DataFrame) (name : string) (hib : bool)
  (row : nat) (c : Q) :
  normalized_at df name hib row = Ok (Fin c) -> 0 <= c <= 100.
Proof.
  unfold normalized_at. destruct (Pd.getitem df name) as [col|]; simpl;
    [|discriminate].
  destruct (_minmax_normalize col hib) as [norm|] eqn:En; simpl;
    [|discriminate].
  unfold Pd.loc. destruct (nth_error norm row) as [x|] eqn:Ei; [|discriminate].
  intros H. inversion H; subst x.
  eapply minmax_entry_range; eauto.
Qed.

Lemma env_components_range (df : DataFrame) (row : nat)
  (components : Py.dict float) :
  env_components df row = Ok components ->
  forall k c, Py.get k components = Some (Fin c) -> 0 <= c <= 100.
Proof.
  intros H k c Hk. unfold env_components in H.
  destruct (Pd.has_column "Renewable_Energy_Pct" df);
    [destruct (normalized_at df "Renewable_Energy_Pct" true row) eqn:E1;
       [|discriminate]|];
    (destruct (water_cols df) as [|wc ?];
       [|destruct (normalized_at df wc true row) eqn:E2; [|discriminate]]);
    (destruct (air_cols df) as [|ac ?];
       [|destruct (normalized_at df ac false row) eqn:E3; [|discriminate]]);
    (destruct (carbon_cols df) as [|cc ?];
       [|destruct (normalized_at df cc false row) eqn:E4; [|discriminate]]);
    cbn [Py.bind] in H; inversion H; subst; clear H;
    cbn [Py.get] in Hk;
    repeat match type of Hk with
           | context [String.eqb k ?x] =>
               destruct (String.eqb k x);
               [inversion Hk; subst; eapply normalized_at_range; eassumption|]
           end;
    discriminate Hk.
Qed.

Lemma compute_env_range (df : DataFrame) (row : nat)
  (env_component_weights : option (Py.dict Q)) (x : Q) :
  (forall w k v, env_component_weights = Some w ->
                 Py.get k w = Some v -> 0 <= v) ->
  compute_env_condition_metric df row env_component_weights = Ok (Fin x) ->
  0 <= x <= 100.
Proof.
  intros Hnn. unfold compute_env_condition_metric.
  set (weights := match env_component_weights with
                  | Some w => w
                  | None => env_default_weights
                  end).
  assert (forall k, 0 <= Py.get_default k 0 weights) as Hw.
  { intros k. unfold Py.get_default.
    destruct (Py.get k weights) as [v|] eqn:E; [|lra].
    unfold weights in E. destruct env_component_weights as [w|].
    - eapply Hnn; eauto.
    - unfold env_default_weights in E. simpl in E.
      repeat match type of E with
             | context [String.eqb k ?s] => destruct (String.eqb k s)
             end; inversion E; subst; unfold Qle; simpl; lia. }
  destruct (env_components df row) as [components|] eqn:Ec; simpl Py.bind;
    [|discriminate].
  pose proof (env_components_range _ _ _ Ec) as Hc.
  unfold env_score.
  set (present := filter (fun k => Py.mem k components) (Py.keys weights)).
  assert (forall k, In k present ->
                    Py.mem k weights = true /\ Py.mem k components = true)
    as Hp.
  { intros k Hk. apply filter_In in Hk as [Hk ->]. split; [|reflexivity].
    now apply mem_keys. }
  clearbody present. destruct present as [|k0 t].
  { intros H. inversion H. lra. }
  remember (k0 :: t) as ks eqn:Eks.
  rewrite env_weights_mapM by (intros; now apply Hp). cbn [Py.bind].
  set (total := Py.sum (map (fun k => Py.get_default k 0 weights) ks)).
  destruct (Qeq_dec total 0) as [Hz|Hnz].
  { rewrite Eks, env_score_loop_zero; [discriminate|exact Hz|].
    apply Hp. rewrite Eks. now left. }
  assert (0 <= total) as Hge.
  { apply sum_nonneg. intros y Hy. apply in_map_iff in Hy as (k & <- & _).
    apply Hw. }
  rewrite env_score_loop_sum by assumption. cbn [Py.bind].
  match goal with
  | |- context [Np.round 2 ?fold] => destruct fold as [sc|] eqn:Es
  end; [|discriminate].
  apply env_fold_range in Es; [|lra|assumption|assumption].
  intros H. inversion H as [E]. subst x. clear H.
  assert (inject_Z 0 <= sc <= inject_Z 100) as Hsc.
  { fold total in Es.
    assert (total / total == 1) as Ht by (field; exact Hnz).
    rewrite Ht in Es. change (inject_Z 0) with 0.
    change (inject_Z 100) with 100. lra. }
  exact (round_range 0 100 2 sc _ Hsc eq_refl).
Qed.

End EnvRange.

(** ** The two host selections *)

Lemma previous_hosts_included (c : string) :
  Py.str_in c previous_hosts = true ->
  Py.str_in c previous_host_cities = true.
Proof.
  unfold Py.str_in, previous_hosts, previous_host_cities. cbn [existsb].
  repeat match goal with
         | |- context [String.eqb c ?s] =>
             destruct (String.eqb c s); cbn [orb]
         end; intros H; first [reflexivity|discriminate H].
Qed.

(** X14.  [analyze_previous_hosts] and [analyze_new_hosts] read the
    [City] column and raise [KeyError] without it.  With it, no row is
    selected by both, the row of a city is selected by neither exactly
    when the city is one of the twelve of [analyze_new_hosts] and not one
    of the six of [analyze_previous_hosts], and a row without a city name
    goes to the new hosts. *)
Theorem host_selections (df : DataFrame) :
  (Pd.has_column "City" df = false ->
   previous_hosts_mask df = Raise Py.KeyError
   /\ new_hosts_mask df = Raise Py.KeyError)
  /\ forall city, Pd.getitem df "City" = Ok city ->
       exists prev new,
         previous_hosts_mask df = Ok prev /\ new_hosts_mask df = Ok new
         /\ List.length prev = List.length city
         /\ List.length new = List.length city
         /\ forall i x, nth_error city i = Some x ->
              exists p n,
                nth_error prev i = Some p /\ nth_error new i = Some n
                /\ p && n = false
                /\ (p || n = false <->
                    exists c, x = Str c
                              /\ Py.str_in c previous_host_cities = true
                              /\ Py.str_in c previous_hosts = false)
                /\ ((forall c, x <> Str c) -> p = false /\ n = true).
Proof.
  unfold previous_hosts_mask, new_hosts_mask, Pd.has_column, Pd.getitem,
    Py.item, Py.mem.
  split.
  - destruct (Py.get "City" (Pd.columns df)); [discriminate|]. now split.
  - intros city H. rewrite H. cbn [Py.bind].
    do 2 eexists. split; [reflexivity|]. split; [reflexivity|].
    unfold isin. rewrite !length_map. split; [reflexivity|].
    split; [reflexivity|].
    intros i x Hi. rewrite !nth_error_map, Hi. cbn [option_map].
    do 2 eexists. split; [reflexivity|]. split; [reflexivity|].
    destruct x as [y|c|].
    + split; [reflexivity|]. split; [|now split].
      split; [discriminate|]. intros (c & Hc & _). discriminate.
    + pose proof (previous_hosts_included c) as Hinc.
      destruct (Py.str_in c previous_hosts) eqn:E6;
        destruct (Py.str_in c previous_host_cities) eqn:E12;
        cbn [andb orb negb].
      * split; [reflexivity|]. split.
        -- split; [discriminate|]. intros (c' & Hc & _ & H'). inversion Hc.
           subst. congruence.
        -- intros Hx. now destruct (Hx c).
      * discriminate (Hinc eq_refl).
      * split; [reflexivity|]. split.
        -- split; [intros _; now exists c|reflexivity].
        -- intros Hx. now destruct (Hx c).
      * split; [reflexivity|]. split.
        -- split; [discriminate|]. intros (c' & Hc & H' & _). inversion Hc.
           subst. congruence.
        -- intros Hx. now destruct (Hx c).
    + split; [reflexivity|]. split; [|now split].
      split; [discriminate|]. intros (c & Hc & _). discriminate.
Qed.

(** ** Scoring a scored frame *)

Lemma keys_set {V} (k : string) (v : V) (d : Py.dict V) :
  Py.keys (Py.set k v d)
  = if Py.mem k d then Py.keys d else Py.keys d ++ [k].
Proof.
  unfold Py.mem. induction d as [|[k' v'] t IH]; simpl; [reflexivity|].
  destruct (String.eqb k k') eqn:E; simpl; [reflexivity|].
  rewrite IH. now destruct (Py.get k t).
Qed.

Lemma set_get_same {V} (k : string) (v : V) (d : Py.dict V) :
  Py.get k d = Some v -> Py.set k v d = d.
Proof.
  induction d as [|[k' v'] t IH]; simpl; [discriminate|].
  destruct (String.eqb k k').
  - intros H. now inversion H.
  - intros H. now rewrite IH.
Qed.

Lemma agree_refl (a : DataFrame) : agree a a.
Proof. repeat split. Qed.

Lemma agree_trans (a b c : DataFrame) : agree a b -> agree b c -> agree a c.
Proof.
  intros (H1 & H2 & H3) (H1' & H2' & H3'). repeat split.
  - congruence.
  - intros name Hn. now rewrite H2, H2'.
  - intros p Hp. now rewrite H3, H3'.
Qed.

Lemma agree_setitem (a : DataFrame) (name : string) (values : list float) :
  In name Spec.added_columns -> agree a (Pd.setitem a name values).
Proof.
  intros Hin. repeat split; simpl.
  - intros other Ho. rewrite get_set.
    destruct (String.eqb_spec other name) as [->|_]; [contradiction|reflexivity].
  - intros p Hp. rewrite keys_set.
    destruct (Py.mem name (Pd.columns a)); [reflexivity|].
    rewrite filter_app. simpl. rewrite (Hp name Hin). now rewrite app_nil_r.
Qed.

Lemma not_added (name : string) :
  negb (Py.str_in name Spec.added_columns) = true ->
  ~ In name Spec.added_columns.
Proof.
  intros H Hin. apply negb_true_iff in H. unfold Py.str_in in H.
  assert (existsb (String.eqb name) Spec.added_columns = true) as E.
  { apply existsb_exists. exists name. split; [exact Hin|].
    apply String.eqb_refl. }
  congruence.
Qed.

Lemma rejects_added (p : string -> bool) :
  forallb (fun name => negb (p name)) Spec.added_columns = true ->
  forall name, In name Spec.added_columns -> p name = false.
Proof.
  intros H name Hn. rewrite forallb_forall in H.
  now apply negb_true_iff, H.
Qed.

Ltac added_false := apply rejects_added; reflexivity.

Section Agreement.
Context {rt : Runtime}.

Lemma normalized_at_agree (a b : DataFrame) (name : string) (hib : bool)
  (row : nat) :
  agree a b -> ~ In name Spec.added_columns ->
  normalized_at a name hib row = normalized_at b name hib row.
Proof.
  intros (_ & Hg & _) Hn. unfold normalized_at, Pd.getitem, Py.item.
  now rewrite (Hg name Hn).
Qed.

Lemma filter_head_not_added (p : string -> bool) (l : list string)
  (x : string) (t : list string) :
  (forall name, In name Spec.added_columns -> p name = false) ->
  filter p l = x :: t -> ~ In x Spec.added_columns.
Proof.
  intros Hp E Hin.
  assert (In x (filter p l)) as Hx by (rewrite E; now left).
  apply filter_In in Hx as [_ Hx]. rewrite (Hp x Hin) in Hx. discriminate.
Qed.

Lemma detected_not_added (df : DataFrame) (x : string) (t : list string) :
  water_cols df = x :: t \/ air_cols df = x :: t \/ carbon_cols df = x :: t ->
  ~ In x Spec.added_columns.
Proof.
  unfold water_cols, air_cols, carbon_cols.
  intros [E|[E|E]]; (eapply filter_head_not_added; [|exact E]); added_false.
Qed.

Lemma env_components_agree (a b : DataFrame) (row : nat) :
  agree a b -> env_components a row = env_components b row.
Proof.
  intros Hab. pose proof Hab as (_ & Hg & Hf).
  assert (water_cols a = water_cols b) as Hw by (apply Hf; added_false).
  assert (air_cols a = air_cols b) as Ha by (apply Hf; added_false).
  assert (carbon_cols a = carbon_cols b) as Hc by (apply Hf; added_false).
  unfold env_components, Pd.has_column, Py.mem.
  rewrite Hw, Ha, Hc.
  rewrite (Hg "Renewable_Energy_Pct") by (apply not_added; reflexivity).
  rewrite (normalized_at_agree a b "Renewable_Energy_Pct" true row Hab)
    by (apply not_added; reflexivity).
  destruct (water_cols b) as [|wc ?] eqn:Ew;
    [|rewrite (normalized_at_agree a b wc true row Hab)
        by (eapply detected_not_added; eauto)];
    (destruct (air_cols b) as [|ac ?] eqn:Ea;
     [|rewrite (normalized_at_agree a b ac false row Hab)
         by (eapply detected_not_added; eauto)]);
    (destruct (carbon_cols b) as [|cc ?] eqn:Ecb;
     [|rewrite (normalized_at_agree a b cc false row Hab)
         by (eapply detected_not_added; eauto)]);
    reflexivity.
Qed.

Lemma compute_env_agree (a b : DataFrame) (row : nat)
  (ew : option (Py.dict Q)) :
  agree a b ->
  compute_env_condition_metric a row ew = compute_env_condition_metric b row ew.
Proof.
  intros H. unfold compute_env_condition_metric.
  now rewrite (env_components_agree a b row H).
Qed.

Lemma normalize_columns_agree (a b : DataFrame)
  (items : list (string * (string * bool))) (acc : Py.dict (list float)) :
  agree a b ->
  (forall kv, In kv items -> ~ In (fst (snd kv)) Spec.added_columns) ->
  normalize_columns a items acc = normalize_columns b items acc.
Proof.
  intros Hab. pose proof Hab as (Hn & Hg & _). revert acc.
  induction items as [|[key [col hb]] r IH]; intros acc Hi; [reflexivity|].
  cbn [normalize_columns]. unfold Pd.has_column, Py.mem, Pd.getitem, Py.item,
    Pd.index.
  rewrite (Hg col) by (apply (Hi (key, (col, hb))); now left). rewrite Hn.
  match goal with |- Py.bind ?m _ = _ => destruct m as [n|] end;
    [|reflexivity].
  cbn [Py.bind]. apply IH. intros kv Hkv. apply Hi. now right.
Qed.

Lemma categorical_scores_agree (a b : DataFrame) (field : string)
  (f : cell -> float) :
  agree a b -> ~ In field Spec.added_columns ->
  categorical_scores a field f = categorical_scores b field f.
Proof.
  intros (Hn & Hg & _) Hf.
  unfold categorical_scores, Pd.has_column, Py.mem, Pd.getitem, Py.item,
    Pd.index.
  now rewrite (Hg field Hf), Hn.
Qed.

Lemma assemble_agree (a b : DataFrame) (w : Py.dict Q)
  (rubric : Py.dict (Py.dict Q)) (env : list float) :
  agree a b ->
  assemble_raw_scores a w rubric env = assemble_raw_scores b w rubric env.
Proof.
  intros Hab. unfold assemble_raw_scores.
  rewrite (normalize_columns_agree a b col_map [] Hab).
  - rewrite !(categorical_scores_agree a b _ _ Hab)
      by (apply not_added; reflexivity).
    destruct Hab as (Hn & _). unfold Pd.index. now rewrite Hn.
  - intros kv Hkv. apply not_added. simpl in Hkv.
    repeat destruct Hkv as [<-|Hkv]; try reflexivity. destruct Hkv.
Qed.

(** X15.  Scoring is idempotent.  A call on the frame an earlier call with
    the same arguments returned gives a new frame equal to that frame: the
    four added columns take part in no detection and in no score. *)
Theorem calculate_idempotent (h h' : store) (df out : ref)
  (user_weights env_component_weights : option (Py.dict Q))
  (env_overall_weight : Q) (rubric : Py.dict (Py.dict Q)) :
  calculate_sustainability_scores df user_weights env_component_weights
    env_overall_weight rubric h = (Ok out, h') ->
  exists fr',
    nth_error h' out = Some fr'
    /\ calculate_sustainability_scores out user_weights
         env_component_weights env_overall_weight rubric h'
       = (Ok (List.length h'), h' ++ [fr']).
Proof.
  intros H.
  destruct (nth_error h df) as [fr0|] eqn:E0.
  2:{ unfold calculate_sustainability_scores, Store.bind, Store.copy in H.
      rewrite E0 in H. discriminate. }
  rewrite (calculate_run _ _ _ _ _ _ _ E0) in H.
  destruct (scoring_weights user_weights env_overall_weight) as [w|] eqn:Ew;
    [|discriminate].
  destruct (Py.mapM _ (Pd.index fr0)) as [env|] eqn:Eenv; [|discriminate].
  cbv zeta in H.
  set (fr1 := Pd.setitem fr0 "Env_Conditions" env) in *.
  destruct (assemble_raw_scores fr1 w rubric env) as [rs|] eqn:Ers;
    [|discriminate].
  set (raw := map (Np.round 3) rs) in *.
  set (fr2 := Pd.setitem fr1 "Raw_Score" raw) in *.
  set (fr3 := Pd.setitem fr2 "Sustainability_Z" (z_scores raw)) in *.
  set (fr4 := Pd.setitem fr3 "Sustainability_Z_Scaled"
                (z_scaled (z_scores raw))) in *.
  inversion H; subst out h'. clear H.
  exists fr4. split; [apply nth_error_app_last|].
  assert (agree fr0 fr1) as H01 by (apply agree_setitem; simpl; tauto).
  assert (agree fr1 fr4) as H14.
  { eapply agree_trans; [|eapply agree_trans];
      apply agree_setitem; simpl; tauto. }
  assert (agree fr0 fr4) as H04 by (eapply agree_trans; eauto).
  rewrite (calculate_run _ _ fr4) by apply nth_error_app_last.
  rewrite Ew.
  assert (Py.mapM (fun r => compute_env_condition_metric fr4 r
                              env_component_weights) (Pd.index fr4)
          = Ok env) as ->.
  { rewrite <- Eenv. unfold Pd.index.
    destruct H04 as (Hn & _). rewrite <- Hn.
    clear -H01 H14. generalize (seq 0 (Pd.nrows fr0)). intros l.
    induction l as [|r t IH]; [reflexivity|]. cbn [Py.mapM].
    rewrite IH, (compute_env_agree fr0 fr4 r); [reflexivity|].
    eapply agree_trans; eauto. }
  cbv zeta.
  assert (Pd.setitem fr4 "Env_Conditions" env = fr4) as ->.
  { unfold Pd.setitem. rewrite set_get_same; [now destruct fr4|].
    unfold fr4, fr3, fr2, fr1. simpl. now rewrite !get_set. }
  rewrite <- (assemble_agree fr1 fr4 w rubric env H14), Ers.
  fold raw.
  assert (Pd.setitem fr4 "Raw_Score" raw = fr4) as ->.
  { unfold Pd.setitem. rewrite set_get_same; [now destruct fr4|].
    unfold fr4, fr3, fr2. simpl. now rewrite !get_set. }
  assert (Pd.setitem fr4 "Sustainability_Z" (z_scores raw) = fr4) as ->.
  { unfold Pd.setitem. rewrite set_get_same; [now destruct fr4|].
    unfold fr4, fr3. simpl. now rewrite !get_set. }
  assert (Pd.setitem fr4 "Sustainability_Z_Scaled" (z_scaled (z_scores raw))
          = fr4) as ->.
  { unfold Pd.setitem. rewrite set_get_same; [now destruct fr4|].
    unfold fr4. simpl. now rewrite !get_set. }
  now rewrite length_app, Nat.add_1_r.
Qed.

End Agreement.

Lemma without_set {V} (k : string) (x : V) (d : Py.dict V) :
  without k (Py.set k x d) = without k d.
Proof.
  unfold without. induction d as [|[k' v'] t IH]; simpl.
  - now rewrite String.eqb_refl.
  - destruct (String.eqb k k') eqn:E; simpl.
    + rewrite String.eqb_sym, E. reflexivity.
    + rewrite String.eqb_sym, E. simpl. now rewrite IH.
Qed.

Lemma multisport_override_without (extra : Py.dict Q) :
  without "Env_Conditions" (multisport_override (Some extra))
  = without "Env_Conditions"
      (multisport_override (Some (without "Env_Conditions" extra))).
Proof.
  unfold multisport_override.
  set (m := fold_left (fun d kv => Py.set (fst kv) (snd kv) d) extra
                      base_override).
  assert (Py.mem "Env_Conditions" m = true) as Hm.
  { unfold Py.mem, m. rewrite get_fold_set.
    now destruct (last_binding "Env_Conditions" extra). }
  unfold Py.mem in Hm.
  destruct (Py.get "Env_Conditions" m) as [x|] eqn:Ex; [|discriminate].
  rewrite <- (set_get_same _ _ _ Ex). unfold m.
  rewrite set_fold_without by reflexivity.
  now rewrite without_set.
Qed.

Section MultisportCall.
Context {rt : Runtime}.

(** X18.  [expand_model_for_multisport] ignores what the extra weights
    say about [Env_Conditions]: with those entries removed, the scoring
    call does the same to the same store. *)
Theorem multisport_ignores_env_weight (h : store) (df : ref)
  (extra : Py.dict Q) (rubric : Py.dict (Py.dict Q)) :
  multisport_scores df (Some extra) rubric h
  = multisport_scores df (Some (without "Env_Conditions" extra)) rubric h.
Proof.
  unfold multisport_scores, calculate_sustainability_scores, scoring_weights.
  rewrite (overridden_weights_without (multisport_override (Some extra))).
  rewrite (overridden_weights_without
             (multisport_override (Some (without "Env_Conditions" extra)))).
  now rewrite multisport_override_without.
Qed.

End MultisportCall.

(** ** Frames without a recognized column *)

Lemma mapM_const {A B} (f : A -> res B) (l : list A) (y : B) :
  (forall x, In x l -> f x = Ok y) ->
  Py.mapM f l = Ok (repeat y (List.length l)).
Proof.
  induction l as [|a t IH]; intros H; simpl; [reflexivity|].
  rewrite (H a (or_introl eq_refl)), IH by (intros; apply H; now right).
  reflexivity.
Qed.

Lemma loc_repeat {A} (x : A) (n i : nat) :
  (i < n)%nat -> Pd.loc (repeat x n) i = Ok x.
Proof.
  intros H. unfold Pd.loc. now rewrite nth_error_repeat.
Qed.

Lemma round_proper (d : nat) (q q' : Q) :
  q == q' -> Np.round d (Fin q) = Np.round d (Fin q').
Proof.
  intros E. unfold Np.round, Np.rint.
  assert (Qfloor (q * Np.pow10 d) = Qfloor (q' * Np.pow10 d)) as Ef
    by (now rewrite E).
  rewrite Ef.
  assert (Qcompare (q * Np.pow10 d - inject_Z (Qfloor (q' * Np.pow10 d)))
                   (1 # 2)
          = Qcompare (q' * Np.pow10 d - inject_Z (Qfloor (q' * Np.pow10 d)))
                     (1 # 2)) as -> by (now rewrite E).
  reflexivity.
Qed.

Section Unrecognized.
Context {rt : Runtime} {laws : SqrtLaws rt}.

Lemma unrecognized_env (df : DataFrame) (row : nat)
  (ew : option (Py.dict Q)) :
  unrecognized df -> compute_env_condition_metric df row ew = Ok (Fin 50).
Proof.
  intros (Hn & Hw & Ha & Hc).
  unfold compute_env_condition_metric, env_components.
  rewrite (Hn "Renewable_Energy_Pct") by (simpl; tauto).
  rewrite Hw, Ha, Hc. cbn [Py.bind]. unfold env_score.
  assert (forall l : list string,
            filter (fun k => Py.mem k ([] : Py.dict float)) l = []) as ->
    by (induction l; simpl; auto).
  reflexivity.
Qed.

Lemma unrecognized_agree (a b : DataFrame) :
  agree a b -> unrecognized a -> unrecognized b.
Proof.
  intros (_ & Hg & Hf) (Hn & Hw & Ha & Hc). repeat split.
  - intros name Hin. rewrite <- (Hn name Hin).
    unfold Pd.has_column, Py.mem. rewrite Hg; [reflexivity|].
    apply not_added. simpl in Hin.
    repeat destruct Hin as [<-|Hin]; try reflexivity. destruct Hin.
  - rewrite <- Hw. symmetry. apply Hf. added_false.
  - rewrite <- Ha. symmetry. apply Hf. added_false.
  - rewrite <- Hc. symmetry. apply Hf. added_false.
Qed.

Lemma unrecognized_raw_score (df : DataFrame) (w : Py.dict Q)
  (rubric : Py.dict (Py.dict Q)) :
  unrecognized df ->
  let n := Pd.nrows df in
  let g k := Py.get_default k 0 w in
  assemble_raw_scores df w rubric (repeat (Fin 50) n)
  = Ok (repeat
          (Fin (0 + g "Stadium_Type" * 50 + g "Stadium_leed_cert" * 50
                + g "Waste_Management" * 50 + g "Future_Developments" * 50
                + g "Times_Hosted" * 50 + g "Last_Hosted_Year" * 50
                + g "Avg_Feb_Temp_F" * 50 + g "Alltransit_Score" * 50
                + g "Renewable_Energy_Pct" * 50 + g "Waste_Diversion_Pct" * 50
                + g "Green_Legacy_Projects" * 50
                + g "Carbon_Offset_Programs" * 50
                + g "Env_Conditions" * 50))
          n).
Proof.
  intros (Hn & _) n g. unfold assemble_raw_scores, categorical_scores.
  cbn [normalize_columns col_map].
  repeat (rewrite Hn by (simpl; tauto); cbn [Py.bind]).
  unfold Pd.full, Pd.index. rewrite length_seq. fold n.
  rewrite (mapM_const _ _ (Fin (0 + g "Stadium_Type" * 50
                + g "Stadium_leed_cert" * 50
                + g "Waste_Management" * 50 + g "Future_Developments" * 50
                + g "Times_Hosted" * 50 + g "Last_Hosted_Year" * 50
                + g "Avg_Feb_Temp_F" * 50 + g "Alltransit_Score" * 50
                + g "Renewable_Energy_Pct" * 50 + g "Waste_Diversion_Pct" * 50
                + g "Green_Legacy_Projects" * 50
                + g "Carbon_Offset_Programs" * 50
                + g "Env_Conditions" * 50))).
  - now rewrite length_seq.
  - intros idx Hidx. apply in_seq in Hidx.
    unfold raw_score, weighted_add.
    cbn [numeric_loop numeric_keys]. unfold weighted_add, Py.item.
    cbn [Py.get Py.set String.eqb Ascii.eqb Bool.eqb].
    repeat (rewrite loc_repeat by lia; cbn [Py.bind Np.add Np.mul Np.lift2]).
    reflexivity.
Qed.

Lemma default_total (e : Q) :
  Py.sum (Py.values (overridden_weights None e)) == (81 # 100) + e.
Proof.
  unfold Py.sum, Py.values, overridden_weights, apply_user_weights,
    builtin_weights.
  cbn [Py.set String.eqb Ascii.eqb Bool.eqb map snd fold_left]. ring.
Qed.

(** X16.  On a frame with no recognized column, whatever its number of
    rows, a call without user weights returns a frame in which every row
    has [Env_Conditions] 50, [Raw_Score] 50 (as rounded), [Sustainability_Z]
    0 and [Sustainability_Z_Scaled] 50, for every rubric, every map of
    subweights and every [env_overall_weight] other than -0.81. *)
Theorem unrecognized_frame_scores (h : store) (df : ref) (fr0 : DataFrame)
  (env_component_weights : option (Py.dict Q)) (env_overall_weight : Q)
  (rubric : Py.dict (Py.dict Q)) :
  nth_error h df = Some fr0 -> unrecognized fr0 ->
  ~ (81 # 100) + env_overall_weight == 0 ->
  let n := Pd.nrows fr0 in
  exists fr',
    calculate_sustainability_scores df None env_component_weights
      env_overall_weight rubric h = (Ok (List.length h), h ++ [fr'])
    /\ Pd.getitem fr' "Env_Conditions" = Ok (repeat (Num (Fin 50)) n)
    /\ Pd.getitem fr' "Raw_Score"
       = Ok (repeat (Num (Np.round 3 (Fin 50))) n)
    /\ Pd.getitem fr' "Sustainability_Z" = Ok (repeat (Num (Fin 0)) n)
    /\ Pd.getitem fr' "Sustainability_Z_Scaled"
       = Ok (repeat (Num (Fin 50)) n).
Proof.
  intros Hdf Hun He n. set (e := env_overall_weight) in *.
  set (pre := overridden_weights None e).
  set (total := Py.sum (Py.values pre)).
  assert (total == (81 # 100) + e) as Et by apply default_total.
  assert (~ total == 0) as Ht by (rewrite Et; exact He).
  assert (scoring_weights None e = Ok (Spec.scaled total pre)) as Ew.
  { apply (normalize_loop_scaled total pre [] Ht).
    apply overridden_weights_nodup. }
  rewrite (calculate_run _ _ _ _ _ _ _ Hdf), Ew.
  rewrite (mapM_const _ _ (Fin 50))
    by (intros; now apply unrecognized_env).
  assert (List.length (Pd.index fr0) = n) as ->
    by (unfold Pd.index; now rewrite length_seq).
  cbv zeta.
  set (fr1 := Pd.setitem fr0 "Env_Conditions" (repeat (Fin 50) n)).
  assert (unrecognized fr1) as Hun1.
  { apply (unrecognized_agree fr0); [|exact Hun].
    apply agree_setitem. simpl. tauto. }
  pose proof (unrecognized_raw_score fr1 (Spec.scaled total pre) rubric Hun1)
    as Hraw.
  cbv zeta in Hraw. change (Pd.nrows fr1) with n in Hraw. rewrite Hraw.
  rewrite map_repeat.
  match goal with
  | |- context [Np.round 3 (Fin ?q)] =>
      assert (q == 50) as Eq; [|rewrite (round_proper 3 q 50 Eq)]
  end.
  { unfold Py.get_default, Spec.scaled, pre, overridden_weights,
      apply_user_weights, builtin_weights.
    cbn [Py.set Py.get String.eqb Ascii.eqb Bool.eqb map fst snd].
    assert (e == total - (81 # 100)) as E' by lra.
    rewrite E'. field. exact Ht. }
  set (r := Np.round 3 (Fin 50)).
  assert (z_scores (repeat r n) = repeat (Fin 0) n) as Ez.
  { rewrite z_scores_degenerate; [now rewrite repeat_length|].
    intros x y Hx Hy. apply valid_In, repeat_spec in Hx, Hy.
    unfold r in Hx, Hy. simpl in Hx, Hy. inversion Hx. inversion Hy.
    reflexivity. }
  rewrite Ez. eexists. split; [reflexivity|].
  unfold Pd.getitem, Py.item, z_scaled. simpl Pd.columns.
  rewrite !get_set. cbn [String.eqb Ascii.eqb Bool.eqb].
  rewrite !map_repeat. repeat split; reflexivity.
Qed.

End Unrecognized.

(** ** The range of the scores *)

Lemma mapM_In {A B} (f : A -> res B) (l : list A) (l' : list B) (y : B) :
  Py.mapM f l = Ok l' -> In y l' -> exists x, In x l /\ f x = Ok y.
Proof.
  revert l'. induction l as [|a t IH]; simpl; intros l' E Hy.
  - inversion E; subst. destruct Hy.
  - destruct (f a) eqn:Fa; simpl in E; [|discriminate].
    destruct (Py.mapM f t) eqn:Ft; simpl in E; [|discriminate].
    inversion E; subst. destruct Hy as [<-|Hy].
    + exists a. tauto.
    + destruct (IH _ eq_refl Hy) as (x & Hx & Hfx). exists x. tauto.
Qed.

Lemma in_range_full (l : list nat) : in_range (Pd.full (Fin 50) l).
Proof.
  intros i o H. apply nth_error_In, repeat_spec in H. inversion H. lra.
Qed.

Lemma set_In {V} (k : string) (v : V) (d : Py.dict V) (k0 : string) (q : V) :
  In (k0, q) (Py.set k v d) -> (k0, q) = (k, v) \/ In (k0, q) d.
Proof.
  induction d as [|[k' v'] t IH]; simpl.
  - intros [H|[]]. left. now symmetry.
  - destruct (String.eqb_spec k k') as [->|_]; simpl.
    + intros [H|H]; [left; now symmetry|tauto].
    + intros [H|H]; [tauto|]. destruct (IH H); tauto.
Qed.

Lemma field_rubric_In (rubric : Py.dict (Py.dict Q)) (field k : string)
  (q : Q) :
  In (k, q) (field_rubric rubric field) ->
  exists table k', In (field, table) rubric /\ In (k', q) table.
Proof.
  unfold field_rubric. destruct rubric as [|x r]; [simpl; intros []|].
  cbv beta iota. set (rb := x :: r). unfold Py.get_default.
  match goal with
  | |- context [match ?g with Some _ => _ | None => _ end] =>
      destruct g as [table|] eqn:E
  end; [|simpl; intros []].
  apply get_In in E. intros H. exists table.
  assert (forall d,
            In (k, q) (fold_left
                         (fun d kv => Py.set (Py.lower (fst kv)) (snd kv) d)
                         table d) ->
            In (k, q) d \/ exists k', In (k', q) table) as Hf.
  { clear. induction table as [|[k1 v1] t IH]; intros d H; simpl in H;
      [now left|].
    apply IH in H as [H|(k' & H)].
    - apply set_In in H as [H|H]; [|now left].
      inversion H; subst. right. exists k1. now left.
    - right. exists k'. now right. }
  apply Hf in H as [H|(k' & H)]; [destruct H|]. eauto.
Qed.

Lemma sum_lookup_step (K : list string) (k0 : string) (v0 : Q)
  (g : string -> Q) :
  NoDup K -> 0 <= v0 -> (forall k, 0 <= g k) ->
  Py.sum (map (fun k => if String.eqb k k0 then v0 else g k) K)
  <= v0 + Py.sum (map g K).
Proof.
  intros Hnd Hv Hg. induction K as [|k K' IH].
  - unfold Py.sum. simpl. lra.
  - inversion Hnd as [|? ? Hn Hnd']; subst. cbn [map]. rewrite !sum_cons.
    destruct (String.eqb_spec k k0) as [->|Hne].
    + assert (Py.sum (map (fun k => if String.eqb k k0 then v0 else g k) K')
              == Py.sum (map g K')) as ->.
      { clear -Hn. induction K' as [|a t IH]; [reflexivity|].
        cbn [map]. rewrite !sum_cons.
        destruct (String.eqb_spec a k0) as [->|_]; [simpl in Hn; tauto|].
        rewrite IH; [reflexivity|]. simpl in Hn. tauto. }
      specialize (Hg k0). lra.
    + specialize (IH Hnd'). lra.
Qed.

Lemma sum_lookup_le (K : list string) (d : Py.dict Q) :
  NoDup K -> (forall k v, In (k, v) d -> 0 <= v) ->
  Py.sum (map (fun k => Py.get_default k 0 d) K) <= Py.sum (Py.values d).
Proof.
  intros Hnd. induction d as [|[k0 v0] t IH]; intros Hd.
  - rewrite sum_all_zero; [unfold Py.sum; simpl; lra|].
    intros x Hx. apply in_map_iff in Hx as (k & <- & _). reflexivity.
  - assert (forall k, 0 <= Py.get_default k 0 t) as Hg.
    { intros k. unfold Py.get_default.
      destruct (Py.get k t) eqn:E; [|lra].
      apply get_In in E. apply (Hd k). now right. }
    assert (0 <= v0) as Hv by (apply (Hd k0); now left).
    unfold Py.values. cbn [map snd]. rewrite sum_cons.
    fold (Py.values t).
    eapply Qle_trans; [|apply Qplus_le_r, IH; intros; eapply Hd; right; eauto].
    eapply Qle_trans; [|apply (sum_lookup_step K k0 v0 _ Hnd Hv Hg)].
    apply Qle_lteq. right.
    clear. induction K as [|k K' IH]; [reflexivity|].
    cbn [map]. rewrite !sum_cons, IH. unfold Py.get_default. simpl.
    destruct (String.eqb k k0); reflexivity.
Qed.

Lemma weighted_keys_nodup : NoDup weighted_keys.
Proof.
  assert (nodup string_dec weighted_keys = weighted_keys) as <-
    by reflexivity.
  apply NoDup_nodup.
Qed.

Lemma In_get_nodup {V} (k : string) (v : V) (d : Py.dict V) :
  NoDup (Py.keys d) -> In (k, v) d -> Py.get k d = Some v.
Proof.
  induction d as [|[k' v'] t IH]; simpl; intros Hnd Hin; [destruct Hin|].
  inversion Hnd as [|? ? Hn Hnd']; subst.
  destruct Hin as [H|H].
  - inversion H; subst. now rewrite String.eqb_refl.
  - destruct (String.eqb_spec k k') as [->|_]; [|now apply IH].
    exfalso. apply Hn. apply in_map_iff. exists (k', v). tauto.
Qed.

Lemma weighted_add_step (w : Py.dict Q) (key : string) (scores : list float)
  (idx : nat) (s : float) (a' : Q) :
  in_range scores -> 0 <= Py.get_default key 0 w ->
  weighted_add w key scores idx s = Ok (Fin a') ->
  exists a, s = Fin a /\ a <= a' <= a + 100 * Py.get_default key 0 w.
Proof.
  intros Hr Hw. unfold weighted_add, Pd.loc.
  destruct (nth_error scores idx) as [x|] eqn:Ex; [|discriminate].
  cbn [Py.bind]. destruct s as [a|], x as [o|]; cbn; try discriminate.
  intros H. inversion H; subst. exists a. split; [reflexivity|].
  destruct (Hr idx o Ex). nra.
Qed.

Lemma sum_app (a b : list Q) : Py.sum (a ++ b) == Py.sum a + Py.sum b.
Proof.
  induction a as [|x t IH]; simpl app.
  - unfold Py.sum at 2. simpl. lra.
  - rewrite !sum_cons, IH. lra.
Qed.

Lemma builtin_weights_nonneg (k : string) (v : Q) :
  In (k, v) builtin_weights -> 0 <= v.
Proof.
  unfold builtin_weights. simpl.
  intros H. repeat destruct H as [H|H]; inversion H; subst; lra.
Qed.

Lemma fold_set_In {V} (items d : Py.dict V) (k : string) (v : V) :
  In (k, v) (fold_left (fun d kv => Py.set (fst kv) (snd kv) d) items d) ->
  In (k, v) items \/ In (k, v) d.
Proof.
  revert d. induction items as [|[k1 v1] r IH]; intros d H; simpl in H;
    [now right|].
  apply IH in H as [H|H]; [left; now right|].
  apply set_In in H as [H|H]; [|now right].
  inversion H; subst. left. now left.
Qed.

Lemma overridden_weights_nonneg (uw : option (Py.dict Q)) (e : Q) :
  0 <= e -> (forall w k v, uw = Some w -> In (k, v) w -> 0 <= v) ->
  forall k v, In (k, v) (overridden_weights uw e) -> 0 <= v.
Proof.
  intros He Hu k v H. unfold overridden_weights, apply_user_weights in H.
  apply set_In in H as [H|H]; [inversion H; now subst|].
  destruct uw as [w|]; [|now apply builtin_weights_nonneg in H].
  apply fold_set_In in H as [H|H].
  - eapply Hu; eauto.
  - now apply builtin_weights_nonneg in H.
Qed.

Section Ranges.
Context {rt : Runtime}.

(** A call that returns, with what it computed on the way. *)
Lemma calculate_trace (h h' : store) (df out : ref)
  (user_weights env_component_weights : option (Py.dict Q))
  (env_overall_weight : Q) (rubric : Py.dict (Py.dict Q)) :
  calculate_sustainability_scores df user_weights env_component_weights
    env_overall_weight rubric h = (Ok out, h') ->
  exists fr0 w env rs,
    nth_error h df = Some fr0
    /\ scoring_weights user_weights env_overall_weight = Ok w
    /\ Py.mapM (fun r => compute_env_condition_metric fr0 r
                           env_component_weights) (Pd.index fr0) = Ok env
    /\ assemble_raw_scores (Pd.setitem fr0 "Env_Conditions" env) w rubric env
       = Ok rs
    /\ out = List.length h
    /\ h' = h ++ [Pd.setitem
                    (Pd.setitem
                       (Pd.setitem (Pd.setitem fr0 "Env_Conditions" env)
                          "Raw_Score" (map (Np.round 3) rs))
                       "Sustainability_Z" (z_scores (map (Np.round 3) rs)))
                    "Sustainability_Z_Scaled"
                    (z_scaled (z_scores (map (Np.round 3) rs)))].
Proof.
  intros H. destruct (nth_error h df) as [fr0|] eqn:E.
  - rewrite (calculate_run _ _ _ _ _ _ _ E) in H.
    destruct (scoring_weights _ _) as [w|] eqn:Ew; [|discriminate].
    destruct (Py.mapM _ _) as [env|] eqn:Eenv; [|discriminate].
    cbv zeta in H.
    destruct (assemble_raw_scores _ _ _ _) as [rs|] eqn:Ers; [|discriminate].
    inversion H; subst. now exists fr0, w, env, rs.
  - unfold calculate_sustainability_scores, Store.bind, Store.copy in H.
    rewrite E in H. discriminate.
Qed.

Lemma env_conditions_in_range (fr0 : DataFrame) (ew : option (Py.dict Q))
  (env : list float) :
  (forall w k v, ew = Some w -> Py.get k w = Some v -> 0 <= v) ->
  Py.mapM (fun r => compute_env_condition_metric fr0 r ew) (Pd.index fr0)
  = Ok env ->
  in_range env.
Proof.
  intros Hw H i o Hi. apply nth_error_In in Hi.
  destruct (mapM_In _ _ _ _ H Hi) as (r & _ & Hr).
  eapply compute_env_range; eauto.
Qed.

Lemma rubric_score_range (rubric : Py.dict (Py.dict Q)) (field : string)
  (v : cell) (q : Q) :
  rubric_in_range rubric ->
  _map_with_rubric v (field_rubric rubric field) = Some q -> 0 <= q <= 100.
Proof.
  intros Hr H. apply map_with_rubric_entry in H as (k & H).
  apply field_rubric_In in H as (table & k' & Ht & Hk). eapply Hr; eauto.
Qed.

Lemma categorical_in_range (df : DataFrame) (field : string)
  (f : cell -> float) (col : list float) :
  (forall v o, f v = Fin o -> 0 <= o <= 100) ->
  categorical_scores df field f = Ok col -> in_range col.
Proof.
  intros Hf. unfold categorical_scores.
  destruct (Pd.has_column field df).
  - destruct (Pd.getitem df field) as [c|]; simpl; [|discriminate].
    intros H. inversion H; subst. intros i o Hi.
    rewrite nth_error_map in Hi. destruct (nth_error c i); [|discriminate].
    simpl in Hi. inversion Hi. eauto.
  - intros H. inversion H; subst. apply in_range_full.
Qed.

Lemma normalize_columns_in_range (df : DataFrame)
  (items : list (string * (string * bool)))
  (acc nc : Py.dict (list float)) :
  (forall k col, Py.get k acc = Some col -> in_range col) ->
  normalize_columns df items acc = Ok nc ->
  forall k col, Py.get k nc = Some col -> in_range col.
Proof.
  revert acc. induction items as [|[key [c hb]] r IH]; intros acc Ha H.
  - simpl in H. inversion H; now subst.
  - cbn [normalize_columns] in H.
    match type of H with
    | Py.bind ?m _ = _ => destruct m as [n|] eqn:En
    end; [|discriminate].
    cbn [Py.bind] in H. apply (IH (Py.set key n acc)); [|exact H].
    intros k col Hk. rewrite get_set in Hk.
    destruct (String.eqb k key); [|now apply (Ha k)].
    inversion Hk; subst col.
    destruct (Pd.has_column c df).
    + destruct (Pd.getitem df c) as [s|]; simpl in En; [|discriminate].
      intros i o Hi. eapply minmax_entry_range; eauto.
    + inversion En; subst. apply in_range_full.
Qed.

Lemma numeric_loop_range (w : Py.dict Q) (nc : Py.dict (list float))
  (ks : list string) (idx : nat) :
  (forall k, 0 <= Py.get_default k 0 w) ->
  (forall k col, Py.get k nc = Some col -> in_range col) ->
  forall s a',
    numeric_loop w nc ks idx s = Ok (Fin a') ->
    exists a, s = Fin a
      /\ a <= a'
         <= a + 100 * Py.sum (map (fun k => Py.get_default k 0 w) ks).
Proof.
  intros Hw Hn. induction ks as [|k t IH]; intros s a' H.
  - simpl in H. inversion H; subst. exists a'. split; [reflexivity|].
    unfold Py.sum. simpl. lra.
  - cbn [numeric_loop] in H. unfold Py.item in H.
    destruct (Py.get k nc) as [col|] eqn:Ec; [|discriminate].
    cbn [Py.bind] in H.
    destruct (weighted_add w k col idx s) as [s1|] eqn:E1; [|discriminate].
    cbn [Py.bind] in H. apply IH in H as (a1 & -> & H1).
    apply weighted_add_step in E1 as (a & -> & H0); eauto.
    exists a. split; [reflexivity|]. cbn [map]. rewrite sum_cons.
    specialize (Hw k). lra.
Qed.

Lemma raw_score_in_range (w : Py.dict Q)
  (stadium leed waste future : list float) (nc : Py.dict (list float))
  (env : list float) (idx : nat) (x : Q) :
  (forall k, 0 <= Py.get_default k 0 w) ->
  Py.sum (map (fun k => Py.get_default k 0 w) weighted_keys) <= 1 ->
  in_range stadium -> in_range leed -> in_range waste -> in_range future ->
  (forall k col, Py.get k nc = Some col -> in_range col) -> in_range env ->
  raw_score w stadium leed waste future nc env idx = Ok (Fin x) ->
  0 <= x <= 100.
Proof.
  intros Hw Hs H1 H2 H3 H4 Hn He H. unfold raw_score in H.
  destruct (weighted_add w "Stadium_Type" stadium idx (Fin 0)) as [s1|] eqn:E1;
    [|discriminate]. cbn [Py.bind] in H.
  destruct (weighted_add w "Stadium_leed_cert" leed idx s1) as [s2|] eqn:E2;
    [|discriminate]. cbn [Py.bind] in H.
  destruct (weighted_add w "Waste_Management" waste idx s2) as [s3|] eqn:E3;
    [|discriminate]. cbn [Py.bind] in H.
  destruct (weighted_add w "Future_Developments" future idx s3) as [s4|]
    eqn:E4; [|discriminate]. cbn [Py.bind] in H.
  destruct (numeric_loop w nc numeric_keys idx s4) as [s5|] eqn:E5;
    [|discriminate]. cbn [Py.bind] in H.
  destruct (weighted_add w "Env_Conditions" env idx s5) as [s6|] eqn:E6;
    [|discriminate]. cbn [Py.bind] in H.
  inversion H; subst s6. clear H.
  apply weighted_add_step in E6 as (a5 & -> & B6); auto.
  apply numeric_loop_range in E5 as (a4 & -> & B5); auto.
  apply weighted_add_step in E4 as (a3 & -> & B4); auto.
  apply weighted_add_step in E3 as (a2 & -> & B3); auto.
  apply weighted_add_step in E2 as (a1 & -> & B2); auto.
  apply weighted_add_step in E1 as (a0 & E0 & B1); auto.
  inversion E0; subst a0.
  unfold weighted_keys in Hs. rewrite !map_app, !sum_app in Hs.
  cbn [map] in Hs. rewrite !sum_cons in Hs.
  change (Py.sum []) with 0 in Hs.
  pose proof (Hw "Stadium_Type"). pose proof (Hw "Stadium_leed_cert").
  pose proof (Hw "Waste_Management"). pose proof (Hw "Future_Developments").
  pose proof (Hw "Env_Conditions").
  lra.
Qed.

End Ranges.

Lemma scoring_weights_shares (uw : option (Py.dict Q)) (e : Q)
  (w : Py.dict Q) :
  0 <= e -> (forall d k v, uw = Some d -> In (k, v) d -> 0 <= v) ->
  scoring_weights uw e = Ok w ->
  (forall k v, In (k, v) w -> 0 <= v)
  /\ (forall k, 0 <= Py.get_default k 0 w)
  /\ Py.sum (map (fun k => Py.get_default k 0 w) weighted_keys) <= 1.
Proof.
  intros He Hu H.
  set (pre := overridden_weights uw e) in *.
  set (total := Py.sum (Py.values pre)).
  pose proof (overridden_weights_nonneg uw e He Hu) as Hpre. fold pre in Hpre.
  assert (0 <= total) as Hge.
  { apply sum_nonneg. intros v Hv. apply in_map_iff in Hv as ([k v'] & <- & Hin).
    eapply Hpre; eauto. }
  destruct (Qeq_dec total 0) as [Hz|Hnz].
  { unfold scoring_weights in H. fold pre in H. fold total in H.
    rewrite normalize_loop_zero in H; [discriminate| |exact Hz].
    intro E. apply (f_equal (Py.get "Env_Conditions")) in E.
    unfold pre, overridden_weights in E. rewrite get_set_same in E.
    discriminate. }
  assert (scoring_weights uw e = Ok (Spec.scaled total pre)) as Hok.
  { apply (normalize_loop_scaled total pre [] Hnz).
    apply overridden_weights_nodup. }
  rewrite Hok in H. inversion H; subst w. clear H Hok.
  assert (forall k v, In (k, v) (Spec.scaled total pre) -> 0 <= v) as Hw.
  { intros k v Hin. unfold Spec.scaled in Hin.
    apply in_map_iff in Hin as ([k0 v0] & E & Hin). inversion E; subst.
    simpl. apply Qle_shift_div_l; [lra|]. rewrite Qmult_0_l.
    eapply Hpre; eauto. }
  split; [exact Hw|]. split.
  - intros k. unfold Py.get_default.
    destruct (Py.get k (Spec.scaled total pre)) as [v|] eqn:E; [|lra].
    apply get_In in E. eapply Hw; eauto.
  - eapply Qle_trans; [apply sum_lookup_le; [apply weighted_keys_nodup|exact Hw]|].
    unfold Spec.scaled, Py.values. rewrite map_map. simpl.
    rewrite <- (map_map snd (fun v => v / total)), sum_map_div.
    fold (Py.values pre). fold total. apply Qle_lteq. right. field. exact Hnz.
Qed.

Section ScoreRanges.
Context {rt : Runtime}.

Lemma assemble_in_range (df : DataFrame) (w : Py.dict Q)
  (rubric : Py.dict (Py.dict Q)) (env rs : list float) :
  (forall k, 0 <= Py.get_default k 0 w) ->
  Py.sum (map (fun k => Py.get_default k 0 w) weighted_keys) <= 1 ->
  rubric_in_range rubric -> in_range env ->
  assemble_raw_scores df w rubric env = Ok rs -> in_range rs.
Proof.
  intros Hw Hs Hr He H. unfold assemble_raw_scores in H.
  destruct (normalize_columns df col_map []) as [nc|] eqn:En; [|discriminate].
  cbn [Py.bind] in H.
  destruct (categorical_scores df "Stadium_Type" _) as [c1|] eqn:E1;
    [|discriminate]. cbn [Py.bind] in H.
  destruct (categorical_scores df "Stadium_leed_cert" _) as [c2|] eqn:E2;
    [|discriminate]. cbn [Py.bind] in H.
  destruct (categorical_scores df "Waste_Management" _) as [c3|] eqn:E3;
    [|discriminate]. cbn [Py.bind] in H.
  destruct (categorical_scores df "Future_Developments" _) as [c4|] eqn:E4;
    [|discriminate]. cbn [Py.bind] in H.
  intros i o Hi. apply nth_error_In in Hi.
  destruct (mapM_In _ _ _ _ H Hi) as (idx & _ & Hidx).
  apply (raw_score_in_range w c1 c2 c3 c4 nc env idx o Hw Hs);
    [| | | | |exact He|exact Hidx].
  - eapply categorical_in_range; [|exact E1].
    intros v o'. unfold _stad_map.
    destruct (_map_with_rubric v _) eqn:Em.
    + intros E. inversion E; subst. eapply rubric_score_range; eauto.
    + destruct (Py.str_in _ _); intros E; inversion E; lra.
  - eapply categorical_in_range; [|exact E2].
    intros v o'. unfold _map_leed.
    destruct (_map_with_rubric v _) eqn:Em.
    + intros E. inversion E; subst. eapply rubric_score_range; eauto.
    + repeat match goal with
             | |- context [if ?b then _ else _] => destruct b
             end; intros E; inversion E; lra.
  - eapply categorical_in_range; [|exact E3].
    intros v o'. unfold _map_waste.
    destruct (_map_with_rubric v _) eqn:Em.
    + intros E. inversion E; subst. eapply rubric_score_range; eauto.
    + intros E; inversion E; lra.
  - eapply categorical_in_range; [|exact E4].
    intros v o'. unfold _map_future.
    destruct (_map_with_rubric v _) eqn:Em.
    + intros E. inversion E; subst. eapply rubric_score_range; eauto.
    + intros E; inversion E; lra.
  - eapply normalize_columns_in_range; [|exact En]. intros k col Hk.
    discriminate Hk.
Qed.

(** X13.  With subweights that are not negative (the built-in ones are
    not), every number [compute_env_condition_metric] returns lies in
    [0,100], rounding included, and so does every number of the
    [Env_Conditions] column of the frame a call returns. *)
Theorem env_conditions_range
  (env_component_weights : option (Py.dict Q)) :
  (forall w k v, env_component_weights = Some w ->
                 Py.get k w = Some v -> 0 <= v) ->
  (forall df row x,
      compute_env_condition_metric df row env_component_weights = Ok (Fin x) ->
      0 <= x <= 100)
  /\ forall h h' df out user_weights env_overall_weight rubric fr' env,
       calculate_sustainability_scores df user_weights env_component_weights
         env_overall_weight rubric h = (Ok out, h') ->
       nth_error h' out = Some fr' ->
       Pd.getitem fr' "Env_Conditions" = Ok (map Num env) ->
       in_range env.
Proof.
  intros Hw. split.
  - intros df row x. now apply compute_env_range.
  - intros h h' df out uw e rubric fr' env Hrun Hout Henv.
    apply calculate_trace in Hrun
      as (fr0 & w & env0 & rs & _ & _ & Hm & _ & -> & ->).
    rewrite nth_error_app_last in Hout. inversion Hout; subst fr'.
    unfold Pd.getitem, Py.item in Henv. simpl Pd.columns in Henv.
    rewrite !get_set in Henv. simpl in Henv. inversion Henv as [E].
    apply map_Num_inj in E. subst env0.
    eapply env_conditions_in_range; eauto.
Qed.

(** X17.  When no user weight, no subweight and not the environment
    weight is negative and every score of the rubric lies in [0,100], every
    number of the [Raw_Score] column of the frame a call returns lies in
    [0,100]. *)
Theorem raw_score_range (h h' : store) (df out : ref)
  (user_weights env_component_weights : option (Py.dict Q))
  (env_overall_weight : Q) (rubric : Py.dict (Py.dict Q))
  (fr' : DataFrame) (raw : list float) :
  calculate_sustainability_scores df user_weights env_component_weights
    env_overall_weight rubric h = (Ok out, h') ->
  nth_error h' out = Some fr' ->
  Pd.getitem fr' "Raw_Score" = Ok (map Num raw) ->
  0 <= env_overall_weight ->
  (forall w k v, user_weights = Some w -> In (k, v) w -> 0 <= v) ->
  (forall w k v, env_component_weights = Some w ->
                 Py.get k w = Some v -> 0 <= v) ->
  rubric_in_range rubric ->
  in_range raw.
Proof.
  intros Hrun Hout Hraw He Hu Hw Hr.
  apply calculate_trace in Hrun
    as (fr0 & w & env & rs & _ & Hsw & Hm & Hrs & -> & ->).
  rewrite nth_error_app_last in Hout. inversion Hout; subst fr'.
  unfold Pd.getitem, Py.item in Hraw. simpl Pd.columns in Hraw.
  rewrite !get_set in Hraw. simpl in Hraw. inversion Hraw as [E].
  apply map_Num_inj in E. subst raw.
  destruct (scoring_weights_shares _ _ _ He Hu Hsw) as (_ & Hg & Hs).
  assert (in_range rs) as Hin.
  { eapply assemble_in_range; eauto.
    eapply env_conditions_in_range; eauto. }
  intros i o Hi. rewrite nth_error_map in Hi.
  destruct (nth_error rs i) as [[q|]|] eqn:Eq; try discriminate.
  cbn [option_map] in Hi. inversion Hi as [Hi']. clear Hi.
  assert (inject_Z 0 <= q <= inject_Z 100) as Hq by (eapply Hin; eauto).
  exact (round_range 0 100 3 q _ Hq eq_refl).
Qed.

End ScoreRanges.

(** ** Frames without missing numbers *)

Lemma no_nan_repeat (q : Q) (n : nat) : no_nan (repeat (Fin q) n).
Proof.
  intros x Hx. apply repeat_spec in Hx. eauto.
Qed.

Lemma no_nan_map (f : float -> float) (l : list float) :
  (forall x, In x l -> exists q, f x = Fin q) -> no_nan (map f l).
Proof.
  intros H y Hy. apply in_map_iff in Hy as (x & <- & Hx). now apply H.
Qed.

Lemma loc_no_nan (col : list float) (i : nat) (x : float) :
  no_nan col -> Pd.loc col i = Ok x -> exists q, x = Fin q.
Proof.
  intros Hc. unfold Pd.loc. destruct (nth_error col i) eqn:E; [|discriminate].
  intros H. inversion H; subst. apply Hc. eapply nth_error_In; eauto.
Qed.

Section Complete.
Context {rt : Runtime}.

Lemma astype_complete (col : Series) (s : list float) :
  complete col -> Pd.astype_float col = Ok s -> no_nan s.
Proof.
  intros Hc H x Hx. unfold Pd.astype_float in H.
  destruct (mapM_In _ _ _ _ H Hx) as (c & Hin & Hf).
  destruct (Hc c Hin) as [q Hq]. rewrite Hq in Hf. inversion Hf. eauto.
Qed.

Lemma no_nan_valid (s : list float) (v : Q) :
  In (Fin v) s -> In v (Pd.valid s).
Proof.
  induction s as [|[q|] t IH]; simpl; [tauto| |].
  - intros [H|H]; [inversion H; now left|right; now apply IH].
  - intros [H|H]; [discriminate|now apply IH].
Qed.

Lemma minmax_no_nan (col : Series) (hib : bool) (out : list float) :
  complete col -> _minmax_normalize col hib = Ok out -> no_nan out.
Proof.
  intros Hc H. pose proof (minmax_normalize_outcome col hib) as Ho.
  rewrite H in Ho. inversion Ho as [E|s mn mx Hs Hmn Hmx Hlt Hb E|]; subst.
  - apply no_nan_repeat.
  - apply no_nan_map. intros x Hx.
    destruct (astype_complete _ _ Hc Hs x Hx) as [v ->].
    destruct (scaled_value_range mn mx v hib Hlt) as (o & Ho' & _).
    { apply Hb. now apply no_nan_valid. }
    eauto.
Qed.

Lemma normalized_at_fin (df : DataFrame) (name : string) (hib : bool)
  (row : nat) (x : float) :
  (forall col, Py.get name (Pd.columns df) = Some col -> complete col) ->
  normalized_at df name hib row = Ok x -> exists q, x = Fin q.
Proof.
  intros Hc. unfold normalized_at, Pd.getitem, Py.item.
  destruct (Py.get name (Pd.columns df)) as [col|] eqn:E; [|discriminate].
  cbn [Py.bind].
  destruct (_minmax_normalize col hib) as [norm|] eqn:En; [|discriminate].
  cbn [Py.bind]. apply loc_no_nan. eapply minmax_no_nan; eauto.
Qed.

Lemma env_components_fin (df : DataFrame) (row : nat)
  (components : Py.dict float) :
  (forall name col, Py.get name (Pd.columns df) = Some col ->
                    numeric_input df name -> complete col) ->
  env_components df row = Ok components ->
  forall k c, Py.get k components = Some c -> exists q, c = Fin q.
Proof.
  intros Hc H k c Hk. unfold env_components in H.
  assert (forall name hib x,
            numeric_input df name ->
            normalized_at df name hib row = Ok x -> exists q, x = Fin q)
    as Hn.
  { intros name hib x Hin. apply normalized_at_fin.
    intros col Hcol. eapply Hc; eauto. }
  assert (numeric_input df "Renewable_Energy_Pct") as Hr
    by (left; simpl; tauto).
  unfold numeric_input in Hn, Hr.
  destruct (Pd.has_column "Renewable_Energy_Pct" df);
    [destruct (normalized_at df "Renewable_Energy_Pct" true row) eqn:E1;
       [|discriminate]|];
    (destruct (water_cols df) as [|wc ?];
       [|destruct (normalized_at df wc true row) eqn:E2; [|discriminate]]);
    (destruct (air_cols df) as [|ac ?];
       [|destruct (normalized_at df ac false row) eqn:E3; [|discriminate]]);
    (destruct (carbon_cols df) as [|cc ?];
       [|destruct (normalized_at df cc false row) eqn:E4; [|discriminate]]);
    cbn [Py.bind] in H; inversion H; subst; clear H;
    cbn [Py.get] in Hk;
    repeat match type of Hk with
           | context [String.eqb k ?x] =>
               destruct (String.eqb k x);
               [inversion Hk; subst; eapply Hn; [|eassumption];
                first [exact Hr | right; left; reflexivity
                      | right; right; left; reflexivity
                      | right; right; right; reflexivity]|]
           end;
    discriminate Hk.
Qed.

Lemma env_score_loop_fin (weights : Py.dict Q) (components : Py.dict float)
  (total : Q) (ks : list string) :
  (forall k c, Py.get k components = Some c -> exists q, c = Fin q) ->
  forall a x,
    env_score_loop weights components total ks (Fin a) = Ok x ->
    exists q, x = Fin q.
Proof.
  intros Hc. induction ks as [|k t IH]; intros a x H.
  - simpl in H. inversion H. eauto.
  - cbn [env_score_loop] in H.
    destruct (Py.item k weights); [|discriminate]. cbn [Py.bind] in H.
    destruct (Py.div _ total); [|discriminate]. cbn [Py.bind] in H.
    unfold Py.item in H.
    destruct (Py.get k components) as [c|] eqn:Ec; [|discriminate].
    cbn [Py.bind] in H. destruct (Hc k c Ec) as [q ->].
    cbn [Np.mul Np.add Np.lift2] in H. eapply IH; eauto.
Qed.

Lemma compute_env_fin (df : DataFrame) (row : nat)
  (ew : option (Py.dict Q)) (x : float) :
  (forall name col, Py.get name (Pd.columns df) = Some col ->
                    numeric_input df name -> complete col) ->
  compute_env_condition_metric df row ew = Ok x -> exists q, x = Fin q.
Proof.
  intros Hc. unfold compute_env_condition_metric.
  destruct (env_components df row) as [components|] eqn:Ec; [|discriminate].
  cbn [Py.bind]. unfold env_score.
  destruct (filter _ _) as [|k t]; [intros H; inversion H; eauto|].
  destruct (Py.mapM _ (k :: t)) as [ws|]; [|discriminate]. cbn [Py.bind].
  destruct (env_score_loop _ components (Py.sum ws) (k :: t) (Fin 0))
    as [score|] eqn:El; [|discriminate].
  cbn [Py.bind]. intros H. inversion H; subst.
  apply env_score_loop_fin in El as [q ->]; [simpl; eauto|].
  eapply env_components_fin; eauto.
Qed.

Lemma weighted_add_fin (w : Py.dict Q) (key : string) (scores : list float)
  (idx : nat) (a : Q) (s' : float) :
  no_nan scores -> weighted_add w key scores idx (Fin a) = Ok s' ->
  exists q, s' = Fin q.
Proof.
  intros Hs. unfold weighted_add.
  destruct (Pd.loc scores idx) as [x|] eqn:E; [|discriminate].
  destruct (loc_no_nan _ _ _ Hs E) as [o ->]. cbn. intros H. inversion H.
  eauto.
Qed.

Lemma numeric_loop_fin (w : Py.dict Q) (nc : Py.dict (list float))
  (ks : list string) (idx : nat) :
  (forall k col, Py.get k nc = Some col -> no_nan col) ->
  forall a s', numeric_loop w nc ks idx (Fin a) = Ok s' ->
               exists q, s' = Fin q.
Proof.
  intros Hn. induction ks as [|k t IH]; intros a s' H.
  - simpl in H. inversion H. eauto.
  - cbn [numeric_loop] in H. unfold Py.item in H.
    destruct (Py.get k nc) as [col|] eqn:Ec; [|discriminate].
    cbn [Py.bind] in H.
    destruct (weighted_add w k col idx (Fin a)) as [s1|] eqn:E1;
      [|discriminate].
    cbn [Py.bind] in H.
    apply weighted_add_fin in E1 as [q ->]; [|eapply Hn; eauto].
    eapply IH; eauto.
Qed.

Lemma categorical_no_nan (df : DataFrame) (field : string)
  (f : cell -> float) (col : list float) :
  (forall v, exists q, f v = Fin q) ->
  categorical_scores df field f = Ok col -> no_nan col.
Proof.
  intros Hf. unfold categorical_scores.
  destruct (Pd.has_column field df).
  - destruct (Pd.getitem df field) as [c|]; simpl; [|discriminate].
    intros H. inversion H; subst. intros x Hx.
    apply in_map_iff in Hx as (v & <- & _). apply Hf.
  - intros H. inversion H; subst. apply no_nan_repeat.
Qed.
End Complete.

Lemma z_scores_no_nan `{Runtime} (raw : list float) :
  no_nan raw -> no_nan (z_scores raw).
Proof.
  intros Hr. unfold z_scores, Pd.std.
  destruct (Pd.var raw) as [v|] eqn:Ev; [|apply no_nan_repeat].
  cbn [Np.eqb Np.isnan]. rewrite orb_false_r.
  destruct (Qeq_bool (np_sqrt v) 0) eqn:Es; [apply no_nan_repeat|].
  assert (Pd.valid raw <> []) as Hv.
  { unfold Pd.var in Ev. destruct (Pd.valid raw); [discriminate|congruence]. }
  rewrite (mean_valid raw Hv). apply no_nan_map. intros x Hx.
  destruct (Hr x Hx) as [a ->]. cbn [Np.sub Np.div Np.lift2]. rewrite Es.
  eauto.
Qed.

Lemma z_scaled_no_nan (z : list float) : no_nan z -> no_nan (z_scaled z).
Proof.
  intros Hz. apply no_nan_map. intros x Hx. destruct (Hz x Hx) as [a ->].
  simpl. eauto.
Qed.

Lemma round_no_nan (d : nat) (l : list float) :
  no_nan l -> no_nan (map (Np.round d) l).
Proof.
  intros Hl. apply no_nan_map. intros x Hx. destruct (Hl x Hx) as [a ->].
  simpl. eauto.
Qed.

Section CompleteFrames.
Context {rt : Runtime}.

Lemma normalize_columns_no_nan (df : DataFrame)
  (items : list (string * (string * bool)))
  (acc nc : Py.dict (list float)) :
  (forall key c hb col, In (key, (c, hb)) items ->
                        Py.get c (Pd.columns df) = Some col -> complete col) ->
  (forall k col, Py.get k acc = Some col -> no_nan col) ->
  normalize_columns df items acc = Ok nc ->
  forall k col, Py.get k nc = Some col -> no_nan col.
Proof.
  revert acc. induction items as [|[key [c hb]] r IH]; intros acc Hc Ha H.
  - simpl in H. inversion H; now subst.
  - cbn [normalize_columns] in H.
    match type of H with
    | Py.bind ?m _ = _ => destruct m as [n|] eqn:En
    end; [|discriminate].
    cbn [Py.bind] in H. apply (IH (Py.set key n acc)); [| |exact H].
    + intros key' c' hb' col Hin. apply (Hc key' c' hb'). now right.
    + intros k col Hk. rewrite get_set in Hk.
      destruct (String.eqb k key); [|now apply (Ha k)].
      inversion Hk; subst col.
      destruct (Pd.has_column c df).
      * unfold Pd.getitem, Py.item in En.
        destruct (Py.get c (Pd.columns df)) as [s|] eqn:Es; simpl in En;
          [|discriminate].
        eapply minmax_no_nan; [|exact En].
        apply (Hc key c hb); [now left|exact Es].
      * inversion En; subst. apply no_nan_repeat.
Qed.

Lemma assemble_no_nan (df : DataFrame) (w : Py.dict Q)
  (rubric : Py.dict (Py.dict Q)) (env rs : list float) :
  (forall name col, Py.get name (Pd.columns df) = Some col ->
                    In name numeric_keys -> complete col) ->
  no_nan env ->
  assemble_raw_scores df w rubric env = Ok rs -> no_nan rs.
Proof.
  intros Hc He H. unfold assemble_raw_scores in H.
  destruct (normalize_columns df col_map []) as [nc|] eqn:En; [|discriminate].
  cbn [Py.bind] in H.
  destruct (categorical_scores df "Stadium_Type" _) as [c1|] eqn:E1;
    [|discriminate]. cbn [Py.bind] in H.
  destruct (categorical_scores df "Stadium_leed_cert" _) as [c2|] eqn:E2;
    [|discriminate]. cbn [Py.bind] in H.
  destruct (categorical_scores df "Waste_Management" _) as [c3|] eqn:E3;
    [|discriminate]. cbn [Py.bind] in H.
  destruct (categorical_scores df "Future_Developments" _) as [c4|] eqn:E4;
    [|discriminate]. cbn [Py.bind] in H.
  assert (no_nan c1) as H1.
  { eapply categorical_no_nan; [|exact E1]. intros v. unfold _stad_map.
    destruct (_map_with_rubric v _); [eauto|].
    destruct (Py.str_in _ _); eauto. }
  assert (no_nan c2) as H2.
  { eapply categorical_no_nan; [|exact E2]. intros v. unfold _map_leed.
    destruct (_map_with_rubric v _); [eauto|].
    repeat match goal with
           | |- context [if ?b then _ else _] => destruct b
           end; eauto. }
  assert (no_nan c3) as H3.
  { eapply categorical_no_nan; [|exact E3]. intros v. unfold _map_waste.
    destruct (_map_with_rubric v _); eauto. }
  assert (no_nan c4) as H4.
  { eapply categorical_no_nan; [|exact E4]. intros v. unfold _map_future.
    destruct (_map_with_rubric v _); eauto. }
  assert (forall k col, Py.get k nc = Some col -> no_nan col) as Hn.
  { eapply normalize_columns_no_nan; [| |exact En].
    - intros key c hb col Hin Hcol. apply (Hc c col Hcol).
      unfold col_map in Hin. simpl in Hin. simpl.
      repeat destruct Hin as [Hin|Hin];
        try (inversion Hin; subst; tauto); contradiction.
    - intros k col Hk. discriminate Hk. }
  intros x Hx. destruct (mapM_In _ _ _ _ H Hx) as (idx & _ & Hidx).
  unfold raw_score in Hidx.
  destruct (weighted_add w "Stadium_Type" c1 idx (Fin 0)) as [s1|] eqn:F1;
    [|discriminate]. cbn [Py.bind] in Hidx.
  apply weighted_add_fin in F1 as [a1 ->]; [|exact H1].
  destruct (weighted_add w "Stadium_leed_cert" c2 idx _) as [s2|] eqn:F2;
    [|discriminate]. cbn [Py.bind] in Hidx.
  apply weighted_add_fin in F2 as [a2 ->]; [|exact H2].
  destruct (weighted_add w "Waste_Management" c3 idx _) as [s3|] eqn:F3;
    [|discriminate]. cbn [Py.bind] in Hidx.
  apply weighted_add_fin in F3 as [a3 ->]; [|exact H3].
  destruct (weighted_add w "Future_Developments" c4 idx _) as [s4|]
    eqn:F4; [|discriminate]. cbn [Py.bind] in Hidx.
  apply weighted_add_fin in F4 as [a4 ->]; [|exact H4].
  destruct (numeric_loop w nc numeric_keys idx _) as [s5|] eqn:F5;
    [|discriminate]. cbn [Py.bind] in Hidx.
  apply numeric_loop_fin in F5 as [a5 ->]; [|exact Hn].
  destruct (weighted_add w "Env_Conditions" env idx _) as [s6|] eqn:F6;
    [|discriminate]. cbn [Py.bind] in Hidx.
  apply weighted_add_fin in F6 as [a6 ->]; [|exact He].
  inversion Hidx. eauto.
Qed.

(** X19.  A frame without missing numbers is scored without NaN.  When
    every cell of the numeric columns the pipeline reads (the eight numeric
    attributes and the first column found for water, air and carbon) holds
    a number, or a string that reads as one, none of the four columns the
    call adds holds NaN. *)
Theorem complete_frame_scores (h h' : store) (df out : ref)
  (user_weights env_component_weights : option (Py.dict Q))
  (env_overall_weight : Q) (rubric : Py.dict (Py.dict Q))
  (fr0 fr' : DataFrame) :
  calculate_sustainability_scores df user_weights env_component_weights
    env_overall_weight rubric h = (Ok out, h') ->
  nth_error h df = Some fr0 ->
  nth_error h' out = Some fr' ->
  (forall name col, Py.get name (Pd.columns fr0) = Some col ->
                    numeric_input fr0 name -> complete col) ->
  forall name, In name Spec.added_columns ->
    exists col, Pd.getitem fr' name = Ok (map Num col) /\ no_nan col.
Proof.
  intros Hrun Hin Hout Hc name Hname.
  apply calculate_trace in Hrun
    as (fr & w & env & rs & Hfr & _ & Hm & Hrs & -> & ->).
  rewrite Hin in Hfr. inversion Hfr; subst fr. clear Hfr.
  rewrite nth_error_app_last in Hout. inversion Hout; subst fr'. clear Hout.
  assert (no_nan env) as He.
  { intros x Hx. destruct (mapM_In _ _ _ _ Hm Hx) as (r & _ & Hr).
    eapply compute_env_fin; eauto. }
  rewrite <- (assemble_agree fr0) in Hrs
    by (apply agree_setitem; simpl; tauto).
  assert (no_nan rs) as Hr.
  { eapply assemble_no_nan; [|exact He|exact Hrs].
    intros n col Hcol Hn. apply (Hc n col Hcol). now left. }
  pose proof (round_no_nan 3 rs Hr) as Hraw.
  pose proof (z_scores_no_nan _ Hraw) as Hz.
  pose proof (z_scaled_no_nan _ Hz) as Hzs.
  unfold Pd.getitem, Py.item. simpl Pd.columns.
  simpl in Hname.
  destruct Hname as [<-|[<-|[<-|[<-|[]]]]]; rewrite !get_set; simpl;
    eexists; split; try reflexivity; assumption.
Qed.

End CompleteFrames.

(** * Further evaluations *)

Section MoreEvaluations.
Import EvalRuntime.
#[local] Existing Instance eval_runtime_laws.

Lemma minmax_normalize_shape_witness :
  exists out,
    _minmax_normalize [Num (Fin 60); Num (Fin 20); Null; Num (Fin 80)] true
    = Ok out
    /\ List.length out = 4%nat.
Proof.
  destruct (_minmax_normalize [Num (Fin 60); Num (Fin 20); Null; Num (Fin 80)]
              true) as [out|] eqn:E; [|vm_compute in E; discriminate].
  exists out. split; [reflexivity|].
  now destruct (minmax_normalize_shape _ _ _ E) as [-> _].
Defined.

Lemma minmax_normalize_affine_witness :
  exists out out',
    _minmax_normalize (map Num [Fin 0; NaN; Fin 100; Fin 37]) false = Ok out
    /\ _minmax_normalize
         (map Num (map (affine (9 # 5) 32) [Fin 0; NaN; Fin 100; Fin 37]))
         false = Ok out'
    /\ Forall2 feq out out'.
Proof.
  apply (minmax_normalize_affine (9 # 5) 32 [Fin 0; NaN; Fin 100; Fin 37]
           false).
  reflexivity.
Defined.

Lemma scaled_scores_mean_witness :
  let run := calculate_sustainability_scores 0%nat None None (4 # 10) []
               [Examples.make_sample_df] in
  exists fr' zs m,
    nth_error (snd run) 1 = Some fr'
    /\ Pd.getitem fr' "Sustainability_Z_Scaled" = Ok (map Num zs)
    /\ Pd.mean zs = Fin m /\ m == 50.
Proof.
  intros run.
  destruct (nth_error (snd run) 1) as [fr'|] eqn:Hfr;
    [|vm_compute in Hfr; discriminate].
  set (raw := map (Np.round 3)
                  [Fin (64482 # 1000); Fin (14463 # 1000); Fin (90909 # 1000)]).
  assert (Pd.getitem fr' "Raw_Score" = Ok (map Num raw)) as Hraw.
  { vm_compute in Hfr. inversion Hfr. vm_compute. reflexivity. }
  destruct (scaled_scores_mean [Examples.make_sample_df] (snd run) 0%nat
              1%nat None None (4 # 10) [] fr' raw)
    as (zs & m & Hzs & Hm & H50).
  - vm_compute. reflexivity.
  - exact Hfr.
  - exact Hraw.
  - discriminate.
  - intros v Hv. vm_compute in Hv. inversion Hv. vm_compute. discriminate.
  - exists fr', zs, m. auto.
Defined.

Lemma scaled_scores_monotone_witness :
  let run := calculate_sustainability_scores 0%nat None None (4 # 10) []
               [Examples.make_sample_df] in
  exists fr' zs za zb,
    nth_error (snd run) 1 = Some fr'
    /\ Pd.getitem fr' "Sustainability_Z_Scaled" = Ok (map Num zs)
    /\ nth_error zs 1 = Some (Fin za) /\ nth_error zs 0 = Some (Fin zb)
    /\ za <= zb.
Proof.
  intros run.
  destruct (nth_error (snd run) 1) as [fr'|] eqn:Hfr;
    [|vm_compute in Hfr; discriminate].
  set (raw := map (Np.round 3)
                  [Fin (64482 # 1000); Fin (14463 # 1000); Fin (90909 # 1000)]).
  assert (Pd.getitem fr' "Raw_Score" = Ok (map Num raw)) as Hraw.
  { vm_compute in Hfr. inversion Hfr. vm_compute. reflexivity. }
  destruct (scaled_scores_monotone [Examples.make_sample_df] (snd run) 0%nat
              1%nat None None (4 # 10) [] fr' raw 1 0
              (inject_Z 14463 / Np.pow10 3) (inject_Z 64482 / Np.pow10 3))
    as (zs & Hzs & za & zb & Ha & Hb & Hle & _).
  - vm_compute. reflexivity.
  - exact Hfr.
  - exact Hraw.
  - reflexivity.
  - reflexivity.
  - vm_compute. discriminate.
  - exists fr', zs, za, zb. auto.
Defined.

Lemma env_conditions_range_witness :
  exists x,
    compute_env_condition_metric Examples.make_sample_df 0 None = Ok (Fin x)
    /\ 0 <= x <= 100.
Proof.
  destruct (env_conditions_range None) as [Hf _]; [discriminate|].
  exists (inject_Z 6863 / Np.pow10 2). split; [reflexivity|].
  apply (Hf Examples.make_sample_df 0%nat). reflexivity.
Defined.

Lemma calculate_idempotent_witness :
  let run := calculate_sustainability_scores 0%nat None None (4 # 10) []
               [Examples.make_sample_df] in
  exists fr',
    nth_error (snd run) 1 = Some fr'
    /\ calculate_sustainability_scores 1%nat None None (4 # 10) [] (snd run)
       = (Ok 2%nat, snd run ++ [fr']).
Proof.
  intros run.
  destruct (calculate_idempotent [Examples.make_sample_df] (snd run) 0%nat
              1%nat None None (4 # 10) []) as (fr' & Hfr & Hrun).
  - vm_compute. reflexivity.
  - exists fr'. split; [exact Hfr|]. exact Hrun.
Defined.

Lemma unrecognized_frame_scores_witness :
  exists fr',
    calculate_sustainability_scores 0%nat None None (4 # 10) []
      [Examples.one_city_df] = (Ok 1%nat, [Examples.one_city_df; fr'])
    /\ Pd.getitem fr' "Raw_Score" = Ok [Num (Np.round 3 (Fin 50))]
    /\ Pd.getitem fr' "Sustainability_Z_Scaled" = Ok [Num (Fin 50)].
Proof.
  destruct (unrecognized_frame_scores [Examples.one_city_df] 0%nat
              Examples.one_city_df None (4 # 10) [])
    as (fr' & Hrun & _ & Hraw & _ & Hzs).
  - reflexivity.
  - repeat split; try reflexivity.
    intros name Hin. simpl in Hin.
    repeat destruct Hin as [<-|Hin]; try reflexivity. destruct Hin.
  - vm_compute. discriminate.
  - exists fr'. auto.
Defined.

Lemma raw_score_range_witness :
  let run := calculate_sustainability_scores 0%nat None None (4 # 10) []
               [Examples.make_sample_df] in
  exists fr' raw x,
    nth_error (snd run) 1 = Some fr'
    /\ Pd.getitem fr' "Raw_Score" = Ok (map Num raw)
    /\ nth_error raw 2 = Some (Fin x) /\ 0 <= x <= 100.
Proof.
  intros run.
  destruct (nth_error (snd run) 1) as [fr'|] eqn:Hfr;
    [|vm_compute in Hfr; discriminate].
  set (raw := map (Np.round 3)
                  [Fin (64482 # 1000); Fin (14463 # 1000); Fin (90909 # 1000)]).
  assert (Pd.getitem fr' "Raw_Score" = Ok (map Num raw)) as Hraw.
  { vm_compute in Hfr. inversion Hfr. vm_compute. reflexivity. }
  exists fr', raw, (inject_Z 90909 / Np.pow10 3).
  split; [reflexivity|]. split; [exact Hraw|]. split; [reflexivity|].
  apply (raw_score_range [Examples.make_sample_df] (snd run) 0%nat 1%nat
           None None (4 # 10) [] fr' raw) with (i := 2%nat).
  - vm_compute. reflexivity.
  - exact Hfr.
  - exact Hraw.
  - vm_compute. discriminate.
  - discriminate.
  - discriminate.
  - intros field table k q [].
  - reflexivity.
Defined.

Lemma complete_frame_scores_witness :
  let run := calculate_sustainability_scores 0%nat None None (4 # 10) []
               [Examples.make_sample_df] in
  exists fr' col,
    nth_error (snd run) 1 = Some fr'
    /\ Pd.getitem fr' "Raw_Score" = Ok (map Num col) /\ no_nan col.
Proof.
  intros run.
  destruct (nth_error (snd run) 1) as [fr'|] eqn:Hfr;
    [|vm_compute in Hfr; discriminate].
  destruct (complete_frame_scores [Examples.make_sample_df] (snd run) 0%nat
              1%nat None None (4 # 10) [] Examples.make_sample_df fr')
    with (name := "Raw_Score") as (col & Hcol & Hnn).
  - vm_compute. reflexivity.
  - reflexivity.
  - exact Hfr.
  - intros name col Hget Hni.
    assert (In name (numeric_keys
                     ++ ["Water_Score"; "Air_ug_m3"; "Carbon_Emissions"]))
      as Hname.
    { destruct Hni as [H|[H|[H|H]]];
        [apply in_or_app; now left| | |];
        vm_compute in H; inversion H; simpl; tauto. }
    simpl in Hname.
    repeat destruct Hname as [<-|Hname]; try contradiction;
      vm_compute in Hget; inversion Hget; subst col;
      intros c Hc; simpl in Hc;
      repeat destruct Hc as [<-|Hc]; try contradiction;
      eexists; reflexivity.
  - simpl. tauto.
  - exists fr', col. auto.
Defined.

End MoreEvaluations.
